(** * Pelagic Laser Tomographer firmware: a shallow embedding

    The firmware (Firmware/Code) is a set of C++ classes with static fields
    and inline methods, running single-threaded on a 32-bit microcontroller.
    Each class becomes a module below: its static fields become a record, a
    method becomes a function from the record (and the answers of the
    hardware) to the new record, and what the method does to the pins is
    returned as a list of events.

    Unsigned C integers are [Z] with the wrap-around written out. The SD
    card is a finite map from paths to contents, the serial port a list of
    the strings printed. The main sketch is not part of Firmware/Code: the
    functions that [Commands] calls in it are a record of functions, and
    module [Scenario] has the concrete cards, switch readings and sketch
    used in the examples.

    The definitions come first, class by class; the theorems follow. *)

From Stdlib Require Import ZArith List String Ascii Bool Lia.
From Stdlib Require Import Floats.
From stdpp Require Import gmap strings.
Import ListNotations.

Local Open Scope Z_scope.

(** ** Machine integers *)

Definition uint8 (z : Z) : Z := z mod 2 ^ 8.
Definition uint16 (z : Z) : Z := z mod 2 ^ 16.
Definition uint32 (z : Z) : Z := z mod 2 ^ 32.

(** ** The C library, as the firmware uses it

    The target is a 32-bit ARM board: [int] and [long] are 32 bits wide. *)

Module Libc.

Definition INT_MAX : Z := 2 ^ 31 - 1.
Definition INT_MIN : Z := - 2 ^ 31.

Definition code (c : ascii) : Z := Z.of_N (N_of_ascii c).

(** [isspace]: space, and \t \n \v \f \r. *)
Definition isSpace (c : ascii) : bool :=
  (code c =? 32) || ((9 <=? code c) && (code c <=? 13)).

Definition isdigit (c : ascii) : bool := (48 <=? code c) && (code c <=? 57).

Definition digit_char (d : Z) : ascii := ascii_of_N (Z.to_N (48 + d)).

(** The digits at the head of [s], read most significant first onto
    [acc]. *)
Fixpoint digits_value (s : string) (acc : Z) : Z :=
  match s with
  | String c s' =>
      if isdigit c then digits_value s' (acc * 10 + (code c - 48)) else acc
  | EmptyString => acc
  end.

Fixpoint skip_spaces (s : string) : string :=
  match s with
  | String c s' => if isSpace c then skip_spaces s' else s
  | EmptyString => s
  end.

(** [atoi] is [(int) strtol( s, NULL, 10 )]: white space, an optional
    sign, then digits up to the first character that is not one; a value
    out of range is clamped to the nearest end of the range. *)
Definition atoi (s : string) : Z :=
  let v :=
    match skip_spaces s with
    | EmptyString => 0
    | String c s' =>
        if Ascii.eqb c "-" then - digits_value s' 0
        else if Ascii.eqb c "+" then digits_value s' 0
        else digits_value (String c s') 0
    end in
  Z.max INT_MIN (Z.min INT_MAX v).

(** The decimal digits of [n], written in front of [acc], least
    significant digit first; [fuel] bounds the number of digits. *)
Fixpoint digits_onto (fuel : nat) (n : Z) (acc : string) : string :=
  match fuel with
  | O => acc
  | S fuel' =>
      let acc' := String (digit_char (n mod 10)) acc in
      if n / 10 =? 0 then acc' else digits_onto fuel' (n / 10) acc'
  end.

Definition decimal (n : Z) : string :=
  digits_onto (S (Z.to_nat (Z.log2 n))) n "".

(** [%d] and, with 32-bit [long], [%ld]. *)
Definition printf_d (z : Z) : string :=
  if z <? 0 then String "-" (decimal (- z)) else decimal z.

(** [%02d] for a value that is not negative. *)
Definition printf_02d (z : Z) : string :=
  if z <? 10 then String "0" (decimal z) else decimal z.

(** An unsigned 32-bit argument read by [%ld] as a [long]. *)
Definition as_long (z : Z) : Z :=
  if uint32 z <? 2 ^ 31 then uint32 z else uint32 z - 2 ^ 32.

(** What ends a number: the end of the string or a character that is not
    a digit. *)
Definition ends_number (rest : string) : Prop :=
  match rest with
  | EmptyString => True
  | String c _ => isdigit c = false
  end.

(** Every character of [s] passes [p]. *)
Fixpoint all_chars (p : ascii -> bool) (s : string) : bool :=
  match s with
  | EmptyString => true
  | String c s' => p c && all_chars p s'
  end.

(** A character of a line: anything but \r and \n. *)
Definition inline (c : ascii) : bool :=
  negb (Ascii.eqb c "013") && negb (Ascii.eqb c "010").

(** Neither white space nor the end of a line. *)
Definition solid (c : ascii) : bool :=
  negb (isSpace c) && negb (Ascii.eqb c "013") && negb (Ascii.eqb c "010").


End Libc.

(** ** The Arduino pin interface (pins.h and Arduino.h) *)

Module Arduino.

Inductive Level := LOW | HIGH.

(** What a method does to the outside world, in program order. *)
Inductive Event :=
| DigitalWrite (pin : Z) (level : Level)
| Delay (ms : Z).

Definition Level_eqb (a b : Level) : bool :=
  match a, b with
  | LOW, LOW | HIGH, HIGH => true
  | _, _ => false
  end.

(* pins.h *)
Definition CAMERA_SHUTTER_PIN : Z := 10.
Definition LASER_PIN : Z := 11.
Definition STARTSTOP_SWITCH_PIN : Z := 14.
Definition CAMERA_POWER_SET_PIN : Z := 15.
Definition INTENSIFIER_POWER_SET_PIN : Z := 17.
Definition INTENSIFIER_POWER_UNSET_PIN : Z := 18.

(** The number of times [pin] is driven HIGH in a trace: each one trips
    the relay behind the pin once. *)
Fixpoint pulses (pin : Z) (tr : list Event) : nat :=
  match tr with
  | [] => O
  | DigitalWrite p HIGH :: tr' =>
      if p =? pin then S (pulses pin tr') else pulses pin tr'
  | _ :: tr' => pulses pin tr'
  end.

(** The time a trace blocks in [delay]. *)
Fixpoint blocked_ms (tr : list Event) : Z :=
  match tr with
  | [] => 0
  | Delay ms :: tr' => ms + blocked_ms tr'
  | _ :: tr' => blocked_ms tr'
  end.

End Arduino.

(** ** Camera.h *)

Module Camera.
Import Arduino.

Definition CAMERA_SHUTTER_DELAY : Z := 50.
Definition CAMERA_RELAY_DELAY : Z := 10.
Definition CAMERA_POWERUP_DELAY : Z := 15000.

(** The static fields. ENABLE_USAGE_TRACKING is not defined in
    pltlogger.h, so the usage counters are compiled out. *)
Record state := { powerStatus : bool }.

Definition init : state * list Event :=
  ({| powerStatus := false |},
   [DigitalWrite INTENSIFIER_POWER_UNSET_PIN HIGH;
    Delay CAMERA_RELAY_DELAY;
    DigitalWrite INTENSIFIER_POWER_UNSET_PIN LOW]).

Definition isPowerOn (s : state) : bool := powerStatus s.

(** A relay is latched or unlatched by setting its pin HIGH, then LOW a
    moment later. *)
Definition relay_pulse (pin : Z) : list Event :=
  [DigitalWrite pin HIGH; Delay CAMERA_RELAY_DELAY; DigitalWrite pin LOW].

Definition setPower (onOff force : bool) (s : state) : state * list Event :=
  if negb force && Bool.eqb (powerStatus s) onOff then (s, [])
  else
    let camera := relay_pulse CAMERA_POWER_SET_PIN in
    let intensifier :=
      if onOff then relay_pulse INTENSIFIER_POWER_SET_PIN
      else relay_pulse INTENSIFIER_POWER_UNSET_PIN in
    let powerup := if onOff then [Delay CAMERA_POWERUP_DELAY] else [] in
    ({| powerStatus := onOff |}, camera ++ intensifier ++ powerup).

(** One pass through the body of the loop of [snap]. *)
Definition shutter_trip : list Event :=
  [DigitalWrite CAMERA_SHUTTER_PIN HIGH; Delay CAMERA_RELAY_DELAY;
   DigitalWrite CAMERA_SHUTTER_PIN LOW; Delay CAMERA_SHUTTER_DELAY].

(** [for ( uint8_t i = 0; i < nImages; ++i )]: [i] starts at 0 and stops
    at [nImages], so the body runs [nImages] times; [nImages] is a
    uint8_t, so [i] cannot wrap before it gets there. *)
Fixpoint snap_loop (remaining : nat) : list Event :=
  match remaining with
  | O => []
  | S n => shutter_trip ++ snap_loop n
  end.

Definition snap (nImages : Z) (s : state) : list Event :=
  if negb (powerStatus s) then []
  else snap_loop (Z.to_nat (uint8 nImages)).

(** The relays behind the pins. The camera relay toggles on every pulse
    of its one pin; the intensifier relay has a pin for each state. *)
Record relays := { camera_on : bool; intensifier_on : bool }.

Fixpoint drive (tr : list Event) (r : relays) : relays :=
  match tr with
  | [] => r
  | DigitalWrite p HIGH :: tr' =>
      drive tr'
        (if p =? CAMERA_POWER_SET_PIN then
           {| camera_on := negb (camera_on r);
              intensifier_on := intensifier_on r |}
         else if p =? INTENSIFIER_POWER_SET_PIN then
           {| camera_on := camera_on r; intensifier_on := true |}
         else if p =? INTENSIFIER_POWER_UNSET_PIN then
           {| camera_on := camera_on r; intensifier_on := false |}
         else r)
  | _ :: tr' => drive tr' r
  end.

(** Calls of [setPower] one after the other, each with what it asks for
    and whether by force. *)
Fixpoint power_calls (calls : list (bool * bool)) (s : state)
  : state * list Event :=
  match calls with
  | [] => (s, [])
  | (onOff, force) :: rest =>
      let '(s1, tr) := setPower onOff force s in
      let '(s2, tr') := power_calls rest s1 in
      (s2, tr ++ tr')
  end.

End Camera.
(** ** Laser.h *)

Module Laser.
Import Arduino.

Definition LASER_WARMUP_DELAY : Z := 50.

Record state := { powerStatus : bool }.

Definition isPowerOn (s : state) : bool := powerStatus s.

Definition setPower (onOff : bool) (s : state) : state * list Event :=
  if Bool.eqb (powerStatus s) onOff then (s, [])
  else
    ({| powerStatus := onOff |},
     DigitalWrite LASER_PIN (if onOff then HIGH else LOW)
     :: (if onOff then [Delay LASER_WARMUP_DELAY] else [])).


(** [for ( uint8_t i = 3; i > 0; --i )] *)
Fixpoint testCycle_loop (i : nat) (s : state) : state * list Event :=
  match i with
  | O => (s, [])
  | S i' =>
      let '(s1, tr1) := setPower true s in
      let '(s2, tr2) := setPower false s1 in
      let pause :=
        if negb (Z.of_nat i =? 1) then [Delay LASER_WARMUP_DELAY] else [] in
      let '(s3, tr3) := testCycle_loop i' s2 in
      (s3, tr1 ++ [Delay LASER_WARMUP_DELAY] ++ tr2 ++ pause ++ tr3)
  end.

Definition testCycle (s : state) : state * list Event := testCycle_loop 3 s.

(** What the class is asked to do, one call after the other. *)
Inductive call :=
| SetPower (onOff : bool)
| TestCycle.

Fixpoint run (calls : list call) (s : state) : state * list Event :=
  match calls with
  | [] => (s, [])
  | c :: rest =>
      let '(s1, tr) :=
        match c with
        | SetPower onOff => setPower onOff s
        | TestCycle => testCycle s
        end in
      let '(s2, tr') := run rest s1 in
      (s2, tr ++ tr')
  end.

(** The level of the laser pin after a trace: the level written last. *)
Fixpoint pin_level (tr : list Event) (l : Level) : Level :=
  match tr with
  | [] => l
  | DigitalWrite p l' :: tr' =>
      pin_level tr' (if p =? LASER_PIN then l' else l)
  | _ :: tr' => pin_level tr' l
  end.

End Laser.

(** ** Sensors.h *)

Module Sensors.

Definition INERTIA_INITIALIZED : Z := 1.
Definition PRESSURE_INITIALIZED : Z := 2.
Definition TEMPERATURE_INITIALIZED : Z := 4.
Definition ALL_INITIALIZED : Z :=
  Z.lor INERTIA_INITIALIZED
    (Z.lor PRESSURE_INITIALIZED TEMPERATURE_INITIALIZED).

(** The static field [initialized], a bit per sensor found by [init]. *)
Record state := { initialized : Z }.

Definition isInitialized (s : state) : bool :=
  initialized s =? ALL_INITIALIZED.
Definition isInertiaSensorPresent (s : state) : bool :=
  negb (Z.land (initialized s) INERTIA_INITIALIZED =? 0).
Definition isPressureSensorPresent (s : state) : bool :=
  negb (Z.land (initialized s) PRESSURE_INITIALIZED =? 0).
Definition isTemperatureSensorPresent (s : state) : bool :=
  negb (Z.land (initialized s) TEMPERATURE_INITIALIZED =? 0).

Section Readers.

(** The C type [float] and the three things the readers do with it.
    Floating-point arithmetic itself is not modelled: the readers only
    move values around, except for one unit conversion and one
    comparison, which are taken as given. *)
Variable flt : Type.
Variable zero : flt.                    (* the constant 0.0 *)
Variable raw_to_celsius : flt -> flt.   (* t / 16.0 + 27.5 *)
Variable is_bad_temperature : flt -> bool. (* t <= BAD_WATER_TEMPERATURE *)

(** What the LSM9DS1 library hands back from [getEvent]. *)
Record inertia_event := {
  acceleration : flt * flt * flt;
  magnetic : flt * flt * flt;
  gyro_rate : flt * flt * flt;
  temperature : flt
}.

(** The caller's variables behind the output parameters of
    [getInertia]: three arrays and a reference. *)
Record inertia := {
  accel : list flt;
  mag : list flt;
  gyro : list flt;
  temp : flt
}.

Definition store3 (v : flt * flt * flt) (a : list flt) : list flt :=
  let '(x, y, z) := v in <[2%nat := z]> (<[1%nat := y]> (<[0%nat := x]> a)).

Definition getInertia (s : state) (ev : inertia_event) (out : inertia)
  : inertia :=
  if negb (isInertiaSensorPresent s) then
    (* No sensor. Return zeroes. *)
    {| accel := store3 (zero, zero, zero) (accel out);
       mag := store3 (zero, zero, zero) (mag out);
       gyro := store3 (zero, zero, zero) (gyro out);
       temp := temp out |}
  else
    {| accel := store3 (acceleration ev) (accel out);
       mag := store3 (magnetic ev) (mag out);
       gyro := store3 (gyro_rate ev) (gyro out);
       temp := raw_to_celsius (temperature ev) |}.

(** The caller's [pressure] and [depth]; [reading] is what the MS5837
    library reports after [read]. *)
Definition getWaterPressure (s : state) (reading : flt * flt)
    (out : flt * flt) : flt * flt :=
  if negb (isPressureSensorPresent s) then (zero, zero)
  else reading.

Definition getWaterTemperature (s : state) (reading : flt) (out : flt)
  : flt :=
  if negb (isTemperatureSensorPresent s) then zero
  else if is_bad_temperature reading then zero
  else reading.

(** Every output of a reader is zero. *)
Definition all_zero (l : list flt) : Prop := Forall (fun v => v = zero) l.

Definition inertia_outputs (o : inertia) : list flt :=
  accel o ++ mag o ++ gyro o ++ [temp o].

End Readers.

Arguments accel {flt}.
Arguments mag {flt}.
Arguments gyro {flt}.
Arguments temp {flt}.
Arguments getInertia {flt}.
Arguments getWaterPressure {flt}.
Arguments getWaterTemperature {flt}.
Arguments all_zero {flt}.
Arguments inertia_outputs {flt}.


(** [init]: the field is cleared and a bit is set for every sensor that
    starts. [inertia_begins] and [pressure_inits] are what
    [inertiaSensor.begin] and [pressureSensor.init] return;
    [temperature_good] is the outcome of
    [temp > BAD_WATER_TEMPERATURE] for the first reading of the
    temperature sensor. The field is a uint8_t. *)
Definition init (inertia_begins pressure_inits temperature_good : bool)
  : bool * state :=
  let i0 := 0 in
  let i1 :=
    if inertia_begins then uint8 (Z.lor i0 INERTIA_INITIALIZED) else i0 in
  let i2 :=
    if pressure_inits then uint8 (Z.lor i1 PRESSURE_INITIALIZED) else i1 in
  let i3 :=
    if temperature_good then uint8 (Z.lor i2 TEMPERATURE_INITIALIZED)
    else i2 in
  (* Return true only if all sensors initialized. *)
  (i3 =? ALL_INITIALIZED, {| initialized := i3 |}).

End Sensors.


(** ** Battery.h and Battery.cpp

    Both batteries are watched by an LC709203F monitor; the two monitors
    share the I2C bus behind a multiplexer. *)

Module Battery.

Definition MUX_MAIN_BATTERY : Z := 4.
Definition MUX_CONTROLLER_BATTERY : Z := 2.

(** What goes out on the I2C bus: the byte written to the multiplexer,
    and a call of the library of the monitor of the battery behind the
    multiplexer address [device]. *)
Inductive Event :=
| MuxSelect (byte : Z)
| Monitor (device : Z).

Record state := {
  currentMuxDevice : Z;       (* uint8_t *)
  mainInitialized : bool;
  controllerInitialized : bool
}.

(** The static fields as Battery.cpp initializes them. *)
Definition boot : state :=
  {| currentMuxDevice := 255;
     mainInitialized := false;
     controllerInitialized := false |}.

Definition setMux (device : Z) (s : state) : state * list Event :=
  if 7 <? device then (s, [])
  else if device =? currentMuxDevice s then (s, [])
  else
    ({| currentMuxDevice := device;
        mainInitialized := mainInitialized s;
        controllerInitialized := controllerInitialized s |},
     [MuxSelect (uint8 (Z.shiftl 1 device))]).

(** [init]: [controller_begins] and [main_begins] are what [begin] of the
    two monitors returns. A monitor that begins is set up with three more
    calls. *)
Definition init (controller_begins main_begins : bool) (s : state)
  : bool * state * list Event :=
  let '(s1, tr1) := setMux MUX_CONTROLLER_BATTERY s in
  let s2 :=
    {| currentMuxDevice := currentMuxDevice s1;
       mainInitialized := mainInitialized s1;
       controllerInitialized :=
         if controller_begins then true else controllerInitialized s1 |} in
  let tr2 :=
    Monitor MUX_CONTROLLER_BATTERY
    :: (if controller_begins
        then [Monitor MUX_CONTROLLER_BATTERY; Monitor MUX_CONTROLLER_BATTERY;
              Monitor MUX_CONTROLLER_BATTERY]
        else []) in
  let '(s3, tr3) := setMux MUX_MAIN_BATTERY s2 in
  let s4 :=
    {| currentMuxDevice := currentMuxDevice s3;
       mainInitialized := if main_begins then true else mainInitialized s3;
       controllerInitialized := controllerInitialized s3 |} in
  let tr4 :=
    Monitor MUX_MAIN_BATTERY
    :: (if main_begins
        then [Monitor MUX_MAIN_BATTERY; Monitor MUX_MAIN_BATTERY;
              Monitor MUX_MAIN_BATTERY]
        else []) in
  (mainInitialized s4 && controllerInitialized s4, s4,
   tr1 ++ tr2 ++ tr3 ++ tr4).

Section Readers.

(** The C type [float]; [zero] is the constant 0.0 and [reading] what
    the monitor reports. *)
Variable flt : Type.
Variable zero : flt.

(** [getControllerPercent] and [getControllerVoltage] *)
Definition getController (reading : flt) (s : state)
  : flt * state * list Event :=
  if negb (controllerInitialized s) then (zero, s, [])
  else
    let '(s1, tr) := setMux MUX_CONTROLLER_BATTERY s in
    (reading, s1, tr ++ [Monitor MUX_CONTROLLER_BATTERY]).

(** [getMainPercent] and [getMainVoltage] *)
Definition getMain (reading : flt) (s : state) : flt * state * list Event :=
  if negb (mainInitialized s) then (zero, s, [])
  else
    let '(s1, tr) := setMux MUX_MAIN_BATTERY s in
    (reading, s1, tr ++ [Monitor MUX_MAIN_BATTERY]).

(** What the class is asked to do, one call after the other. *)
Inductive call :=
| Init (controller_begins main_begins : bool)
| GetController (reading : flt)
| GetMain (reading : flt).

Definition step (c : call) (s : state) : state * list Event :=
  match c with
  | Init cb mb => let '(_, s1, tr) := init cb mb s in (s1, tr)
  | GetController r => let '(_, s1, tr) := getController r s in (s1, tr)
  | GetMain r => let '(_, s1, tr) := getMain r s in (s1, tr)
  end.

Fixpoint run (calls : list call) (s : state) : state * list Event :=
  match calls with
  | [] => (s, [])
  | c :: rest =>
      let '(s1, tr) := step c s in
      let '(s2, tr') := run rest s1 in
      (s2, tr ++ tr')
  end.

End Readers.

Arguments Init {flt}.
Arguments GetController {flt}.
Arguments GetMain {flt}.
Arguments step {flt}.
Arguments run {flt}.
Arguments getController {flt}.
Arguments getMain {flt}.

(** The multiplexer passes the bus to the channels whose bits are set in
    the byte written to it last. [routed selected tr] tells that every
    call of a monitor in [tr] is made while the channel of its battery,
    and no other, is selected; [selected] is the byte the multiplexer
    holds at the start. *)
Fixpoint routed (selected : Z) (tr : list Event) : bool :=
  match tr with
  | [] => true
  | MuxSelect byte :: tr' => routed byte tr'
  | Monitor device :: tr' =>
      (selected =? Z.shiftl 1 device) && routed selected tr'
  end.

(** The byte the multiplexer holds after a trace. *)
Fixpoint selected_after (selected : Z) (tr : list Event) : Z :=
  match tr with
  | [] => selected
  | MuxSelect byte :: tr' => selected_after byte tr'
  | Monitor _ :: tr' => selected_after selected tr'
  end.

(** The field [currentMuxDevice] is right about the multiplexer, or has
    the value it boots with. *)
Definition in_step (selected : Z) (s : state) : Prop :=
  currentMuxDevice s = 255 \/
  0 <= currentMuxDevice s <= 7 /\
  selected = Z.shiftl 1 (currentMuxDevice s).

End Battery.
(** ** Switches.h *)

Module Switches.

Definition SWITCH_DEBOUNCE_PERIOD : Z := 50.
Definition SWITCH_DOWN : Z := 0.
Definition SWITCH_UP : Z := 1.

Record state := {
  lastDebounceMillis : Z;     (* uint32_t *)
  count : Z;                  (* uint16_t *)
  previousSteadyState : Z;
  lastSteadyState : Z;
  lastFlickerableState : Z
}.

(** [pin] is what [digitalRead( STARTSTOP_SWITCH_PIN )] returns. *)
Definition init (pin : Z) : state :=
  {| lastDebounceMillis := 0;
     count := 0;
     previousSteadyState := pin;
     lastSteadyState := pin;
     lastFlickerableState := pin |}.

(** One call of [update]: the pin is read once and [millis] is called up
    to twice, first when the pin has changed ([now1]) and then for the
    test of the debounce period ([now2]). *)
Record tick := { pin : Z; now1 : Z; now2 : Z }.

Definition update (t : tick) (s : state) : state :=
  let currentState := pin t in
  (* If the state has changed, update the debounce timer and save the
     new state. *)
  let s1 :=
    if negb (currentState =? lastFlickerableState s) then
      {| lastDebounceMillis := now1 t;
         count := count s;
         previousSteadyState := previousSteadyState s;
         lastSteadyState := lastSteadyState s;
         lastFlickerableState := currentState |}
    else s in
  (* If we've exceeded the debounce period, lock in the current state. *)
  let s2 :=
    if SWITCH_DEBOUNCE_PERIOD <=? uint32 (now2 t - lastDebounceMillis s1) then
      {| lastDebounceMillis := lastDebounceMillis s1;
         count := count s1;
         previousSteadyState := lastSteadyState s1;
         lastSteadyState := currentState;
         lastFlickerableState := lastFlickerableState s1 |}
    else s1 in
  (* If the state has changed, increment a counter. *)
  if negb (previousSteadyState s2 =? lastSteadyState s2)
     && (lastSteadyState s2 =? SWITCH_UP) then
    {| lastDebounceMillis := lastDebounceMillis s2;
       count := uint16 (count s2 + 1);
       previousSteadyState := previousSteadyState s2;
       lastSteadyState := lastSteadyState s2;
       lastFlickerableState := lastFlickerableState s2 |}
  else s2.

Definition isStartStopPressed (s : state) : bool * state :=
  if 0 <? count s then
    (true,
     {| lastDebounceMillis := lastDebounceMillis s;
        count := 0;
        previousSteadyState := previousSteadyState s;
        lastSteadyState := lastSteadyState s;
        lastFlickerableState := lastFlickerableState s |})
  else (false, s).

(** The main loop as the switch sees it: calls of [update] and of
    [isStartStopPressed] in some order. *)
Inductive call :=
| Update (t : tick)
| Query.

(** Runs the calls and collects what the queries returned. *)
Fixpoint run (calls : list call) (s : state) : list bool * state :=
  match calls with
  | [] => ([], s)
  | Update t :: rest => run rest (update t s)
  | Query :: rest =>
      let '(b, s1) := isStartStopPressed s in
      let '(bs, s2) := run rest s1 in
      (b :: bs, s2)
  end.

(** The pin levels the ticks of a run of calls sampled. *)
Fixpoint samples (calls : list call) : list Z :=
  match calls with
  | [] => []
  | Update t :: rest => pin t :: samples rest
  | Query :: rest => samples rest
  end.

(** The physical presses in a sequence of samples taken after the level
    [prev]: the switch pulls the pin down while it is pressed, so each
    fall of the level from up to down starts a press. *)
Fixpoint presses (prev : Z) (levels : list Z) : nat :=
  match levels with
  | [] => O
  | l :: rest =>
      if (prev =? SWITCH_UP) && (l =? SWITCH_DOWN) then S (presses l rest)
      else presses l rest
  end.

(** The releases: each rise from down to up ends a press. *)
Fixpoint releases (prev : Z) (levels : list Z) : nat :=
  match levels with
  | [] => O
  | l :: rest =>
      if (prev =? SWITCH_DOWN) && (l =? SWITCH_UP) then S (releases l rest)
      else releases l rest
  end.

Definition trues (bs : list bool) : nat := List.length (List.filter id bs).


(** The pin reads as one of the two levels. *)
Definition level (l : Z) : Prop := l = SWITCH_DOWN \/ l = SWITCH_UP.

(** Every sample at the down level is taken less than the debounce period
    after the level last changed: [prev] is the level sampled last and
    [since] is the time [millis] gave when it changed. *)
Fixpoint brief_dips (prev since : Z) (calls : list call) : Prop :=
  match calls with
  | [] => True
  | Update t :: rest =>
      let since' := if pin t =? prev then since else now1 t in
      (pin t = SWITCH_UP \/
       pin t = SWITCH_DOWN /\
       uint32 (now2 t - since') < SWITCH_DEBOUNCE_PERIOD) /\
      brief_dips (pin t) since' rest
  | Query :: rest => brief_dips prev since rest
  end.

(** What [update] keeps while the level has not come up from down:
    nothing is counted, and the level locked in is only up when the one
    before it is, and when the level sampled last is. *)
Definition held (cur : Z) (s : state) : Prop :=
  count s = 0 /\
  (lastSteadyState s = SWITCH_UP -> previousSteadyState s = SWITCH_UP) /\
  (cur = SWITCH_UP ->
   lastSteadyState s = SWITCH_UP /\ previousSteadyState s = SWITCH_UP).


(** What [update] keeps while the switch only bounces: the level locked
    in stays up. *)
Definition bouncing (prev since : Z) (s : state) : Prop :=
  count s = 0 /\ lastSteadyState s = SWITCH_UP /\
  previousSteadyState s = SWITCH_UP /\
  lastFlickerableState s = prev /\ lastDebounceMillis s = since.


End Switches.

(** ** FileSystem.h and FileSystem.cpp *)

Module FileSystem.

(* FS_ERROR_CODE_LIST *)
Inductive error :=
| FS_ERROR_NONE
| FS_ERROR_UNINITIALIZED
| FS_ERROR_NOCARD
| FS_ERROR_BAD_FORMAT
| FS_ERROR_CARD_FULL
| FS_ERROR_TOO_MANY_LOG_FILES
| FS_ERROR_BAD_PATH
| FS_ERROR_IS_DIR
| FS_ERROR_IS_FILE
| FS_ERROR_CANNOT_RM.

Definition BUFFER_SIZE : Z := 1025.
Definition MAX_LOG_FILES : Z := 100.
Definition SETTINGS_FILENAME : string := "SETTINGS.TXT".
Definition SD_CARD_ERROR_NONE : Z := 0.

(** FileSystem.h defines BATTERY_IN_DATA_LOG, so the battery columns are
    compiled in. *)
Definition BATTERY_IN_DATA_LOG : bool := true.

(** *** The SdFat library

    A card holds files by name. An open file is a name and a position;
    writing replaces the bytes from the position on and moves the
    position. Each call into the library that can fail takes its outcome
    from [answers], and is recorded in the list of calls. *)

Record SdFile := { path : string; position : nat }.

Inductive written :=
| AllBytes                (* write() returns the number of bytes given *)
| Failed (stored : nat).  (* write() returns something else *)

Record answers := {
  open_ok : bool;
  write_result : written;
  sync_ok : bool;
  sectorCount : Z;
  sdErrorCode : Z
}.

Inductive flags := O_RDONLY | O_WRONLY_CREAT.

Inductive call :=
| Exists (p : string)
| Open (p : string) (f : flags)
| Write (p : string) (buf : string)
| Sync (p : string)
| Close
| Remove (p : string).

Fixpoint take (n : nat) (s : string) : string :=
  match n, s with
  | S n', String c s' => String c (take n' s')
  | _, _ => EmptyString
  end.

Fixpoint drop (n : nat) (s : string) : string :=
  match n, s with
  | S n', String _ s' => drop n' s'
  | _, _ => s
  end.

(** The bytes of [buf] written over [old] at [pos]. *)
Definition overwrite (old : string) (pos : nat) (buf : string) : string :=
  take pos old +:+ buf +:+ drop (pos + String.length buf) old.

Definition sd_exists (crd : gmap string string) (p : string) : bool :=
  bool_decide (is_Some (crd !! p)).

(** [open] without O_TRUNC and without O_APPEND: a file that exists keeps
    its bytes, one that does not is created empty when O_CREAT is given,
    and the position is 0. *)
Definition sd_open (ok : bool) (f : flags) (crd : gmap string string)
    (p : string) : option SdFile * gmap string string :=
  if negb ok then (None, crd)
  else
    match crd !! p, f with
    | Some _, _ => (Some {| path := p; position := 0 |}, crd)
    | None, O_WRONLY_CREAT =>
        (Some {| path := p; position := 0 |}, <[p := ""]> crd)
    | None, O_RDONLY => (None, crd)
    end.

(** [write]: true when the library reports every byte written. *)
Definition sd_write (w : written) (crd : gmap string string) (f : SdFile)
    (buf : string) : bool * gmap string string * SdFile :=
  match crd !! path f with
  | None => (false, crd, f)
  | Some old =>
      let stored :=
        match w with
        | AllBytes => buf
        | Failed k => take k buf
        end in
      (match w with AllBytes => true | Failed _ => false end,
       <[path f := overwrite old (position f) stored]> crd,
       {| path := path f;
          position := (position f + String.length stored)%nat |})
  end.

(** *** The static fields

    [sharedFilename] and [sharedBuffer] are scratch arrays: each method
    fills them with [sprintf] right before it uses them, so they are the
    local values [name] and [buf] of the functions below. *)

Record state := {
  card : gmap string string;      (* behind [sd] *)
  logFile : option SdFile;        (* [None] when not open *)
  initialized : bool;
  cardErrorCode : Z;              (* uint8_t *)
  localErrorCode : error;
  numberOfDataLogEntries : Z      (* uint32_t *)
}.

Definition set_card v (s : state) : state :=
  {| card := v; logFile := logFile s; initialized := initialized s;
     cardErrorCode := cardErrorCode s; localErrorCode := localErrorCode s;
     numberOfDataLogEntries := numberOfDataLogEntries s |}.
Definition set_logFile v (s : state) : state :=
  {| card := card s; logFile := v; initialized := initialized s;
     cardErrorCode := cardErrorCode s; localErrorCode := localErrorCode s;
     numberOfDataLogEntries := numberOfDataLogEntries s |}.
Definition set_cardErrorCode v (s : state) : state :=
  {| card := card s; logFile := logFile s; initialized := initialized s;
     cardErrorCode := v; localErrorCode := localErrorCode s;
     numberOfDataLogEntries := numberOfDataLogEntries s |}.
Definition set_localErrorCode v (s : state) : state :=
  {| card := card s; logFile := logFile s; initialized := initialized s;
     cardErrorCode := cardErrorCode s; localErrorCode := v;
     numberOfDataLogEntries := numberOfDataLogEntries s |}.
Definition set_numberOfDataLogEntries v (s : state) : state :=
  {| card := card s; logFile := logFile s; initialized := initialized s;
     cardErrorCode := cardErrorCode s; localErrorCode := localErrorCode s;
     numberOfDataLogEntries := v |}.

Definition isDataLogOpen (s : state) : bool :=
  match logFile s with Some _ => true | None => false end.

Definition getNumberOfDataLogEntries (s : state) : Z :=
  numberOfDataLogEntries s.

Definition closeDataLog (s : state) : state * list call :=
  (set_localErrorCode FS_ERROR_NONE
     (set_numberOfDataLogEntries 0 (set_logFile None s)),
   [Close]).

(** *** CSV lines *)

Definition CRLF : string := String "013" (String "010" "").

(** A string between double quotes. *)
Definition quoted (s : string) : string :=
  String "034" (s +:+ String "034" "").

Fixpoint comma_separated (fields : list string) : string :=
  match fields with
  | [] => ""
  | [f] => f
  | f :: rest => f +:+ "," +:+ comma_separated rest
  end.

Definition csv_line (fields : list string) : string :=
  comma_separated fields +:+ CRLF.

(** The arguments of the [sprintf] in [writeDataLogHeader]. *)
Definition header_names : list string :=
  ["Timestamp"; "Milliseconds"; "Pressure"; "Depth"; "Water_Temperature";
   "Device_Temperature"; "Acceleration_X"; "Acceleration_Y";
   "Acceleration_Z"; "Magnetic_X"; "Magnetic_Y"; "Magnetic_Z";
   "Gyroscope_X"; "Gyroscope_Y"; "Gyroscope_Z"]
  ++ (if BATTERY_IN_DATA_LOG then
        ["Controller_Volts"; "Controller_Percent"; "Main_Volts";
         "Main_Percent"]
      else []).

Definition header_line : string := csv_line (List.map quoted header_names).

(** The write and sync at the end of [writeDataLogHeader] and
    [writeDataLog]: [sync] is only called when [write] returned the
    number of bytes; on failure the error is guessed from the sector
    count, the file is closed and the counter cleared. *)
Definition write_and_sync (a : answers) (f : SdFile) (buf : string)
    (s : state) : bool * state * list call :=
  let '(wrote, crd, f') := sd_write (write_result a) (card s) f buf in
  let s1 := set_logFile (Some f') (set_card crd s) in
  let calls :=
    Write (path f) buf :: (if wrote then [Sync (path f)] else []) in
  if negb wrote || negb (sync_ok a) then
    let s2 := set_cardErrorCode (uint8 (sdErrorCode a)) s1 in
    let s3 :=
      if uint32 (sectorCount a) <=? 0 then
        set_localErrorCode FS_ERROR_NOCARD s2
      else set_localErrorCode FS_ERROR_CARD_FULL s2 in
    (false, set_numberOfDataLogEntries 0 (set_logFile None s3),
     calls ++ [Close])
  else (true, s1, calls).

Definition writeDataLogHeader (a : answers) (s : state)
  : bool * state * list call :=
  match logFile s with
  | None => (false, s, [])
  | Some f => write_and_sync a f header_line s
  end.

Section DataLog.

(** The C type [float] and the three conversions of [sprintf] used on
    it, taken as given. *)
Variable flt : Type.
Variable printf_f : flt -> string.       (* %f *)
Variable printf_5_3f : flt -> string.    (* %5.3f *)
Variable printf_3_1f : flt -> string.    (* %3.1f *)

(** The arguments of [writeDataLog]; the arrays have three elements. *)
Record entry := {
  dt : string;
  ms : Z;                         (* uint32_t *)
  pressure : flt;
  depth : flt;
  waterTemperature : flt;
  deviceTemperature : flt;
  accel : flt * flt * flt;
  mag : flt * flt * flt;
  gyro : flt * flt * flt
}.

(** What the Battery class returns while the line is formatted. *)
Record battery := {
  controllerVoltage : flt;
  controllerPercent : flt;
  mainVoltage : flt;
  mainPercent : flt
}.

Definition vec3_fields (v : flt * flt * flt) : list string :=
  let '(x, y, z) := v in [printf_f x; printf_f y; printf_f z].

(** The conversions of the [sprintf] in [writeDataLog], in order; the
    format separates them with commas and ends with \r\n. *)
Definition entry_fields (b : battery) (e : entry) : list string :=
  [quoted (dt e); Libc.printf_d (Libc.as_long (ms e));
   printf_f (pressure e); printf_f (depth e);
   printf_f (waterTemperature e); printf_f (deviceTemperature e)]
  ++ vec3_fields (accel e) ++ vec3_fields (mag e) ++ vec3_fields (gyro e)
  ++ (if BATTERY_IN_DATA_LOG then
        [printf_5_3f (controllerVoltage b); printf_3_1f (controllerPercent b);
         printf_5_3f (mainVoltage b); printf_3_1f (mainPercent b)]
      else []).

Definition entry_line (b : battery) (e : entry) : string :=
  csv_line (entry_fields b e).

Definition writeDataLog (a : answers) (b : battery) (e : entry) (s : state)
  : bool * state * list call :=
  match logFile s with
  | None => (false, s, [])
  | Some f =>
      match write_and_sync a f (entry_line b e) s with
      | (false, s', calls) => (false, s', calls)
      | (true, s', calls) =>
          (true,
           set_numberOfDataLogEntries
             (uint32 (numberOfDataLogEntries s' + 1)) s',
           calls)
      end
  end.

(** The value of an entry under each column name of section 6 of the
    specification. *)
Definition column_value (b : battery) (e : entry) (name : string) : string :=
  if String.eqb name "Timestamp" then quoted (dt e)
  else if String.eqb name "Milliseconds" then
    Libc.printf_d (Libc.as_long (ms e))
  else if String.eqb name "Pressure" then printf_f (pressure e)
  else if String.eqb name "Depth" then printf_f (depth e)
  else if String.eqb name "Water_Temperature" then
    printf_f (waterTemperature e)
  else if String.eqb name "Device_Temperature" then
    printf_f (deviceTemperature e)
  else if String.eqb name "Acceleration_X" then printf_f (accel e).1.1
  else if String.eqb name "Acceleration_Y" then printf_f (accel e).1.2
  else if String.eqb name "Acceleration_Z" then printf_f (accel e).2
  else if String.eqb name "Magnetic_X" then printf_f (mag e).1.1
  else if String.eqb name "Magnetic_Y" then printf_f (mag e).1.2
  else if String.eqb name "Magnetic_Z" then printf_f (mag e).2
  else if String.eqb name "Gyroscope_X" then printf_f (gyro e).1.1
  else if String.eqb name "Gyroscope_Y" then printf_f (gyro e).1.2
  else if String.eqb name "Gyroscope_Z" then printf_f (gyro e).2
  else if String.eqb name "Controller_Volts" then
    printf_5_3f (controllerVoltage b)
  else if String.eqb name "Controller_Percent" then
    printf_3_1f (controllerPercent b)
  else if String.eqb name "Main_Volts" then printf_5_3f (mainVoltage b)
  else if String.eqb name "Main_Percent" then printf_3_1f (mainPercent b)
  else "".

End DataLog.

Arguments dt {flt}.
Arguments ms {flt}.
Arguments entry_fields {flt}.
Arguments entry_line {flt}.
Arguments writeDataLog {flt}.
Arguments column_value {flt}.

(** [sprintf( sharedFilename, "DATA_%02d.CSV", i )] *)
Definition dataLogFilename (i : Z) : string :=
  "DATA_" +:+ Libc.printf_02d i +:+ ".CSV".

(** The body of the loop of [newDataLog] for a file name that is not in
    use: create and open the file, start it with the header, and remove
    it again when that fails. *)
Definition newDataLog_create (name : string) (a : answers) (s : state)
  : bool * state * list call :=
  let '(f, crd) := sd_open (open_ok a) O_WRONLY_CREAT (card s) name in
  let s2 := set_logFile f (set_card crd s) in
  let '(status, s3) :=
    match f with
    | Some _ => (true, s2)
    | None =>
        (* File create failed. *)
        let s21 := set_cardErrorCode (uint8 (sdErrorCode a)) s2 in
        (false,
         if uint32 (sectorCount a) <=? 0 then
           set_localErrorCode FS_ERROR_NOCARD s21
         else s21)
    end in
  (* Start the log file. *)
  let '(wrote, s4, calls) := writeDataLogHeader a s3 in
  if negb wrote then
    (* File write failed. Remove the newly created file. *)
    (false, set_card (delete name (card s4)) s4,
     Open name O_WRONLY_CREAT :: calls ++ [Remove name])
  else (status, s4, Open name O_WRONLY_CREAT :: calls).

(** The loop of [newDataLog] from index [i] on, with [n] indices left to
    try. *)
Fixpoint newDataLog_from (n : nat) (i : Z) (a : answers) (s : state)
  : bool * state * list call :=
  match n with
  | O => (false, set_localErrorCode FS_ERROR_TOO_MANY_LOG_FILES s, [])
  | S n' =>
      let name := dataLogFilename i in
      let '(r, s', calls) :=
        if sd_exists (card s) name then
          newDataLog_from n' (uint16 (i + 1)) a s
        else
          (* Found a log number not in use. Create it and open. *)
          newDataLog_create name a s in
      (r, s', Exists name :: calls)
  end.

Definition newDataLog (a : answers) (s : state) : bool * state * list call :=
  if negb (initialized s) then (false, s, [])
  else
    let s1 :=
      set_cardErrorCode SD_CARD_ERROR_NONE
        (set_localErrorCode FS_ERROR_NONE
           (set_numberOfDataLogEntries 0 (set_logFile None s))) in
    let '(r, s', calls) :=
      newDataLog_from (Z.to_nat MAX_LOG_FILES) 0 a s1 in
    (r, s', Close :: calls).

(** A run of [writeDataLog], one call after the other: what each returned
    and the state at the end. *)
Fixpoint writeDataLogs {flt} (f f53 f31 : flt -> string)
    (rows : list (answers * battery flt * entry flt)) (s : state)
  : list bool * state :=
  match rows with
  | [] => ([], s)
  | (a, b, e) :: rest =>
      let '(r, s', _) := writeDataLog f f53 f31 a b e s in
      let '(rs, s'') := writeDataLogs f f53 f31 rest s' in
      (r :: rs, s'')
  end.

(** The lines of the entries of a run, one after the other. *)
Fixpoint lines {flt} (f f53 f31 : flt -> string)
    (rows : list (answers * battery flt * entry flt)) : string :=
  match rows with
  | [] => ""
  | (_, b, e) :: rest => entry_line f f53 f31 b e +:+ lines f f53 f31 rest
  end.

(** The calls a run of the device makes on the data log. *)
Inductive request (flt : Type) :=
| WriteDataLog (a : answers) (b : battery flt) (e : entry flt)
| CloseDataLog
| NewDataLog (a : answers).

Arguments WriteDataLog {flt}.
Arguments CloseDataLog {flt}.
Arguments NewDataLog {flt}.

Definition serve {flt} (f f53 f31 : flt -> string) (r : request flt)
    (s : state) : bool * state * list call :=
  match r with
  | WriteDataLog a b e => writeDataLog f f53 f31 a b e s
  | CloseDataLog => let '(s', calls) := closeDataLog s in (true, s', calls)
  | NewDataLog a => newDataLog a s
  end.

(** What the [writeDataLog] calls among [rs] return and do, up to the
    first [newDataLog] that succeeds. *)
Fixpoint writes_until_new_log {flt} (f f53 f31 : flt -> string)
    (rs : list (request flt)) (s : state) : list (bool * list call) :=
  match rs with
  | [] => []
  | r :: rest =>
      let '(ok, s', calls) := serve f f53 f31 r s in
      match r with
      | WriteDataLog _ _ _ =>
          (ok, calls) :: writes_until_new_log f f53 f31 rest s'
      | CloseDataLog => writes_until_new_log f f53 f31 rest s'
      | NewDataLog _ =>
          if ok then [] else writes_until_new_log f f53 f31 rest s'
      end
  end.

(** *** Reading the log back *)

(** The log file is open on a file of the card and positioned at its
    end, which is where [newDataLog] and every write leave it. *)
Definition log_at_end (s : state) : Prop :=
  match logFile s with
  | None => True
  | Some f =>
      exists old, card s !! path f = Some old
                  /\ position f = String.length old
  end.

(** A closed log has no entries counted. *)
Definition closed_means_zero (s : state) : Prop :=
  logFile s = None -> numberOfDataLogEntries s = 0.

Definition count_writes (calls : list call) : nat :=
  List.length
    (List.filter (fun c => match c with Write _ _ => true | _ => false end)
       calls).

Definition opens (calls : list call) : list call :=
  List.filter (fun c => match c with Open _ _ => true | _ => false end) calls.

(** *** The settings file *)

(** [readLine] on what is left to read of a file: the line, without its
    \r and \n, and what is left after it. The line stops when the
    buffer holds BUFFER_SIZE-1 bytes, at the end of the file, or after
    a \n. *)
Fixpoint readLine_from (rest : string) (nBytes : nat) : string * string :=
  if negb (Z.of_nat nBytes <? BUFFER_SIZE - 1) then ("", rest)
  else
    match rest with
    | EmptyString => ("", "")
    | String c rest' =>
        if Ascii.eqb c "013" then readLine_from rest' nBytes
        else if Ascii.eqb c "010" then ("", rest')
        else
          let '(line, rest'') := readLine_from rest' (S nBytes) in
          (String c line, rest'')
    end.

Definition readLine (rest : string) : string * string :=
  readLine_from rest 0.

(** The characters at the head of [s] up to the first white space, and
    the rest from that white space on. *)
Fixpoint word (s : string) : string * string :=
  match s with
  | EmptyString => ("", "")
  | String c s' =>
      if Libc.isSpace c then ("", s)
      else let '(w, rest) := word s' in (String c w, rest)
  end.

Definition parseLine (line : string) : string * string :=
  let '(name, rest) := word (Libc.skip_spaces line) in
  match rest with
  | EmptyString => (name, "")                      (* Only a name. *)
  | String _ rest' => (name, Libc.skip_spaces rest')
  end.

(** The three values behind the reference parameters of [loadSettings]. *)
Record settings := {
  interval : Z;             (* uint32_t *)
  isLaserContinuous : bool;
  burstSize : Z             (* uint8_t *)
}.

Definition setting (name value : string) (v : settings) : settings :=
  if String.eqb name "" || String.eqb value "" then v
  else if String.eqb name "interval" then
    {| interval := uint32 (Libc.atoi value);
       isLaserContinuous := isLaserContinuous v;
       burstSize := burstSize v |}
  else if String.eqb name "burstsize" then
    {| interval := interval v;
       isLaserContinuous := isLaserContinuous v;
       burstSize := uint8 (Libc.atoi value) |}
  else if String.eqb name "lasercontinuous" then
    {| interval := interval v;
       isLaserContinuous := Libc.atoi value =? 1;
       burstSize := burstSize v |}
  else v.

(** [while ( readLine( file ) > 0 )]: every turn that goes on takes at
    least one byte from the file, so as many turns as the file has
    bytes are always enough. *)
Fixpoint loadSettings_lines (turns : nat) (rest : string) (v : settings)
  : option settings :=
  match turns with
  | O => None
  | S turns' =>
      let '(line, rest') := readLine rest in
      if (String.length line =? 0)%nat then Some v
      else
        let '(name, value) := parseLine line in
        loadSettings_lines turns' rest' (setting name value v)
  end.

Definition loadSettings (a : answers) (v : settings) (s : state)
  : option (bool * settings * list call) :=
  if negb (initialized s) then Some (false, v, [])
  else
    match sd_open (open_ok a) O_RDONLY (card s) SETTINGS_FILENAME with
    | (None, _) => Some (false, v, [Open SETTINGS_FILENAME O_RDONLY])
    | (Some f, crd) =>
        match crd !! path f with
        | None => Some (false, v, [Open SETTINGS_FILENAME O_RDONLY])
        | Some content =>
            match loadSettings_lines (S (String.length content)) content v with
            | None => None
            | Some v' =>
                Some (true, v', [Open SETTINGS_FILENAME O_RDONLY; Close])
            end
        end
    end.

(** The [sprintf] of [saveSettings]. *)
Definition settings_text (v : settings) : string :=
  "interval " +:+ Libc.printf_d (Libc.as_long (interval v)) +:+ CRLF
  +:+ "burstsize " +:+ Libc.printf_d (uint8 (burstSize v)) +:+ CRLF
  +:+ "lasercontinuous "
  +:+ Libc.printf_d (if isLaserContinuous v then 1 else 0) +:+ CRLF.

Definition saveSettings (a : answers) (v : settings) (s : state)
  : bool * state * list call :=
  if negb (initialized s) then (false, s, [])
  else
    let s1 :=
      set_cardErrorCode SD_CARD_ERROR_NONE
        (set_localErrorCode FS_ERROR_NONE s) in
    (* Create or overwrite settings file. *)
    match sd_open (open_ok a) O_WRONLY_CREAT (card s1) SETTINGS_FILENAME with
    | (None, _) => (false, s1, [Open SETTINGS_FILENAME O_WRONLY_CREAT])
    | (Some f, crd) =>
        let buf := settings_text v in
        let '(wrote, crd', _) := sd_write (write_result a) crd f buf in
        let s2 := set_card crd' s1 in
        let calls :=
          [Open SETTINGS_FILENAME O_WRONLY_CREAT; Write SETTINGS_FILENAME buf]
          ++ (if wrote then [Sync SETTINGS_FILENAME] else []) in
        if negb wrote || negb (sync_ok a) then
          (false,
           set_localErrorCode FS_ERROR_CARD_FULL
             (set_cardErrorCode (uint8 (sdErrorCode a)) s2),
           calls ++ [Close])
        else (true, s2, calls ++ [Close])
    end.

(** One [saveSettings] after the other, as the commands that change a
    setting call it. *)
Fixpoint saveSettings_each (a : answers) (vs : list settings) (s : state)
  : state :=
  match vs with
  | [] => s
  | v :: vs' => saveSettings_each a vs' (saveSettings a v s).1.2
  end.

(** The values of a [uint32_t] and a [uint8_t]. *)
Definition settings_in_range (v : settings) : Prop :=
  0 <= interval v < 2 ^ 32 /\ 0 <= burstSize v < 2 ^ 8.

(** A character other than l, b and v. A word of such characters is none
    of the three names of the settings, which all have one of them. *)
Definition quiet (c : ascii) : bool :=
  negb (Ascii.eqb c "l") && negb (Ascii.eqb c "b") && negb (Ascii.eqb c "v").

(** A settings file whose bytes from the 45th on are quiet: what
    [saveSettings] leaves behind its text when it writes over such a file
    is quiet too. The text itself is 44 to 56 bytes long and its last 12
    bytes are quiet. *)
Definition settled (content : string) : Prop :=
  Libc.all_chars quiet (drop 44 content) = true.

(** *** Reading a file back: cat, head and tail

    The card of this model holds files only, so [isDir] is false for
    every path that opens. [read] on the card does not fail: it returns
    the bytes that are left, at most as many as asked for. *)

Definition HEAD_LINES : Z := 10.
Definition TAIL_LINES : Z := 10.

Definition NUL : ascii := "000".
Definition LF : ascii := "010".

Definition isCardPresent (a : answers) (s : state) : bool * state :=
  if negb (initialized s) then (false, s)
  else if 0 <? uint32 (sectorCount a) then (true, s)
  else (false, set_localErrorCode FS_ERROR_NOCARD s).

(** [Serial.print( sharedBuffer )]: the bytes of the buffer up to the
    first NUL. *)
Fixpoint cstr (buf : string) : string :=
  match buf with
  | EmptyString => ""
  | String c buf' => if Ascii.eqb c NUL then "" else String c (cstr buf')
  end.

(** What went out on the serial port, print after print. *)
Fixpoint joined (prints : list string) : string :=
  match prints with
  | [] => ""
  | p :: rest => p +:+ joined rest
  end.

(** [file.read( sharedBuffer, n )] on what is left to read of a file: the
    bytes read and what is left after them. *)
Definition sd_read (n : nat) (rest : string) : string * string :=
  (take n rest, drop n rest).

(** [sharedBuffer[i]] for a buffer that holds [nBytes] bytes and the NUL
    that the code puts behind them. *)
Definition byte_at (i : Z) (buf : string) : ascii :=
  match String.get (Z.to_nat i) buf with
  | Some c => c
  | None => NUL
  end.

(** [sharedBuffer[k] = c]; index [nBytes] holds a NUL already. *)
Fixpoint put (k : nat) (c : ascii) (buf : string) : string :=
  match buf, k with
  | EmptyString, _ => EmptyString
  | String _ buf', O => String c buf'
  | String b buf', S k' => String b (put k' c buf')
  end.

(** [while ( (nBytes = file.read( sharedBuffer, BUFFER_SIZE-1 )) > 0 )]
    with the NUL and the print as its body: what was printed, and the
    [nBytes] and the buffer the loop ended with. Every turn that goes on
    takes at least one byte, so as many turns as the file has bytes,
    and one more, are enough. *)
Fixpoint print_rest (fuel : nat) (rest : string) (buf : string)
  : option (list string * Z * string) :=
  match fuel with
  | O => None
  | S fuel' =>
      let '(chunk, rest') := sd_read (Z.to_nat (BUFFER_SIZE - 1)) rest in
      let nBytes := Z.of_nat (String.length chunk) in
      if negb (0 <? nBytes) then Some ([], nBytes, buf)
      else
        match print_rest fuel' rest' chunk with
        | None => None
        | Some (prints, n, b) => Some (cstr chunk :: prints, n, b)
        end
  end.

(** [if ( nBytes > 0 && sharedBuffer[nBytes-1] != '\n' )
    Serial.printf( "\r\n" );] *)
Definition final_newline (nBytes : Z) (buf : string) : list string :=
  if (0 <? nBytes) && negb (Ascii.eqb (byte_at (nBytes - 1) buf) LF)
  then [CRLF] else [].

(** The end of [cat], [head] and [tail]: the error code of the card
    decides the result. *)
Definition read_status (a : answers) (s : state) : bool * state :=
  let s' := set_cardErrorCode (uint8 (sdErrorCode a)) s in
  (cardErrorCode s' =? SD_CARD_ERROR_NONE, s').

Definition clear_errors (s : state) : state :=
  set_cardErrorCode SD_CARD_ERROR_NONE (set_localErrorCode FS_ERROR_NONE s).

(** [SdFile file( path, O_RDONLY )] and the bytes of the file. *)
Definition open_to_read (a : answers) (p : string) (s : state)
  : option string :=
  match sd_open (open_ok a) O_RDONLY (card s) p with
  | (None, _) => None
  | (Some f, crd) => crd !! path f
  end.

Definition cat (a : answers) (p : string) (s : state)
  : option (bool * state * list string) :=
  let s1 := clear_errors s in
  match open_to_read a p s1 with
  | None => Some (false, set_localErrorCode FS_ERROR_BAD_PATH s1, [])
  | Some content =>
      match print_rest (S (String.length content)) content "" with
      | None => None
      | Some (prints, nBytes, buf) =>
          let '(status, s2) := read_status a s1 in
          Some (status, s2, prints ++ final_newline nBytes buf)
      end
  end.

(** The [for] loop of [head] over the bytes of the buffer from index [i]
    on: the line count, and where the buffer was cut when the count got
    to HEAD_LINES. *)
Fixpoint head_scan (bytes : string) (i : nat) (nLines : Z)
  : Z * option nat :=
  match bytes with
  | EmptyString => (nLines, None)
  | String c bytes' =>
      if Ascii.eqb c LF then
        let nLines' := uint32 (nLines + 1) in
        if HEAD_LINES <=? nLines' then (nLines', Some (S i))
        else head_scan bytes' (S i) nLines'
      else head_scan bytes' (S i) nLines
  end.

Fixpoint head_loop (fuel : nat) (rest : string) (nLines nBytes : Z)
    (buf : string) : option (list string * Z * string) :=
  match fuel with
  | O => None
  | S fuel' =>
      if negb (nLines <? HEAD_LINES) then Some ([], nBytes, buf)
      else
        let '(chunk, rest') := sd_read (Z.to_nat (BUFFER_SIZE - 1)) rest in
        let nBytes' := Z.of_nat (String.length chunk) in
        if negb (0 <? nBytes') then Some ([], nBytes', buf)
        else
          let '(nLines', cut) := head_scan chunk 0 nLines in
          let buf' :=
            match cut with
            | Some k => put k NUL chunk
            | None => chunk
            end in
          match head_loop fuel' rest' nLines' nBytes' buf' with
          | None => None
          | Some (prints, n, b) => Some (cstr buf' :: prints, n, b)
          end
  end.

(** The check at the head of [head], [tail], [ls], [du] and [rmall]. *)
Definition card_check (a : answers) (s : state) : bool * state :=
  let '(present, s0) := isCardPresent a s in
  if negb present then
    (false,
     set_localErrorCode FS_ERROR_NOCARD
       (set_cardErrorCode (uint8 (sdErrorCode a)) s0))
  else (true, clear_errors s0).

Definition head (a : answers) (p : string) (s : state)
  : option (bool * state * list string) :=
  let '(present, s1) := card_check a s in
  if negb present then Some (false, s1, [])
  else
    match open_to_read a p s1 with
    | None => Some (false, set_localErrorCode FS_ERROR_BAD_PATH s1, [])
    | Some content =>
        match head_loop (S (String.length content)) content 0 0 "" with
        | None => None
        | Some (prints, nBytes, buf) =>
            let '(status, s2) := read_status a s1 in
            Some (status, s2, prints ++ final_newline nBytes buf)
        end
    end.

(** The [for] loop of [tail] over the bytes of the buffer from index
    [steps - 1] down to 0: the line count, and the index of the line
    feed that took the count over TAIL_LINES. *)
Fixpoint tail_scan (buf : string) (steps : nat) (nLines : Z)
  : Z * option nat :=
  match steps with
  | O => (nLines, None)
  | S i =>
      if Ascii.eqb (byte_at (Z.of_nat i) buf) LF then
        let nLines' := uint32 (nLines + 1) in
        if TAIL_LINES <? nLines' then (nLines', Some i)
        else tail_scan buf i nLines'
      else tail_scan buf i nLines
  end.

(** The first loop of [tail], which looks for the offset to print from.
    The file is at most 2^32 - 1 bytes long, so the 64-bit offsets do
    not wrap. The file position is [offset] at the head of every turn. *)
Fixpoint tail_seek (fuel : nat) (content : string)
    (offset nToRead nLines : Z) : option Z :=
  match fuel with
  | O => None
  | S fuel' =>
      if negb (nLines <=? TAIL_LINES) then Some offset
      else
        let '(chunk, _) :=
          sd_read (Z.to_nat nToRead) (drop (Z.to_nat offset) content) in
        let nBytes := Z.of_nat (String.length chunk) in
        if negb (0 <? nBytes) then Some offset
        else
          let '(nLines', found) := tail_scan chunk (Z.to_nat nBytes) nLines in
          let offset1 :=
            match found with
            | Some i => offset + Z.of_nat i + 1
            | None => offset
            end in
          if (TAIL_LINES <? nLines') || (offset1 =? 0) then Some offset1
          else
            (* Back up another buffer's worth. *)
            let offset2 := offset1 - BUFFER_SIZE in
            if offset2 <? 0 then
              tail_seek fuel' content 0 (offset2 + BUFFER_SIZE - 1) nLines'
            else tail_seek fuel' content offset2 nToRead nLines'
  end.

Definition tail_offset (content : string) : option Z :=
  let size := Z.of_nat (String.length content) in
  let nToRead := BUFFER_SIZE - 1 in
  let offset := size - nToRead in
  if offset <? 0 then
    tail_seek (S (String.length content)) content 0
      (offset + BUFFER_SIZE - 1) 0
  else tail_seek (S (String.length content)) content offset nToRead 0.

Definition tail (a : answers) (p : string) (s : state)
  : option (bool * state * list string) :=
  let '(present, s1) := card_check a s in
  if negb present then Some (false, s1, [])
  else
    match open_to_read a p s1 with
    | None => Some (false, set_localErrorCode FS_ERROR_BAD_PATH s1, [])
    | Some content =>
        match tail_offset content with
        | None => None
        | Some offset =>
            match print_rest (S (String.length content))
                    (drop (Z.to_nat offset) content) "" with
            | None => None
            | Some (prints, nBytes, buf) =>
                let '(status, s2) := read_status a s1 in
                Some (status, s2, prints ++ final_newline nBytes buf)
            end
        end
    end.

(** The number of line feeds in [s]. *)
Fixpoint count_lf (s : string) : nat :=
  match s with
  | EmptyString => O
  | String c s' => if Ascii.eqb c LF then S (count_lf s') else count_lf s'
  end.

(** Where [tail] may start to print a file: at its first byte, or behind
    a line feed that has ten line feeds or more behind it; and what is
    printed has no more line feeds than ten and one for every 1025
    bytes. *)
Definition tail_start (content : string) (off : nat) : Prop :=
  (off <= String.length content)%nat /\
  (off = O \/
   (byte_at (Z.of_nat off - 1) content = LF /\
    (10 <= count_lf (drop off content))%nat)) /\
  Z.of_nat (count_lf (drop off content))
  <= 10 + Z.of_nat (String.length content - off) / 1025.

(** A character of a text file: anything but NUL. *)
Definition text_char (c : ascii) : bool := negb (Ascii.eqb c NUL).

(** *** The status log *)

Definition STATUS_LOG_FILENAME : string := "STATUS.TXT".

Definition TAB : string := String "009" "".

(** [open] with O_WRONLY|O_CREAT|O_APPEND: the file is created empty when
    it is not there, and every write goes to its end. *)
Definition sd_open_append (ok : bool) (crd : gmap string string)
    (p : string) : option SdFile * gmap string string :=
  if negb ok then (None, crd)
  else
    match crd !! p with
    | Some old => (Some {| path := p; position := String.length old |}, crd)
    | None => (Some {| path := p; position := 0 |}, <[p := ""]> crd)
    end.

(** What every failed write and sync of [writeStatus] does to the error
    codes. *)
Definition status_failure (a : answers) (s : state) : state :=
  let s1 := set_cardErrorCode (uint8 (sdErrorCode a)) s in
  if uint32 (sectorCount a) <=? 0 then set_localErrorCode FS_ERROR_NOCARD s1
  else set_localErrorCode FS_ERROR_CARD_FULL s1.

(** One [file.write] of [writeStatus]: the new status with it. *)
Definition status_write (a : answers) (w : written) (buf : string)
    (st : bool * state * SdFile) : bool * state * SdFile :=
  let '(status, s, f) := st in
  let '(wrote, crd, f') := sd_write w (card s) f buf in
  let s1 := set_card crd s in
  if negb wrote then (false, status_failure a s1, f')
  else (status, s1, f').

(** [writeStatus]: [now] is what [Clock::nowString] returns, [first] the
    outcome of the write of the line for a new file, and the write of
    the message has the outcome in [a]. *)
Definition writeStatus (a : answers) (first : written) (now message : string)
    (s : state) : bool * state :=
  if negb (initialized s) then (false, s)
  else
    let s1 := clear_errors s in
    let alreadyExisted := sd_exists (card s1) STATUS_LOG_FILENAME in
    match sd_open_append (open_ok a) (card s1) STATUS_LOG_FILENAME with
    | (None, _) =>
        (* File open/create failed. *)
        (false, set_cardErrorCode (uint8 (sdErrorCode a)) s1)
    | (Some f, crd) =>
        let st0 := (true, set_card crd s1, f) in
        let st1 :=
          if negb alreadyExisted then
            (* The file has just been created. Add a first message. *)
            status_write a first (now +:+ TAB +:+ "Log file created" +:+ CRLF)
              st0
          else st0 in
        let st2 :=
          if String.eqb message "" then
            status_write a (write_result a) (CRLF +:+ CRLF) st1
          else
            status_write a (write_result a)
              (now +:+ TAB +:+ message +:+ CRLF) st1 in
        let '(status, s2, _) := st2 in
        if negb (sync_ok a) then (false, status_failure a s2)
        else (status, s2)
    end.

(** What a [write] stores of a buffer. *)
Definition stored_of (w : written) (buf : string) : string :=
  match w with
  | AllBytes => buf
  | Failed k => take k buf
  end.

(** The line that [writeStatus] adds for a message. *)
Definition status_line (now message : string) : string :=
  if String.eqb message "" then CRLF +:+ CRLF
  else now +:+ TAB +:+ message +:+ CRLF.

(** A string that ends with a line feed. *)
Fixpoint ends_lf (s : string) : bool :=
  match s with
  | EmptyString => false
  | String c EmptyString => Ascii.eqb c LF
  | String _ s' => ends_lf s'
  end.


End FileSystem.

(** ** pltlogger.h, Commands.h and Commands.cpp *)

Module Commands.

(* pltlogger.h *)
Definition DEFAULT_FRAME_INTERVAL : Z := 1000.
Definition MINIMUM_FRAME_INTERVAL : Z := 200.
Definition HARDWARE_BOOTING : Z := 1.
Definition HARDWARE_ERRORS : Z := 2.
Definition SOFTWARE_BOOTING : Z := 1.
Definition SOFTWARE_ERRORS : Z := 2.
Definition SOFTWARE_READY : Z := 3.
Definition SOFTWARE_RUNNING : Z := 4.
Definition CAMERA_OFF : Z := 0.
Definition CAMERA_BOOTING : Z := 1.
Definition CAMERA_READY : Z := 2.

(** Everything a command can read or change: the status values and run
    settings kept by the main sketch, the presumed power states of the
    actuator classes, what has gone out on the pins and what has been
    printed on the serial port. *)
Record world := {
  softwareStatus : Z;
  hardwareStatus : Z;
  cameraStatus : Z;
  frameInterval : Z;          (* uint32_t *)
  burstSize : Z;              (* uint8_t *)
  laserContinuous : bool;
  camera : Camera.state;
  laser : Laser.state;
  pins : list Arduino.Event;
  serial : list string
}.

(** A line of serial output: the text and its CR LF. *)
Definition crlf (text : string) : string := text +:+ FileSystem.CRLF.

Definition print (msg : string) (w : world) : world :=
  {| softwareStatus := softwareStatus w; hardwareStatus := hardwareStatus w;
     cameraStatus := cameraStatus w; frameInterval := frameInterval w;
     burstSize := burstSize w; laserContinuous := laserContinuous w;
     camera := camera w; laser := laser w; pins := pins w;
     serial := serial w ++ [msg] |}.

Definition Camera_setPower (onOff force : bool) (w : world) : world :=
  let '(c, tr) := Camera.setPower onOff force (camera w) in
  {| softwareStatus := softwareStatus w; hardwareStatus := hardwareStatus w;
     cameraStatus := cameraStatus w; frameInterval := frameInterval w;
     burstSize := burstSize w; laserContinuous := laserContinuous w;
     camera := c; laser := laser w; pins := pins w ++ tr;
     serial := serial w |}.

Definition Laser_setPower (onOff : bool) (w : world) : world :=
  let '(l, tr) := Laser.setPower onOff (laser w) in
  {| softwareStatus := softwareStatus w; hardwareStatus := hardwareStatus w;
     cameraStatus := cameraStatus w; frameInterval := frameInterval w;
     burstSize := burstSize w; laserContinuous := laserContinuous w;
     camera := camera w; laser := l; pins := pins w ++ tr;
     serial := serial w |}.

(** Modelled from the spec: the getters declared in pltlogger.h are defined
    in the main sketch, which is missing; they return the status values
    and run settings the Run Controller owns (spec, section 3). *)
Definition getSoftwareStatus (w : world) : Z := softwareStatus w.
Definition getHardwareStatus (w : world) : Z := hardwareStatus w.
Definition getFrameInterval (w : world) : Z := frameInterval w.
Definition getBurstSize (w : world) : Z := burstSize w.
Definition isLaserContinuous (w : world) : bool := laserContinuous w.

(** The other functions that [dispatch] calls and that are defined
    elsewhere: the entry points of the main sketch declared in
    pltlogger.h, the indicator lights, and the handlers of the commands
    that are not modelled here (information, date, tests and files). *)
Record sketch := {
  setFrameInterval : Z -> world -> bool * world;
  setLaserContinuous : bool -> world -> bool * world;
  setBurstSize : Z -> world -> bool * world;
  setCameraStatus : Z -> world -> world;
  setLightsForStatus : world -> world;
  snapAndLog : Z -> world -> bool * world;
  startRunning : world -> bool * world;
  stopRunning : world -> bool * world;
  reset : world -> world;
  elsewhere : string -> string -> world -> world
}.

Definition parseLine (line : string) : string * string :=
  let '(command, rest) := FileSystem.word (Libc.skip_spaces line) in
  match rest with
  | EmptyString => (command, "")               (* Only a command. *)
  | String _ rest' => (command, Libc.skip_spaces rest')
  end.

Section Dispatch.

Variable k : sketch.

Definition snap (nImages : Z) (w : world) : world :=
  if (getHardwareStatus w =? HARDWARE_BOOTING)
     || (getSoftwareStatus w =? SOFTWARE_BOOTING) then
    print (crlf "Still booting. Not yet ready to run.") w
  else if (getHardwareStatus w =? HARDWARE_ERRORS)
          || (getSoftwareStatus w =? SOFTWARE_ERRORS) then
    print (crlf "Type 'hwinfo' for hardware info.")
      (print (crlf "Cannot snap due to critical hardware errors.") w)
  else if getSoftwareStatus w =? SOFTWARE_RUNNING then
    print (crlf "Cannot snap a photo while imaging is in progress.") w
  else
    let w1 := print (crlf "Camera powering up...") w in
    (* [snapAndLog] takes a uint8_t. *)
    let w2 := snd (snapAndLog k (uint8 nImages) w1) in
    if nImages =? 1 then print (crlf "One image shot.") w2
    else print (Libc.printf_d nImages +:+ (crlf " images shot.")) w2.

Definition start (w : world) : world :=
  if (getHardwareStatus w =? HARDWARE_BOOTING)
     || (getSoftwareStatus w =? SOFTWARE_BOOTING) then
    print (crlf "Still booting. Not yet ready.") w
  else if (getHardwareStatus w =? HARDWARE_ERRORS)
          || (getSoftwareStatus w =? SOFTWARE_ERRORS) then
    print (crlf "Type 'hwinfo' for hardware info.")
      (print (crlf "Cannot start due to critical hardware errors.") w)
  else if getSoftwareStatus w =? SOFTWARE_RUNNING then
    print (crlf "Device is already started and capturing images.") w
  else snd (startRunning k w).

Definition stop (w : world) : world :=
  if (getHardwareStatus w =? HARDWARE_BOOTING)
     || (getSoftwareStatus w =? SOFTWARE_BOOTING) then
    print (crlf "Still booting. Not yet ready.") w
  else if negb (getSoftwareStatus w =? SOFTWARE_RUNNING) then
    print (crlf "Device is already stopped.") w
  else snd (stopRunning k w).

Definition interval_command (arg : string) (w : world) : world :=
  if String.eqb arg "" then
    (* No argument given. Show the current interval. *)
    print (Libc.printf_d (Libc.as_long (getFrameInterval w)) +:+ (crlf " ms")) w
  else
    let interval := uint32 (Libc.atoi arg) in
    let '(accepted, w1) := setFrameInterval k interval w in
    if negb accepted then
      print ("Bad interval. Use >= " +:+ Libc.printf_d MINIMUM_FRAME_INTERVAL
             +:+ (crlf " ms or 0 to reset to default.")) w1
    else if interval =? 0 then
      print ("Frame interval reset to default "
             +:+ Libc.printf_d (Libc.as_long (getFrameInterval w1))
             +:+ (crlf " ms")) w1
    else
      print ("Frame interval set to "
             +:+ Libc.printf_d (Libc.as_long (getFrameInterval w1))
             +:+ (crlf " ms")) w1.

Definition show_lasermode (w : world) : world :=
  if isLaserContinuous w then
    print (crlf "Continuous. Laser will be on for the whole run.") w
  else print (crlf "Normal. Laser will be turned on for each image.") w.

Definition lasermode_command (arg : string) (w : world) : world :=
  if String.eqb arg "" then show_lasermode w
  else if getSoftwareStatus w =? SOFTWARE_RUNNING then
    print (crlf "Cannot change laser mode while imaging is in progress.") w
  else if String.prefix "norm" arg then
    show_lasermode (snd (setLaserContinuous k false w))
  else if String.prefix "cont" arg then
    show_lasermode (snd (setLaserContinuous k true w))
  else print (crlf "Unknown mode. Use 'normal' or 'continuous'.") w.

Definition show_burstsize (w : world) : world :=
  print ("Shoot " +:+ Libc.printf_d (getBurstSize w)
         +:+ (crlf " images at a time.")) w.

Definition burstsize_command (arg : string) (w : world) : world :=
  if String.eqb arg "" then show_burstsize w
  else if getSoftwareStatus w =? SOFTWARE_RUNNING then
    print (crlf "Cannot change burst size while imaging is progress.") w
  else
    (* [setBurstSize] takes a uint8_t. *)
    show_burstsize (snd (setBurstSize k (uint8 (Libc.atoi arg)) w)).

Definition camera_command (arg : string) (w : world) : world :=
  if String.eqb arg "" then
    print ("Camera is " +:+ (if Camera.isPowerOn (camera w) then "on" else "off")
           +:+ (crlf ".")) w
  else if getSoftwareStatus w =? SOFTWARE_RUNNING then
    print (crlf "Cannot change camera on/off while imaging is in progress.") w
  else if String.eqb arg "on" then
    if Camera.isPowerOn (camera w) then
      print (crlf "  with the camera state. Use 'camera forceoff'.")
        (print (crlf "  If this is not the case, the software is out of sync")
           (print (crlf "Camera and intensifier are already on.") w))
    else
      let w1 := setCameraStatus k CAMERA_BOOTING w in
      let w2 := print (crlf "Camera and intensifier powering up...") w1 in
      let w3 := Camera_setPower true false w2 in
      let w4 := setCameraStatus k CAMERA_READY w3 in
      let w5 := setLightsForStatus k w4 in
      print (crlf "  with the camera state. Use 'camera forceoff' if that occurs.")
        (print (crlf "  Beware: use 'camera off' or the software may get out of sync")
           (print (crlf "Camera and intensifier are on.") w5))
  else if String.eqb arg "off" then
    if negb (Camera.isPowerOn (camera w)) then
      print (crlf "  with the camera state. Use 'camera forceoff'.")
        (print (crlf "  If this is not the case, the software is out of sync")
           (print (crlf "Camera is already off.") w))
    else
      let w1 := print (crlf "Camera and intensifier powering down...") w in
      let w2 := Camera_setPower false false w1 in
      let w3 := setCameraStatus k CAMERA_OFF w2 in
      let w4 := setLightsForStatus k w3 in
      print (crlf "Camera and intensifier are off.") w4
  else if String.eqb arg "forceoff" || String.eqb arg "reset" then
    let w1 := print (crlf "Camera and intensifier powering down (force)...") w in
    let w2 := Camera_setPower false true w1 in
    let w3 := setCameraStatus k CAMERA_OFF w2 in
    let w4 := setLightsForStatus k w3 in
    print (crlf "  If the camera still appears to be on, use this command again.")
      (print (crlf "Camera and intensifier should be off.") w4)
  else
    print (crlf "Use 'on', 'off', or 'forceoff'.")
      (print ("Unknown camera command: " +:+ arg +:+ (crlf "")) w).

Definition laser_command (arg : string) (w : world) : world :=
  if String.eqb arg "" then
    print ("Laser is " +:+ (if Laser.isPowerOn (laser w) then "on" else "off")
           +:+ (crlf ".")) w
  else if getSoftwareStatus w =? SOFTWARE_RUNNING then
    print (crlf "Cannot change laser on/off while imaging is in progress.") w
  else if String.eqb arg "on" then
    print (crlf "Laser is on.")
      (Laser_setPower true (print (crlf "Laser powering up...") w))
  else if String.eqb arg "off" then
    print (crlf "Laser is off.")
      (Laser_setPower false (print (crlf "Laser powering down...") w))
  else
    print (crlf "Use 'on' or 'off'.")
      (print ("Unknown laser command: " +:+ arg +:+ (crlf "")) w).

Definition snap_command (arg : string) (w : world) : world :=
  if String.eqb arg "" then snap (getBurstSize w) w
  else
    let nImages := uint16 (Libc.atoi arg) in
    if nImages <=? 1 then snap 1 w else snap nImages w.

(** The chain of [strcmp] in [dispatch], in its order. *)
Definition dispatch_command (command arg : string) (w : world) : world :=
  if String.eqb command "help" then elsewhere k command arg w
  else if String.eqb command "date" then elsewhere k command arg w
  else if String.eqb command "version" then elsewhere k command arg w
  else if String.eqb command "hwinfo" then elsewhere k command arg w
  else if String.prefix "sensor" command then elsewhere k command arg w
  else if String.eqb command "status" then elsewhere k command arg w
  else if String.eqb command "test" then elsewhere k command arg w
  else if String.eqb command "interval" then interval_command arg w
  else if String.eqb command "lasermode" then lasermode_command arg w
  else if String.eqb command "burstsize" then burstsize_command arg w
  else if String.eqb command "camera" then camera_command arg w
  else if String.eqb command "laser" then laser_command arg w
  else if String.eqb command "reset" then reset k w
  else if String.eqb command "start" then start w
  else if String.eqb command "stop" then stop w
  else if String.eqb command "snap" then snap_command arg w
  else elsewhere k command arg w.

Definition dispatch (line : string) (w : world) : world :=
  let '(command, arg) := parseLine line in
  dispatch_command command arg w.

End Dispatch.

(** The commands that change a setting or the power of the camera or the
    laser: the five words, each with an argument. *)
Definition mutating (command arg : string) : bool :=
  negb (String.eqb arg "")
  && (String.eqb command "interval" || String.eqb command "lasermode"
      || String.eqb command "burstsize" || String.eqb command "camera"
      || String.eqb command "laser").

(** The messages that turn a command down because a run is going on. *)
Definition refusals : list string :=
  [(crlf "Cannot change laser mode while imaging is in progress.");
   (crlf "Cannot change burst size while imaging is progress.");
   (crlf "Cannot change camera on/off while imaging is in progress.");
   (crlf "Cannot change laser on/off while imaging is in progress.")].

(** *** The serial line editor *)

Definition MAXLINE : Z := 1023.

Definition CR : ascii := "013".
Definition LF : ascii := "010".
Definition BS : ascii := "008".
Definition DEL : ascii := "127".

(** [iscntrl]: the codes below 32, and 127. *)
Definition iscntrl (c : ascii) : bool :=
  (Libc.code c <? 32) || (Libc.code c =? 127).

Definition printPrompt (w : world) : world := print "PLT > " w.

(** [Serial.print( c )] *)
Definition print_char (c : ascii) (w : world) : world :=
  print (String c "") w.

(** The last byte of the line taken away. *)
Fixpoint drop_last (line : string) : string :=
  match line with
  | EmptyString => ""
  | String _ EmptyString => ""
  | String c line' => String c (drop_last line')
  end.

Section SerialInput.

Variable k : sketch.

(** The end of a turn of the loop of [handleSerialInput] that got to the
    end of a line: [Serial.println], the command when the line is not
    empty, and the prompt. *)
Definition end_of_line (line : string) (w : world) : world :=
  let w1 := print FileSystem.CRLF w in
  let w2 :=
    if 0 <? Z.of_nat (String.length line) then dispatch k line w1 else w1 in
  printPrompt w2.

(** [handleSerialInput] on the bytes that the serial port has ready.
    [line] holds the bytes of [lineBuffer] before [lineBufferIndex]; a
    command gets them as a string, since the byte behind them is a NUL:
    the one written at the end of a line, or, behind a full buffer, the
    last byte of the array, which nothing else is ever written to.
    [flushing] is true inside [flushSerialInput], which gives up at the
    end of the line or when no byte is ready. A command is taken to
    leave the bytes that are ready alone, as every command but [format]
    does. Returns the line typed so far and the device. *)
Fixpoint handleSerialInput (input : list ascii) (flushing : bool)
    (line : string) (w : world) : string * world :=
  match input with
  | [] => if flushing then ("", end_of_line line w) else (line, w)
  | c :: input' =>
      if flushing then
        if Ascii.eqb c CR || Ascii.eqb c LF then
          handleSerialInput input' false "" (end_of_line line w)
        else handleSerialInput input' true line w
      else if Ascii.eqb c CR || Ascii.eqb c LF then
        (* EOL. *)
        handleSerialInput input' false "" (end_of_line line w)
      else if Ascii.eqb c BS || Ascii.eqb c DEL then
        (* Backspace or Delete. Back up if we can. *)
        if negb (Z.of_nat (String.length line) =? 0) then
          handleSerialInput input' false (drop_last line)
            (print_char BS (print_char " " (print_char BS w)))
        else handleSerialInput input' false line w
      else if iscntrl c then
        (* Control character. Ignore. *)
        handleSerialInput input' false line w
      else if (Z.of_nat (String.length line) =? 0) && Libc.isSpace c then
        (* White space. Ignore at start of a line. *)
        handleSerialInput input' false line (print_char c w)
      else if Z.of_nat (String.length line) <? MAXLINE then
        (* Character and room in buffer. Save it. *)
        handleSerialInput input' false (line +:+ String c "") (print_char c w)
      else
        (* Character and no more room in buffer. Flush. *)
        handleSerialInput input' true line w
  end.

(** The bytes of [text] echoed one by one. *)
Fixpoint echo (text : string) (w : world) : world :=
  match text with
  | EmptyString => w
  | String c text' => echo text' (print_char c w)
  end.

End SerialInput.

(** A character that the line editor stores: no control character. *)
Definition typed (c : ascii) : bool := negb (iscntrl c).

(** *** Numbers with commas *)

(** [digits] is a static array of MAXCHARS + 1 bytes: the digits and
    commas are written into it from the right, and the string returned
    starts at one of its bytes and ends before its first NUL. *)
Definition MAXCHARS : Z := 20 + 20 / 3.

(** [digits[i] = c] for an [int] index; an index outside the array has
    no defined behaviour. *)
Definition store (i : Z) (c : ascii) (digits : list ascii)
  : option (list ascii) :=
  if (0 <=? i) && (i <? Z.of_nat (List.length digits)) then
    Some (<[Z.to_nat i := c]> digits)
  else None.

(** The string that starts at [&digits[i]]. *)
Fixpoint c_string (bytes : list ascii) : string :=
  match bytes with
  | [] => ""
  | c :: bytes' =>
      if Ascii.eqb c "000" then "" else String c (c_string bytes')
  end.

(** The [for] loop of [uint64ToString]: one turn for every digit. The
    result is [i] and the array after the loop. *)
Fixpoint uint64ToString_loop (fuel : nat) (i d value : Z)
    (digits : list ascii) : option (Z * list ascii) :=
  match fuel with
  | O => None
  | S fuel' =>
      if negb ((0 <=? i) && (0 <? value)) then Some (i, digits)
      else
        let comma := negb (d =? 0) && (d mod 3 =? 0) in
        match (if comma then store i "," digits else Some digits) with
        | None => None
        | Some digits1 =>
            let i1 := if comma then i - 1 else i in
            match store i1 (Libc.digit_char (value mod 10)) digits1 with
            | None => None
            | Some digits2 =>
                uint64ToString_loop fuel' (i1 - 1) (d + 1) (value / 10)
                  digits2
            end
        end
  end.

(** [uint64ToString] on the array as the call before left it: the
    string returned and the array, or nothing when a byte outside the
    array is written. *)
Definition uint64ToString (value : Z) (digits : list ascii)
  : option (string * list ascii) :=
  if value =? 0 then Some ("0", digits)
  else
    match store MAXCHARS "000" digits with
    | None => None
    | Some digits0 =>
        match uint64ToString_loop 21 (MAXCHARS - 1) 0 value digits0 with
        | None => None
        | Some (i, digits') =>
            if i <=? 0 then Some (c_string digits', digits')
            else Some (c_string (List.skipn (Z.to_nat (i + 1)) digits'), digits')
        end
    end.

(** A number with a comma before every group of three digits, counted
    from the right: the digits [acc] are already written, [d] of them
    digits. *)
Fixpoint with_commas_onto (fuel : nat) (d n : Z) (acc : string) : string :=
  match fuel with
  | O => acc
  | S fuel' =>
      let acc1 :=
        if negb (d =? 0) && (d mod 3 =? 0) then String "," acc else acc in
      let acc2 := String (Libc.digit_char (n mod 10)) acc1 in
      if n / 10 =? 0 then acc2 else with_commas_onto fuel' (d + 1) (n / 10) acc2
  end.

(** Twenty digits are enough for a number of 64 bits. *)
Definition with_commas (n : Z) : string := with_commas_onto 20 0 n "".

Fixpoint strip_commas (s : string) : string :=
  match s with
  | EmptyString => ""
  | String c s' =>
      if Ascii.eqb c "," then strip_commas s' else String c (strip_commas s')
  end.

(** The number of commas before the digit that has [d] digits to its
    right. *)
Definition commas_before (d : Z) : Z := Z.max 0 ((d - 1) / 3).

(** *** Commands that are turned down *)

(** The device with nothing changed but more lines on the serial port. *)
Definition says (msgs : list string) (w : world) : world :=
  {| softwareStatus := softwareStatus w; hardwareStatus := hardwareStatus w;
     cameraStatus := cameraStatus w; frameInterval := frameInterval w;
     burstSize := burstSize w; laserContinuous := laserContinuous w;
     camera := camera w; laser := laser w; pins := pins w;
     serial := serial w ++ msgs |}.

(** The device is booting, has critical errors, or is running. *)
Definition booting (w : world) : bool :=
  (getHardwareStatus w =? HARDWARE_BOOTING)
  || (getSoftwareStatus w =? SOFTWARE_BOOTING).

Definition failing (w : world) : bool :=
  (getHardwareStatus w =? HARDWARE_ERRORS)
  || (getSoftwareStatus w =? SOFTWARE_ERRORS).

Definition in_a_run (w : world) : bool :=
  getSoftwareStatus w =? SOFTWARE_RUNNING.

(** A function of the main sketch or of the lights that leaves the pins
    of the camera and the presumed camera power alone. *)
Definition keeps_camera (f : world -> world) : Prop :=
  forall w, pins (f w) = pins w /\ camera (f w) = camera w.

End Commands.


(** ** Clock.cpp *)

Module Clock.

(** [while ( *s != '\0' && !isDigit( *s ) ) ++s;] *)
Fixpoint to_digits (s : string) : string :=
  match s with
  | EmptyString => s
  | String c s' => if negb (Libc.isdigit c) then to_digits s' else s
  end.

(** [while ( *s != '\0' && isDigit( *s ) ) ++s;] *)
Fixpoint past_digits (s : string) : string :=
  match s with
  | EmptyString => s
  | String c s' => if Libc.isdigit c then past_digits s' else s
  end.

(** The output parameters of [parseDate]: a uint16_t and five uint8_t. *)
Record date := {
  year : Z;
  month : Z;
  day : Z;
  hour : Z;
  minute : Z;
  second : Z
}.

(** [parseDate]: the result, and the output parameters as they are when
    it returns. *)
Definition parseDate (text : string) : bool * date :=
  (* Skip to digits, parse year. *)
  let s := to_digits text in
  match s with
  | EmptyString =>          (* Nothing given. *)
      (false, {| year := 2000; month := 1; day := 1;
                 hour := 0; minute := 0; second := 0 |})
  | _ =>
  let year0 := uint16 (Libc.atoi s) in
  (* Skip to next digits, parse month. *)
  let s := to_digits (past_digits s) in
  match s with
  | EmptyString =>          (* Year only given. *)
      (false, {| year := year0; month := 1; day := 1;
                 hour := 0; minute := 0; second := 0 |})
  | _ =>
  let tmp := uint16 (Libc.atoi s) in
  (* Decide if we have year first. *)
  let yearFirst := 31 <? year0 in
  let year1 := if yearFirst then year0 else 2000 in
  let month1 := if yearFirst then uint8 tmp else uint8 year0 in
  let day1 := if yearFirst then 1 else uint8 tmp in
  (* Skip to next digits, parse day. *)
  let s := to_digits (past_digits s) in
  match s with
  | EmptyString =>          (* Only year and month, or month and day. *)
      (false, {| year := year1; month := month1; day := day1;
                 hour := 0; minute := 0; second := 0 |})
  | _ =>
  let tmp := uint16 (Libc.atoi s) in
  let year2 := if yearFirst then year1 else tmp in
  let day2 := if yearFirst then uint8 tmp else day1 in
  (* Skip to next digits, parse hour. *)
  let s := to_digits (past_digits s) in
  match s with
  | EmptyString =>          (* Only date. *)
      (false, {| year := year2; month := month1; day := day2;
                 hour := 0; minute := 0; second := 0 |})
  | _ =>
  let hour1 := uint8 (Libc.atoi s) in
  (* Skip to next digits, parse minute. *)
  let s := to_digits (past_digits s) in
  match s with
  | EmptyString =>          (* Only date and hour. *)
      (false, {| year := year2; month := month1; day := day2;
                 hour := hour1; minute := 0; second := 0 |})
  | _ =>
  let minute1 := uint8 (Libc.atoi s) in
  (* Skip to next digits, parse second. *)
  let s := to_digits (past_digits s) in
  match s with
  | EmptyString =>          (* Only date, hour, and minute. *)
      (false, {| year := year2; month := month1; day := day2;
                 hour := hour1; minute := minute1; second := 0 |})
  | _ =>
      (true, {| year := year2; month := month1; day := day2;
                hour := hour1; minute := minute1;
                second := uint8 (Libc.atoi s) |})
  end end end end end end.

(** The groups of digits in a text; [inside] tells that the character
    before was a digit. *)
Fixpoint groups (inside : bool) (s : string) : nat :=
  match s with
  | EmptyString => O
  | String c s' =>
      if Libc.isdigit c then (if inside then O else 1%nat) + groups true s'
      else groups false s'
  end.

(** A separator between two numbers: some characters, none a digit. *)
Definition separator (s : string) : Prop :=
  s <> "" /\ Libc.all_chars (fun c => negb (Libc.isdigit c)) s = true.

(** The text [t] is the number [n] in decimal digits, with or without
    zeros in front. *)
Definition numeral (n : Z) (t : string) : Prop :=
  t <> "" /\ Libc.all_chars Libc.isdigit t = true /\
  Libc.digits_value t 0 = n.

End Clock.
(** ** Concrete runs

    The states, inputs and answers of the hardware that the theorems below
    are tried on. *)

Module Scenario.

(** *** Start/stop switch: a press, a release, and a second press

    The switch is pressed at 10 ms and released at 100 ms, and the release
    is locked in at 160 ms. The loop comes back to the switch 15 s later
    and finds it pressed again; it asks after every tick. *)
Definition second_press : list Switches.call :=
  [Switches.Update {| Switches.pin := 0; Switches.now1 := 10; Switches.now2 := 10 |};
   Switches.Query;
   Switches.Update {| Switches.pin := 0; Switches.now1 := 70; Switches.now2 := 70 |};
   Switches.Query;
   Switches.Update {| Switches.pin := 1; Switches.now1 := 100; Switches.now2 := 100 |};
   Switches.Query;
   Switches.Update {| Switches.pin := 1; Switches.now1 := 160; Switches.now2 := 160 |};
   Switches.Query;
   Switches.Update
     {| Switches.pin := 0; Switches.now1 := 15170; Switches.now2 := 15170 |};
   Switches.Query;
   Switches.Update
     {| Switches.pin := 0; Switches.now1 := 15171; Switches.now2 := 15171 |};
   Switches.Query;
   Switches.Update
     {| Switches.pin := 0; Switches.now1 := 15172; Switches.now2 := 15172 |};
   Switches.Query].

(** *** The SD card *)

(** The library reports no failure. *)
Definition good : FileSystem.answers :=
  {| FileSystem.open_ok := true;
     FileSystem.write_result := FileSystem.AllBytes;
     FileSystem.sync_ok := true;
     FileSystem.sectorCount := 62333952;
     FileSystem.sdErrorCode := 0 |}.

(** The card is full: a write stops after three bytes. *)
Definition card_full : FileSystem.answers :=
  {| FileSystem.open_ok := true;
     FileSystem.write_result := FileSystem.Failed 3;
     FileSystem.sync_ok := true;
     FileSystem.sectorCount := 62333952;
     FileSystem.sdErrorCode := 0 |}.

(** The card has been pulled out. *)
Definition card_gone : FileSystem.answers :=
  {| FileSystem.open_ok := false;
     FileSystem.write_result := FileSystem.Failed 0;
     FileSystem.sync_ok := false;
     FileSystem.sectorCount := 0;
     FileSystem.sdErrorCode := 0 |}.

(** The file system after a successful [init], over a card with the
    given files. *)
Definition mounted (files : gmap string string) : FileSystem.state :=
  {| FileSystem.card := files;
     FileSystem.logFile := None;
     FileSystem.initialized := true;
     FileSystem.cardErrorCode := FileSystem.SD_CARD_ERROR_NONE;
     FileSystem.localErrorCode := FileSystem.FS_ERROR_NONE;
     FileSystem.numberOfDataLogEntries := 0 |}.

(** A card on which the first [n] data logs exist. *)
Fixpoint logs (n : nat) : gmap string string :=
  match n with
  | O => ∅
  | S n' =>
      <[FileSystem.dataLogFilename (Z.of_nat n') := FileSystem.header_line]>
        (logs n')
  end.

(** Sensor values in thousandths, and [%f], [%5.3f] and [%3.1f] on them
    for values that are not negative. *)
Definition thousandths (decimals : Z) (x : Z) : string :=
  Libc.printf_d (x / 1000) +:+ "."
  +:+ (if x mod 1000 <? 100 then "0" else "")
  +:+ (if x mod 1000 <? 10 then "0" else "")
  +:+ FileSystem.take (Z.to_nat decimals) (Libc.printf_d (x mod 1000) +:+ "000").

Definition printf_f (x : Z) : string := thousandths 3 x +:+ "000".
Definition printf_5_3f (x : Z) : string := thousandths 3 x.
Definition printf_3_1f (x : Z) : string := thousandths 1 x.

Definition an_entry : FileSystem.entry Z :=
  {| FileSystem.dt := "10/30/2021 09:14:07";
     FileSystem.ms := 250;
     FileSystem.pressure := 1013250;
     FileSystem.depth := 0;
     FileSystem.waterTemperature := 18500;
     FileSystem.deviceTemperature := 27500;
     FileSystem.accel := (0, 0, 9810);
     FileSystem.mag := (120, 30, 410);
     FileSystem.gyro := (0, 0, 0) |}.

Definition a_battery : FileSystem.battery Z :=
  {| FileSystem.controllerVoltage := 4012;
     FileSystem.controllerPercent := 87500;
     FileSystem.mainVoltage := 3950;
     FileSystem.mainPercent := 80000 |}.

(** A log just created on an empty card. *)
Definition new_log : FileSystem.state :=
  (FileSystem.newDataLog good (mounted ∅)).1.2.

(** *** The settings file *)

Definition some_settings : FileSystem.settings :=
  {| FileSystem.interval := 250;
     FileSystem.isLaserContinuous := false;
     FileSystem.burstSize := 1 |}.

Definition other_settings : FileSystem.settings :=
  {| FileSystem.interval := 1000;
     FileSystem.isLaserContinuous := true;
     FileSystem.burstSize := 7 |}.

(** A settings file written by hand, with a comment line. *)
Definition hand_written : string :=
  "# Pelagic Laser Tomographer settings" +:+ FileSystem.CRLF
  +:+ "lasercontinuous 1" +:+ FileSystem.CRLF
  +:+ "burstsize 3" +:+ FileSystem.CRLF
  +:+ "interval 5000" +:+ FileSystem.CRLF.

(** *** The main sketch *)

Definition with_settings (i b : Z) (l : bool) (w : Commands.world)
  : Commands.world :=
  {| Commands.softwareStatus := Commands.softwareStatus w;
     Commands.hardwareStatus := Commands.hardwareStatus w;
     Commands.cameraStatus := Commands.cameraStatus w;
     Commands.frameInterval := i;
     Commands.burstSize := b;
     Commands.laserContinuous := l;
     Commands.camera := Commands.camera w;
     Commands.laser := Commands.laser w;
     Commands.pins := Commands.pins w;
     Commands.serial := Commands.serial w |}.

Definition with_status (software camera : Z) (w : Commands.world)
  : Commands.world :=
  {| Commands.softwareStatus := software;
     Commands.hardwareStatus := Commands.hardwareStatus w;
     Commands.cameraStatus := camera;
     Commands.frameInterval := Commands.frameInterval w;
     Commands.burstSize := Commands.burstSize w;
     Commands.laserContinuous := Commands.laserContinuous w;
     Commands.camera := Commands.camera w;
     Commands.laser := Commands.laser w;
     Commands.pins := Commands.pins w;
     Commands.serial := Commands.serial w |}.

Definition with_pins (tr : list Arduino.Event) (w : Commands.world)
  : Commands.world :=
  {| Commands.softwareStatus := Commands.softwareStatus w;
     Commands.hardwareStatus := Commands.hardwareStatus w;
     Commands.cameraStatus := Commands.cameraStatus w;
     Commands.frameInterval := Commands.frameInterval w;
     Commands.burstSize := Commands.burstSize w;
     Commands.laserContinuous := Commands.laserContinuous w;
     Commands.camera := Commands.camera w;
     Commands.laser := Commands.laser w;
     Commands.pins := Commands.pins w ++ tr;
     Commands.serial := Commands.serial w |}.

(** Modelled from the spec: [setFrameInterval] of the main sketch, which is
    declared in pltlogger.h and missing from the sources. "frameIntervalMs
    is never accepted below MINIMUM_FRAME_INTERVAL except the sentinel 0,
    which resets to the compiled default" (section 8). *)
Definition setFrameInterval (n : Z) (w : Commands.world)
  : bool * Commands.world :=
  if n =? 0 then
    (true, with_settings Commands.DEFAULT_FRAME_INTERVAL
             (Commands.burstSize w) (Commands.laserContinuous w) w)
  else if n <? Commands.MINIMUM_FRAME_INTERVAL then (false, w)
  else
    (true, with_settings n (Commands.burstSize w)
             (Commands.laserContinuous w) w).

(** Modelled from the spec: the other entry points of the main sketch, which
    are missing too. The setters store the run setting or status they are
    given (section 3); start and stop move between Ready and Running
    (section 4.1); [snapAndLog] is steps 1 to 3 of the Snap-And-Log cycle,
    the laser around the burst of shutter trips; the steps on the sensors
    and the log, the indicator lights and the commands that are not
    modelled leave this part of the device as it is. *)
Definition sketch : Commands.sketch :=
  {| Commands.setFrameInterval := setFrameInterval;
     Commands.setLaserContinuous := fun l w =>
       (true, with_settings (Commands.frameInterval w)
                (Commands.burstSize w) l w);
     Commands.setBurstSize := fun b w =>
       (true, with_settings (Commands.frameInterval w) b
                (Commands.laserContinuous w) w);
     Commands.setCameraStatus := fun c w =>
       with_status (Commands.softwareStatus w) c w;
     Commands.setLightsForStatus := fun w => w;
     Commands.snapAndLog := fun n w =>
       let w1 :=
         if Commands.laserContinuous w then w
         else Commands.Laser_setPower true w in
       let w2 := with_pins (Camera.snap n (Commands.camera w1)) w1 in
       (true,
        if Commands.laserContinuous w then w2
        else Commands.Laser_setPower false w2);
     Commands.startRunning := fun w =>
       (true, with_status Commands.SOFTWARE_RUNNING
                (Commands.cameraStatus w) w);
     Commands.stopRunning := fun w =>
       (true, with_status Commands.SOFTWARE_READY
                (Commands.cameraStatus w) w);
     Commands.reset := fun w =>
       with_status Commands.SOFTWARE_READY Commands.CAMERA_OFF w;
     Commands.elsewhere := fun _ _ w => w |}.

(** The device in the middle of a run: camera and laser on, an image
    every second. *)
Definition running : Commands.world :=
  {| Commands.softwareStatus := Commands.SOFTWARE_RUNNING;
     Commands.hardwareStatus := 4;
     Commands.cameraStatus := Commands.CAMERA_READY;
     Commands.frameInterval := 1000;
     Commands.burstSize := 1;
     Commands.laserContinuous := true;
     Commands.camera := {| Camera.powerStatus := true |};
     Commands.laser := {| Laser.powerStatus := true |};
     Commands.pins := [];
     Commands.serial := [] |}.

(** The device ready, with the camera on. *)
Definition ready : Commands.world :=
  with_status Commands.SOFTWARE_READY Commands.CAMERA_READY running.

(** *** A text file of twelve short lines *)

Definition numbered (n : Z) : string := Libc.printf_d n +:+ FileSystem.CRLF.

Definition twelve_lines : string :=
  FileSystem.joined (List.map numbered [1; 2; 3; 4; 5; 6; 7; 8; 9; 10; 11; 12]).

Definition with_notes : FileSystem.state :=
  mounted {[ "NOTES.TXT" := twelve_lines ]}.

(** *** The switch held down, and a switch that bounces *)

Definition at_ms (level now : Z) : Switches.call :=
  Switches.Update {| Switches.pin := level; Switches.now1 := now;
                     Switches.now2 := now |}.

Definition held_down : list Switches.call :=
  [at_ms 1 10; at_ms 0 100; Switches.Query; at_ms 0 200; Switches.Query;
   at_ms 0 5000; Switches.Query].

Definition bounce : list Switches.call :=
  [at_ms 1 10; at_ms 0 100; Switches.Query; at_ms 0 130; at_ms 1 140;
   Switches.Query; at_ms 1 300; Switches.Query; at_ms 0 310;
   at_ms 1 320; at_ms 1 400; Switches.Query].

End Scenario.

(** * Theorems *)


(** ** Camera shutter *)

Lemma Camera_snap_loop_pulses (n : nat) :
  Arduino.pulses Arduino.CAMERA_SHUTTER_PIN (Camera.snap_loop n) = n.
Proof. induction n as [|n IH]; cbn; [reflexivity | now rewrite IH]. Qed.

(** The trace of a burst is the trip repeated: nothing else touches the
    pins between two trips. *)
Lemma Camera_snap_loop_trips (n : nat) :
  Camera.snap_loop n = List.concat (List.repeat Camera.shutter_trip n).
Proof. induction n as [|n IH]; cbn; [reflexivity | now rewrite IH]. Qed.

Lemma Camera_snap_loop_blocked (n : nat) :
  Arduino.blocked_ms (Camera.snap_loop n)
  = Z.of_nat n * (Camera.CAMERA_RELAY_DELAY + Camera.CAMERA_SHUTTER_DELAY).
Proof.
  induction n as [|n IH]; [reflexivity |].
  change (Camera.snap_loop (S n))
    with (Camera.shutter_trip ++ Camera.snap_loop n).
  cbn [Camera.shutter_trip app Arduino.blocked_ms]. rewrite IH.
  unfold Camera.CAMERA_RELAY_DELAY, Camera.CAMERA_SHUTTER_DELAY. lia.
Qed.


(** The powers of two of the machine integers, as numbers for [lia]. *)
Ltac powers :=
  change (2 ^ 8) with 256 in *;
  change (2 ^ 16) with 65536 in *;
  change (2 ^ 31) with 2147483648 in *;
  change (2 ^ 32) with 4294967296 in *.

(** ** Decimal numbers *)

Lemma string_app_cons (c : ascii) (s t : string) :
  String c s +:+ t = String c (s +:+ t).
Proof. reflexivity. Qed.

Lemma string_app_empty_l (s : string) : "" +:+ s = s.
Proof. reflexivity. Qed.

Lemma string_app_empty_r (s : string) : s +:+ "" = s.
Proof.
  induction s as [|c s IH]; [reflexivity |].
  now rewrite string_app_cons, IH.
Qed.

Lemma string_app_assoc (a b c : string) : (a +:+ b) +:+ c = a +:+ b +:+ c.
Proof.
  induction a as [|x a IH]; [reflexivity |].
  now rewrite !string_app_cons, IH.
Qed.

Lemma string_app_length (a b : string) :
  String.length (a +:+ b) = (String.length a + String.length b)%nat.
Proof.
  induction a as [|x a IH]; [reflexivity |].
  rewrite string_app_cons. cbn. now rewrite IH.
Qed.

Lemma code_digit_char d :
  0 <= d < 10 -> Libc.code (Libc.digit_char d) = 48 + d.
Proof.
  intros H. unfold Libc.code, Libc.digit_char.
  rewrite N_ascii_embedding by lia. lia.
Qed.

Lemma isdigit_digit_char d :
  0 <= d < 10 -> Libc.isdigit (Libc.digit_char d) = true.
Proof.
  intros H. unfold Libc.isdigit. rewrite code_digit_char by assumption.
  apply andb_true_intro; split; apply Z.leb_le; lia.
Qed.

(** A digit is not white space and not a sign. *)
Lemma digit_char_plain d :
  0 <= d < 10 ->
  Libc.isSpace (Libc.digit_char d) = false /\
  Ascii.eqb (Libc.digit_char d) "-" = false /\
  Ascii.eqb (Libc.digit_char d) "+" = false /\
  Ascii.eqb (Libc.digit_char d) "013" = false /\
  Ascii.eqb (Libc.digit_char d) "010" = false.
Proof.
  intros H.
  assert (Hd : d = 0 \/ d = 1 \/ d = 2 \/ d = 3 \/ d = 4 \/ d = 5 \/ d = 6
               \/ d = 7 \/ d = 8 \/ d = 9) by lia.
  repeat (destruct Hd as [-> | Hd]); try subst d; repeat split.
Qed.

(** Reading back what [digits_onto] wrote: the digits of [n] in front of
    [acc] shift what is read from [acc] by a power of ten. *)
Lemma digits_onto_value (fuel : nat) :
  forall n acc k m,
    0 <= n < 10 ^ Z.of_nat fuel -> 0 <= k ->
    (forall a, Libc.digits_value acc a = a * 10 ^ k + m) ->
    exists k', 0 <= k' /\
      forall a, Libc.digits_value (Libc.digits_onto fuel n acc) a
                = a * 10 ^ k' + (n * 10 ^ k + m).
Proof.
  induction fuel as [|fuel IH]; intros n acc k m Hn Hk Hacc.
  - cbn in Hn. assert (n = 0) by lia. subst n. exists k. split; [lia |].
    intros a. cbn. rewrite Hacc. lia.
  - cbn [Libc.digits_onto].
    assert (Hd : 0 <= n mod 10 < 10) by (apply Z.mod_pos_bound; lia).
    assert (Hacc' : forall a,
      Libc.digits_value (String (Libc.digit_char (n mod 10)) acc) a
      = a * 10 ^ (k + 1) + (n mod 10 * 10 ^ k + m)).
    { intros a. cbn [Libc.digits_value].
      rewrite isdigit_digit_char, code_digit_char by assumption.
      rewrite Hacc. rewrite Z.pow_add_r by lia. lia. }
    destruct (n / 10 =? 0) eqn:E.
    + apply Z.eqb_eq in E. exists (k + 1). split; [lia |].
      intros a. rewrite Hacc'.
      rewrite (Z.div_mod n 10) at 2 by lia. rewrite E. lia.
    + apply Z.eqb_neq in E.
      destruct (IH (n / 10) (String (Libc.digit_char (n mod 10)) acc)
                  (k + 1) (n mod 10 * 10 ^ k + m)) as [k' [Hk' H]].
      * split; [apply Z.div_pos; lia |].
        apply Z.div_lt_upper_bound; [lia |].
        rewrite Nat2Z.inj_succ, Z.pow_succ_r in Hn by lia. lia.
      * lia.
      * exact Hacc'.
      * exists k'. split; [exact Hk' |]. intros a. rewrite H.
        rewrite Z.pow_add_r by lia.
        rewrite (Z.div_mod n 10) at 3 by lia. lia.
Qed.

Lemma digits_onto_app (fuel : nat) :
  forall n acc rest,
    Libc.digits_onto fuel n acc +:+ rest
    = Libc.digits_onto fuel n (acc +:+ rest).
Proof.
  induction fuel as [|fuel IH]; intros n acc rest; [reflexivity |].
  cbn [Libc.digits_onto]. destruct (n / 10 =? 0); [reflexivity |].
  now rewrite IH.
Qed.

(** A number that is written starts with a digit. *)
Lemma digits_onto_head (fuel : nat) :
  forall n acc,
    0 <= n ->
    exists d s, 0 <= d < 10 /\
                Libc.digits_onto (S fuel) n acc = String (Libc.digit_char d) s.
Proof.
  induction fuel as [|fuel IH]; intros n acc Hn.
  - exists (n mod 10), acc. split; [apply Z.mod_pos_bound; lia |].
    cbn. now destruct (n / 10 =? 0).
  - change (Libc.digits_onto (S (S fuel)) n acc)
      with (let acc' := String (Libc.digit_char (n mod 10)) acc in
            if n / 10 =? 0 then acc'
            else Libc.digits_onto (S fuel) (n / 10) acc').
    cbv zeta. destruct (n / 10 =? 0).
    + exists (n mod 10), acc. split; [apply Z.mod_pos_bound; lia | reflexivity].
    + apply IH. apply Z.div_pos; lia.
Qed.

(** The fuel of [decimal] is enough. *)
Lemma decimal_fuel (n : Z) :
  0 <= n -> n < 10 ^ Z.of_nat (S (Z.to_nat (Z.log2 n))).
Proof.
  intros Hn. destruct (Z.eq_dec n 0) as [-> | Hne]; [reflexivity |].
  pose proof (Z.log2_nonneg n) as Hl.
  rewrite Nat2Z.inj_succ, Z2Nat.id by lia.
  apply Z.lt_le_trans with (2 ^ Z.succ (Z.log2 n)).
  - apply Z.log2_spec. lia.
  - apply Z.pow_le_mono_l. lia.
Qed.

Lemma digits_value_end (rest : string) (a : Z) :
  Libc.ends_number rest -> Libc.digits_value rest a = a.
Proof. destruct rest as [|c r]; cbn; [reflexivity | now intros ->]. Qed.

Lemma digits_value_decimal (n : Z) (rest : string) :
  0 <= n -> Libc.ends_number rest ->
  Libc.digits_value (Libc.decimal n +:+ rest) 0 = n.
Proof.
  intros Hn Hrest. unfold Libc.decimal. rewrite digits_onto_app.
  destruct (digits_onto_value (S (Z.to_nat (Z.log2 n))) n ("" +:+ rest) 0 0)
    as [k' [_ H]].
  - split; [exact Hn | now apply decimal_fuel].
  - lia.
  - intros a. rewrite string_app_empty_l, digits_value_end by assumption. lia.
  - rewrite H. lia.
Qed.

(** [atoi] reads back what [%d] wrote, whatever follows the number. *)
Lemma atoi_printf_d (z : Z) (rest : string) :
  Libc.INT_MIN <= z <= Libc.INT_MAX -> Libc.ends_number rest ->
  Libc.atoi (Libc.printf_d z +:+ rest) = z.
Proof.
  unfold Libc.INT_MIN, Libc.INT_MAX. intros Hz Hrest.
  unfold Libc.atoi, Libc.printf_d. destruct (Z.ltb_spec z 0) as [Hneg | Hpos].
  - rewrite string_app_cons. cbn [Libc.skip_spaces].
    change (Libc.isSpace "-") with false. cbv iota.
    change (Ascii.eqb "-" "-") with true. cbv iota.
    rewrite digits_value_decimal by (assumption || lia).
    unfold Libc.INT_MIN, Libc.INT_MAX. lia.
  - destruct (digits_onto_head (Z.to_nat (Z.log2 z)) z "" Hpos)
      as (d & s & Hd & Hs).
    pose proof (digits_value_decimal z rest Hpos Hrest) as Hv.
    unfold Libc.decimal in *. rewrite Hs in *.
    destruct (digit_char_plain d Hd) as (Hsp & Hm & Hp & _).
    rewrite string_app_cons in *. cbn [Libc.skip_spaces].
    rewrite Hsp, Hm, Hp, Hv.
    unfold Libc.INT_MIN, Libc.INT_MAX. lia.
Qed.

(** An unsigned 32-bit value printed with [%ld] and read back with
    [atoi] into an unsigned 32-bit variable is the same value. *)
Lemma atoi_printf_ld_uint32 (n : Z) (rest : string) :
  0 <= n < 2 ^ 32 -> Libc.ends_number rest ->
  uint32 (Libc.atoi (Libc.printf_d (Libc.as_long n) +:+ rest)) = n.
Proof.
  intros Hn Hrest. change (2 ^ 32) with 4294967296 in Hn.
  assert (Hu : uint32 n = n) by (apply Z.mod_small; exact Hn).
  unfold Libc.as_long. rewrite Hu. change (2 ^ 31) with 2147483648.
  change (2 ^ 32) with 4294967296.
  destruct (Z.ltb_spec n 2147483648).
  - rewrite atoi_printf_d; [exact Hu | | exact Hrest].
    unfold Libc.INT_MIN, Libc.INT_MAX. lia.
  - rewrite atoi_printf_d; [| unfold Libc.INT_MIN, Libc.INT_MAX; lia
                            | exact Hrest].
    unfold uint32.
    replace (n - 4294967296) with (n + (-1) * 2 ^ 32) by reflexivity.
    rewrite Z.mod_add by discriminate. apply Z.mod_small. exact Hn.
Qed.

Lemma digit_char_solid d : 0 <= d < 10 -> Libc.solid (Libc.digit_char d) = true.
Proof.
  intros H. destruct (digit_char_plain d H) as (Hs & _ & _ & Hr & Hn).
  unfold Libc.solid. now rewrite Hs, Hr, Hn.
Qed.

Lemma digits_onto_solid (fuel : nat) :
  forall n acc,
    0 <= n -> Libc.all_chars Libc.solid acc = true ->
    Libc.all_chars Libc.solid (Libc.digits_onto fuel n acc) = true.
Proof.
  induction fuel as [|fuel IH]; intros n acc Hn Hacc; [exact Hacc |].
  cbn [Libc.digits_onto].
  assert (Hacc' : Libc.all_chars Libc.solid
                    (String (Libc.digit_char (n mod 10)) acc) = true).
  { cbn [Libc.all_chars]. rewrite digit_char_solid, Hacc; [reflexivity |].
    apply Z.mod_pos_bound. lia. }
  destruct (n / 10 =? 0); [exact Hacc' |].
  apply IH; [apply Z.div_pos; lia | exact Hacc'].
Qed.

Lemma digits_onto_length (fuel : nat) :
  forall n acc,
    (String.length (Libc.digits_onto fuel n acc)
     <= fuel + String.length acc)%nat.
Proof.
  induction fuel as [|fuel IH]; intros n acc; [cbn; lia |].
  cbn [Libc.digits_onto]. destruct (n / 10 =? 0).
  - cbn. lia.
  - etransitivity; [apply IH |]. cbn. lia.
Qed.

(** A number written with [%d] has no white space in it, starts with a
    character, and is short. *)
Lemma printf_d_solid (z : Z) :
  Libc.all_chars Libc.solid (Libc.printf_d z) = true.
Proof.
  unfold Libc.printf_d, Libc.decimal. destruct (z <? 0) eqn:E.
  - cbn [Libc.all_chars]. change (Libc.solid "-") with true.
    apply Z.ltb_lt in E. rewrite digits_onto_solid; [reflexivity | lia |].
    reflexivity.
  - apply Z.ltb_ge in E. now apply digits_onto_solid.
Qed.

Lemma printf_d_head (z : Z) :
  exists c s, Libc.printf_d z = String c s.
Proof.
  unfold Libc.printf_d, Libc.decimal. destruct (z <? 0) eqn:E.
  - eauto.
  - apply Z.ltb_ge in E.
    destruct (digits_onto_head (Z.to_nat (Z.log2 z)) z "" E) as (d & s & _ & H).
    eauto.
Qed.

Lemma printf_d_length (z : Z) :
  - 2 ^ 32 < z < 2 ^ 32 -> (String.length (Libc.printf_d z) <= 34)%nat.
Proof.
  intros Hz. unfold Libc.printf_d, Libc.decimal.
  assert (Hl : forall n, 0 <= n < 2 ^ 32 -> (Z.to_nat (Z.log2 n) <= 31)%nat).
  { intros n Hn. destruct (Z.eq_dec n 0) as [-> | Hne]; [cbn; lia |].
    assert (Z.log2 n < 32) by (apply Z.log2_lt_pow2; lia). lia. }
  destruct (z <? 0) eqn:E.
  - apply Z.ltb_lt in E. cbn [String.length].
    pose proof (digits_onto_length (S (Z.to_nat (Z.log2 (- z)))) (- z) "").
    specialize (Hl (- z) ltac:(lia)). cbn [String.length] in *. lia.
  - apply Z.ltb_ge in E.
    pose proof (digits_onto_length (S (Z.to_nat (Z.log2 z))) z "").
    specialize (Hl z ltac:(lia)). cbn [String.length] in *. lia.
Qed.
(** ** Sensor readers *)

(** The pressure reader returns zeroes for both outputs when the sensor is
    not there. *)
Lemma Sensors_getWaterPressure_absent {flt} (zero : flt) s reading out :
  Sensors.isPressureSensorPresent s = false ->
  Sensors.getWaterPressure zero s reading out = (zero, zero).
Proof. intros H. unfold Sensors.getWaterPressure. now rewrite H. Qed.

(** So does the water temperature reader. *)
Lemma Sensors_getWaterTemperature_absent {flt} (zero : flt) bad s reading out :
  Sensors.isTemperatureSensorPresent s = false ->
  Sensors.getWaterTemperature zero bad s reading out = zero.
Proof. intros H. unfold Sensors.getWaterTemperature. now rewrite H. Qed.

(** The inertia reader zeroes the nine vector components but leaves the
    caller's temperature as it was. *)
Lemma Sensors_getInertia_absent {flt} (zero : flt) conv s ev out :
  Sensors.isInertiaSensorPresent s = false ->
  length (Sensors.accel out) = 3%nat ->
  length (Sensors.mag out) = 3%nat ->
  length (Sensors.gyro out) = 3%nat ->
  let r := Sensors.getInertia zero conv s ev out in
  Sensors.accel r = [zero; zero; zero] /\
  Sensors.mag r = [zero; zero; zero] /\
  Sensors.gyro r = [zero; zero; zero] /\
  Sensors.temp r = Sensors.temp out.
Proof.
  intros H Ha Hm Hg. unfold Sensors.getInertia. rewrite H. cbn.
  destruct out as [a m g t]; cbn in *.
  destruct a as [|? [|? [|? [|]]]]; try discriminate.
  destruct m as [|? [|? [|? [|]]]]; try discriminate.
  destruct g as [|? [|? [|? [|]]]]; try discriminate.
  repeat split.
Qed.

(** C7. With no inertia sensor and 21.5 in the caller's device temperature
    variable, [Sensors::getInertia] returns with 21.5 still there: the
    temperature output is not zeroed, unlike every output of the pressure
    and water temperature readers. *)
Theorem Sensors_getInertia_absent_keeps_temp :
  let s := {| Sensors.initialized := 6 |} in
  let ev := {| Sensors.acceleration := (1, 2, 3)%float;
               Sensors.magnetic := (4, 5, 6)%float;
               Sensors.gyro_rate := (7, 8, 9)%float;
               Sensors.temperature := 100%float |} in
  let out := {| Sensors.accel := [1; 1; 1]%float;
                Sensors.mag := [1; 1; 1]%float;
                Sensors.gyro := [1; 1; 1]%float;
                Sensors.temp := 21.5%float |} in
  let r := Sensors.getInertia 0%float (fun t => (t / 16 + 27.5)%float) s ev out in
  Sensors.isInertiaSensorPresent s = false /\
  Sensors.inertia_outputs r
  = [0; 0; 0; 0; 0; 0; 0; 0; 0; 21.5]%float /\
  ~ Sensors.all_zero 0%float (Sensors.inertia_outputs r).
Proof.
  cbv zeta. split; [reflexivity |]. split; [reflexivity |].
  intros H. unfold Sensors.all_zero in H.
  assert (Heq : 21.5%float = 0%float).
  { apply (proj1 (List.Forall_forall _ _) H). vm_compute. tauto. }
  apply (f_equal Prim2SF) in Heq. vm_compute in Heq. discriminate.
Qed.

(** ** Start/stop switch *)

(** Two queries in a row: whatever the first one returns, the second one
    returns false; and the first returns true when a press is counted. *)
Lemma Switches_query_twice (s : Switches.state) :
  0 < Switches.count s ->
  let '(b1, s1) := Switches.isStartStopPressed s in
  let '(b2, _) := Switches.isStartStopPressed s1 in
  b1 = true /\ b2 = false.
Proof.
  intros H. unfold Switches.isStartStopPressed.
  destruct (0 <? Switches.count s) eqn:E; [| lia]. cbn. split; reflexivity.
Qed.

(** C9. One press and release followed by the start of a second press make
    the query return true four times: the counter is incremented on every
    tick between the tick that locked the release in and the next tick
    that locks anything in, not once for the change. *)
Theorem Switches_press_counted_again :
  let calls := Scenario.second_press in
  (Switches.run calls (Switches.init 1)).1
  = [false; false; false; true; true; true; true] /\
  Switches.releases 1 (Switches.samples calls) = 1%nat /\
  Switches.presses 1 (Switches.samples calls) = 2%nat.
Proof. vm_compute. repeat split. Qed.

(** ** Strings *)

Lemma take_all (s : string) : FileSystem.take (String.length s) s = s.
Proof. induction s as [|c s IH]; [reflexivity | simpl; now f_equal]. Qed.

Lemma drop_all (s : string) (n : nat) :
  (String.length s <= n)%nat -> FileSystem.drop n s = "".
Proof.
  revert n. induction s as [|c s IH]; intros [|n] H; cbn in *;
    try reflexivity; try lia.
  apply IH. lia.
Qed.

(** Writing at the end of a file appends. *)
Lemma overwrite_at_end (old buf : string) :
  FileSystem.overwrite old (String.length old) buf = old +:+ buf.
Proof.
  unfold FileSystem.overwrite.
  rewrite take_all, drop_all by lia. now rewrite string_app_empty_r.
Qed.

(** Writing at the start of a file that is no longer than the buffer
    leaves the buffer. *)
Lemma overwrite_short (old buf : string) :
  (String.length old <= String.length buf)%nat ->
  FileSystem.overwrite old 0 buf = buf.
Proof.
  intros H. unfold FileSystem.overwrite.
  rewrite drop_all by (cbn; lia).
  destruct old; cbn; now rewrite string_app_empty_r.
Qed.

(** ** The data log *)

Section DataLogProofs.

Import FileSystem.

Variable flt : Type.
Variables printf_f printf_5_3f printf_3_1f : flt -> string.

Abbreviation writeDataLog := (FileSystem.writeDataLog printf_f printf_5_3f printf_3_1f).
Abbreviation entry_line := (FileSystem.entry_line printf_f printf_5_3f printf_3_1f).
Abbreviation serve := (FileSystem.serve printf_f printf_5_3f printf_3_1f).

(** The two ways out of the write and sync. *)
Lemma write_and_sync_true a f buf s s' calls :
  write_and_sync a f buf s = (true, s', calls) ->
  exists old,
    card s !! path f = Some old /\
    write_result a = AllBytes /\ sync_ok a = true /\
    s' = set_logFile
           (Some {| path := path f;
                    position := (position f + String.length buf)%nat |})
           (set_card (<[path f := overwrite old (position f) buf]> (card s)) s) /\
    calls = [Write (path f) buf; Sync (path f)].
Proof.
  unfold write_and_sync, sd_write.
  destruct (card s !! path f) as [old|] eqn:E; cbn.
  - destruct (write_result a) eqn:W; cbn; [| discriminate].
    destruct (sync_ok a) eqn:Y; cbn; [| discriminate].
    intros H. injection H as <- <-. exists old. repeat split.
  - discriminate.
Qed.

Lemma write_and_sync_false a f buf s s' calls :
  write_and_sync a f buf s = (false, s', calls) ->
  logFile s' = None /\
  numberOfDataLogEntries s' = 0 /\
  localErrorCode s'
  = (if uint32 (sectorCount a) =? 0 then FS_ERROR_NOCARD
     else FS_ERROR_CARD_FULL) /\
  count_writes calls = 1%nat /\
  opens calls = [] /\
  (card s' = card s \/
   exists old stored,
     card s !! path f = Some old /\
     card s' = <[path f := overwrite old (position f) stored]> (card s)).
Proof.
  assert (Hs : (uint32 (sectorCount a) <=? 0) = (uint32 (sectorCount a) =? 0)).
  { unfold uint32.
    pose proof (Z.mod_pos_bound (sectorCount a) (2 ^ 32) ltac:(lia)).
    destruct (Z.leb_spec (sectorCount a mod 2 ^ 32) 0),
             (Z.eqb_spec (sectorCount a mod 2 ^ 32) 0); try reflexivity; lia. }
  unfold write_and_sync, sd_write.
  destruct (card s !! path f) as [old|] eqn:E; cbn.
  - destruct (write_result a) eqn:W; cbn.
    + destruct (sync_ok a) eqn:Y; cbn; [discriminate |].
      intros H. injection H as <- <-. rewrite Hs.
      destruct (uint32 (sectorCount a) =? 0); repeat split; right; eauto.
    + intros H. injection H as <- <-. rewrite Hs.
      destruct (uint32 (sectorCount a) =? 0); repeat split; right; eauto.
  - intros H. injection H as <- <-. rewrite Hs.
    destruct (uint32 (sectorCount a) =? 0); repeat split; left; reflexivity.
Qed.

Lemma writeDataLog_closed a b e s :
  logFile s = None -> writeDataLog a b e s = (false, s, []).
Proof. intros H. unfold FileSystem.writeDataLog. now rewrite H. Qed.

Lemma writeDataLog_false a b e s s' calls :
  writeDataLog a b e s = (false, s', calls) ->
  (logFile s = None /\ s' = s /\ calls = []) \/
  (exists f, logFile s = Some f /\
             write_and_sync a f (entry_line b e) s = (false, s', calls)).
Proof.
  unfold FileSystem.writeDataLog.
  destruct (logFile s) as [f|] eqn:L.
  - destruct (write_and_sync a f _ s) as [[[|] s1] c1] eqn:W.
    + discriminate.
    + intros H. injection H as <- <-. right. exists f. now split.
  - intros H. injection H as <- <-. left. repeat split.
Qed.

Lemma writeDataLog_true a b e s s' calls :
  writeDataLog a b e s = (true, s', calls) ->
  exists f s1,
    logFile s = Some f /\
    write_and_sync a f (entry_line b e) s = (true, s1, calls) /\
    s' = set_numberOfDataLogEntries
           (uint32 (numberOfDataLogEntries s1 + 1)) s1.
Proof.
  unfold FileSystem.writeDataLog.
  destruct (logFile s) as [f|] eqn:L; [| discriminate].
  destruct (write_and_sync a f _ s) as [[[|] s1] c1] eqn:W; [| discriminate].
  intros H. injection H as <- <-. exists f, s1. auto.
Qed.

(** The line of an entry has a value for each column of the header, in
    the order of the header. *)
Lemma entry_fields_columns b e :
  FileSystem.entry_fields printf_f printf_5_3f printf_3_1f b e
  = List.map (FileSystem.column_value printf_f printf_5_3f printf_3_1f b e)
      header_names.
Proof.
  destruct e as [d m p dp wt dvt [[ax ay] az] [[mx my] mz] [[gx gy] gz]].
  reflexivity.
Qed.

Lemma writeDataLogHeader_false a s s' calls :
  writeDataLogHeader a s = (false, s', calls) ->
  (logFile s = None /\ s' = s /\ calls = []) \/
  (exists f, logFile s = Some f /\
             write_and_sync a f header_line s = (false, s', calls)).
Proof.
  unfold writeDataLogHeader. destruct (logFile s) as [f|] eqn:L.
  - intros H. right. exists f. now split.
  - intros H. injection H as <- <-. left. repeat split.
Qed.

(** *** Creating a log *)

Lemma sd_exists_false (crd : gmap string string) (p : string) :
  sd_exists crd p = false <-> crd !! p = None.
Proof.
  unfold sd_exists. rewrite bool_decide_eq_false.
  rewrite <- eq_None_not_Some. reflexivity.
Qed.

Lemma sd_exists_true (crd : gmap string string) (p : string) :
  sd_exists crd p = true <-> is_Some (crd !! p).
Proof. unfold sd_exists. apply bool_decide_eq_true. Qed.

Lemma newDataLog_create_opens name a s :
  opens (newDataLog_create name a s).2 = [Open name O_WRONLY_CREAT] /\
  ((newDataLog_create name a s).1.1 = false ->
   logFile (newDataLog_create name a s).1.2 = None).
Proof.
  unfold newDataLog_create.
  destruct (sd_open _ _ _ _) as [f crd].
  set (p3 := (match f with Some _ => _ | None => _ end)).
  destruct p3 as [status s3] eqn:E3.
  destruct (writeDataLogHeader a s3) as [[w s4] calls] eqn:H.
  destruct w; cbn [negb].
  - unfold writeDataLogHeader in H.
    destruct (logFile s3) as [f3|] eqn:L3; [| discriminate].
    apply write_and_sync_true in H. destruct H as (old & _ & _ & _ & -> & ->).
    cbn. split; [reflexivity |].
    destruct f; injection E3 as <- <-; [discriminate |].
    cbn in L3. destruct (uint32 (sectorCount a) <=? 0); discriminate.
  - cbn. apply writeDataLogHeader_false in H.
    destruct H as [(L & -> & ->) | (f3 & L & H)].
    + split; [reflexivity | intros _; exact L].
    + apply write_and_sync_false in H.
      destruct H as (Hl & _ & _ & _ & Ho & _).
      unfold opens in *. rewrite List.filter_app, Ho. cbn.
      split; [reflexivity | intros _; exact Hl].
Qed.

(** A log that is created holds the header and nothing else, and is
    open at its end. *)
Lemma newDataLog_create_true name a s s' calls :
  card s !! name = None ->
  newDataLog_create name a s = (true, s', calls) ->
  card s' = <[name := header_line]> (card s) /\
  logFile s' = Some {| path := name; position := String.length header_line |} /\
  numberOfDataLogEntries s' = numberOfDataLogEntries s /\
  count_writes calls = 1%nat.
Proof.
  intros E. unfold newDataLog_create, sd_open. rewrite E.
  destruct (open_ok a); cbn [negb].
  - destruct (writeDataLogHeader a _) as [[w s4] c4] eqn:H.
    unfold writeDataLogHeader in H. cbn [logFile set_logFile] in H.
    destruct w; cbn [negb]; [| discriminate].
    apply write_and_sync_true in H.
    destruct H as (old & Hold & _ & _ & -> & ->). cbn in Hold.
    rewrite lookup_insert_eq in Hold. injection Hold as <-.
    intros H. injection H as <- <-. cbn.
    rewrite insert_insert_eq.
    unfold overwrite. cbn. rewrite string_app_empty_r. repeat split.
  - destruct (writeDataLogHeader a _) as [[w s4] c4] eqn:H.
    unfold writeDataLogHeader in H.
    destruct (uint32 (sectorCount a) <=? 0); cbn in H;
      injection H as <- <- <-; discriminate.
Qed.

(** With every answer of the library good, the log is created. *)
Lemma newDataLog_create_succeeds name a s :
  card s !! name = None ->
  open_ok a = true -> write_result a = AllBytes -> sync_ok a = true ->
  (newDataLog_create name a s).1.1 = true.
Proof.
  intros E Ho Hw Hs. unfold newDataLog_create, sd_open. rewrite E, Ho.
  cbn [negb]. unfold writeDataLogHeader, write_and_sync, sd_write.
  cbn [logFile set_logFile card set_card path].
  rewrite lookup_insert_eq, Hw, Hs. reflexivity.
Qed.

Lemma newDataLog_create_card name a s :
  card s !! name = None ->
  (newDataLog_create name a s).1.1 = false ->
  card (newDataLog_create name a s).1.2 = card s.
Proof.
  intros E. unfold newDataLog_create, sd_open. rewrite E.
  destruct (open_ok a); cbn [negb].
  - unfold writeDataLogHeader, write_and_sync, sd_write.
    cbn [logFile set_logFile card set_card path].
    rewrite lookup_insert_eq.
    destruct (write_result a), (sync_ok a); cbn; try discriminate; intros _;
      destruct (uint32 (sectorCount a) <=? 0); cbn;
      rewrite insert_insert_eq, delete_insert_eq; apply delete_id; exact E.
  - unfold writeDataLogHeader.
    destruct (uint32 (sectorCount a) <=? 0); cbn; intros _;
      apply delete_id; exact E.
Qed.

(** Either the first [n] log names are all in use or there is a first
    one that is not. *)
Lemma classic_first_free (crd : gmap string string) (n : nat) :
  (forall j, 0 <= j < Z.of_nat n -> sd_exists crd (dataLogFilename j) = true)
  \/ exists m, (m < n)%nat /\
       (forall j, 0 <= j < 0 + Z.of_nat m ->
                  sd_exists crd (dataLogFilename j) = true) /\
       sd_exists crd (dataLogFilename (0 + Z.of_nat m)) = false.
Proof.
  induction n as [|n IH]; [left; intros j Hj; lia |].
  destruct IH as [Hall | (m & Hm & Hb & Hf)].
  - destruct (sd_exists crd (dataLogFilename (Z.of_nat n))) eqn:E.
    + left. intros j Hj.
      destruct (Z.eq_dec j (Z.of_nat n)) as [-> | Hne]; [exact E |].
      apply Hall. lia.
    + right. exists n. split; [lia |]. split.
      * intros j Hj. apply Hall. lia.
      * exact E.
  - right. exists m. split; [lia |]. now split.
Qed.

Lemma exists_calls_shift (i : Z) (n : nat) :
  List.map (fun j => Exists (dataLogFilename (i + 1 + Z.of_nat j)))
    (List.seq 0 n)
  = List.map (fun j => Exists (dataLogFilename (i + Z.of_nat j)))
      (List.seq 1 n).
Proof.
  rewrite <- seq_shift, List.map_map. apply List.map_ext.
  intros j. do 2 f_equal. lia.
Qed.

(** The loop: names in use are passed over, in order, and the first one
    that is free is created; when none is, nothing is opened. *)
Lemma newDataLog_from_spec (n : nat) :
  forall i a s,
    0 <= i -> i + Z.of_nat n < 2 ^ 16 ->
    ((forall j, i <= j < i + Z.of_nat n ->
                sd_exists (card s) (dataLogFilename j) = true) ->
     newDataLog_from n i a s
     = (false, set_localErrorCode FS_ERROR_TOO_MANY_LOG_FILES s,
        List.map (fun j => Exists (dataLogFilename (i + Z.of_nat j)))
          (List.seq 0 n))) /\
    (forall m,
        (m < n)%nat ->
        (forall j, i <= j < i + Z.of_nat m ->
                   sd_exists (card s) (dataLogFilename j) = true) ->
        sd_exists (card s) (dataLogFilename (i + Z.of_nat m)) = false ->
        newDataLog_from n i a s
        = (let '(r, s', calls) :=
             newDataLog_create (dataLogFilename (i + Z.of_nat m)) a s in
           (r, s',
            List.map (fun j => Exists (dataLogFilename (i + Z.of_nat j)))
              (List.seq 0 (S m)) ++ calls))).
Proof.
  induction n as [|n IH]; intros i a s Hi Hn;
    change (2 ^ 16) with 65536 in Hn.
  - split; [reflexivity | intros m Hm; lia].
  - assert (Hw : uint16 (i + 1) = i + 1).
    { unfold uint16. apply Z.mod_small. change (2 ^ 16) with 65536. lia. }
    destruct (IH (i + 1) a s ltac:(lia)
                ltac:(change (2 ^ 16) with 65536; lia)) as [IH1 IH2].
    split.
    + intros Hall. cbn [newDataLog_from].
      rewrite (Hall i) by lia. rewrite Hw, IH1.
      * rewrite exists_calls_shift. cbn [List.seq List.map].
        rewrite Z.add_0_r. reflexivity.
      * intros j Hj. apply Hall. lia.
    + intros m Hm Hbefore Hfree. cbn [newDataLog_from].
      destruct m as [|m].
      * cbn [List.seq List.map app Z.of_nat] in *.
        rewrite Z.add_0_r in *. rewrite Hfree.
        destruct (newDataLog_create _ a s) as [[r s'] calls].
        reflexivity.
      * rewrite (Hbefore i) by lia. rewrite Hw.
        replace (i + Z.of_nat (S m)) with (i + 1 + Z.of_nat m) in * by lia.
        rewrite (IH2 m); [| lia | intros j Hj; apply Hbefore; lia | exact Hfree].
        destruct (newDataLog_create _ a s) as [[r s'] calls].
        rewrite exists_calls_shift. cbn [List.seq List.map app].
        rewrite Z.add_0_r. reflexivity.
Qed.

Lemma opens_app (c1 c2 : list call) : opens (c1 ++ c2) = opens c1 ++ opens c2.
Proof. apply List.filter_app. Qed.

Lemma opens_exists (l : list Z) :
  opens (List.map (fun j => Exists (dataLogFilename j)) l) = [].
Proof. induction l as [|x l IH]; [reflexivity | exact IH]. Qed.

Lemma newDataLog_create_counter name a s :
  numberOfDataLogEntries s = 0 ->
  numberOfDataLogEntries (newDataLog_create name a s).1.2 = 0.
Proof.
  intros Hz. unfold newDataLog_create.
  destruct (sd_open _ _ _ _) as [f crd].
  set (p3 := (match f with Some _ => _ | None => _ end)).
  assert (H3 : numberOfDataLogEntries p3.2 = 0).
  { subst p3. destruct f; [exact Hz |].
    cbn. destruct (uint32 (sectorCount a) <=? 0); exact Hz. }
  destruct p3 as [status s3]. cbn in H3.
  destruct (writeDataLogHeader a s3) as [[w s4] calls] eqn:H.
  destruct w; cbn [negb].
  - unfold writeDataLogHeader in H.
    destruct (logFile s3) as [f3|]; [| discriminate].
    apply write_and_sync_true in H. destruct H as (old & _ & _ & _ & -> & _).
    exact H3.
  - apply writeDataLogHeader_false in H.
    destruct H as [(_ & -> & _) | (f3 & _ & H)]; [exact H3 |].
    apply write_and_sync_false in H. tauto.
Qed.

Lemma newDataLog_from_closed (n : nat) :
  forall i a s,
    logFile s = None -> numberOfDataLogEntries s = 0 ->
    (newDataLog_from n i a s).1.1 = false ->
    logFile (newDataLog_from n i a s).1.2 = None /\
    numberOfDataLogEntries (newDataLog_from n i a s).1.2 = 0.
Proof.
  induction n as [|n IH]; intros i a s Hl Hz; [intros _; now split |].
  cbn [newDataLog_from].
  destruct (sd_exists (card s) (dataLogFilename i)).
  - specialize (IH (uint16 (i + 1)) a s Hl Hz).
    destruct (newDataLog_from n _ a s) as [[r s'] calls]. exact IH.
  - pose proof (newDataLog_create_opens (dataLogFilename i) a s) as [_ Hc].
    pose proof (newDataLog_create_counter (dataLogFilename i) a s Hz) as Hn.
    destruct (newDataLog_create _ a s) as [[r s'] calls]. cbn in *.
    intros Hr. split; [exact (Hc Hr) | exact Hn].
Qed.

(** A [newDataLog] that fails leaves a closed log closed. *)
Lemma newDataLog_false_closed a s :
  logFile s = None -> numberOfDataLogEntries s = 0 ->
  (newDataLog a s).1.1 = false ->
  logFile (newDataLog a s).1.2 = None /\
  numberOfDataLogEntries (newDataLog a s).1.2 = 0.
Proof.
  intros Hl Hz. unfold newDataLog.
  destruct (initialized s); cbn [negb]; [| intros _; now split].
  set (s1 := set_cardErrorCode _ _).
  pose proof (newDataLog_from_closed (Z.to_nat MAX_LOG_FILES) 0 a s1
                eq_refl eq_refl) as H.
  destruct (newDataLog_from _ 0 a s1) as [[r s'] calls]. exact H.
Qed.

(** While the log is closed, every [writeDataLog] returns false and
    calls nothing, up to the first [newDataLog] that succeeds. *)
Lemma writes_while_closed (rs : list (request flt)) :
  forall s,
    logFile s = None -> numberOfDataLogEntries s = 0 ->
    Forall (fun x => x = (false, []))
      (writes_until_new_log printf_f printf_5_3f printf_3_1f rs s).
Proof.
  induction rs as [|r rs IH]; intros s Hl Hz; [constructor |].
  cbn [writes_until_new_log]. destruct r as [a b e | | a]; cbn [FileSystem.serve].
  - rewrite writeDataLog_closed by exact Hl.
    constructor; [reflexivity | now apply IH].
  - cbn. now apply IH.
  - pose proof (newDataLog_false_closed a s Hl Hz) as H.
    destruct (newDataLog a s) as [[ok s'] calls]. cbn in H.
    destruct ok; [constructor |]. destruct (H eq_refl). now apply IH.
Qed.

(** A [writeDataLog] that returns true on a log at its end has added one
    line to the file and one to the counter. *)
Lemma writeDataLog_true_at_end a b e s s' calls f old :
  writeDataLog a b e s = (true, s', calls) ->
  logFile s = Some f ->
  card s !! path f = Some old ->
  position f = String.length old ->
  numberOfDataLogEntries s' = uint32 (numberOfDataLogEntries s + 1) /\
  card s' = <[path f := old +:+ entry_line b e]> (card s) /\
  logFile s'
  = Some {| path := path f;
            position := String.length (old +:+ entry_line b e) |} /\
  calls = [Write (path f) (entry_line b e); Sync (path f)].
Proof.
  intros Hw Hf Hold Hpos.
  apply writeDataLog_true in Hw.
  destruct Hw as (f' & s2 & Hf' & Hw & ->).
  rewrite Hf in Hf'. injection Hf' as <-.
  apply write_and_sync_true in Hw.
  destruct Hw as (old' & Hold' & _ & _ & -> & ->).
  rewrite Hold in Hold'. injection Hold' as <-.
  rewrite Hpos, overwrite_at_end, string_app_length. cbn. repeat split.
Qed.

(** A [newDataLog] that returns true has created a file that was not on
    the card: it holds the header, and the log is open at its end with
    no entry counted. *)
Lemma newDataLog_true_header a0 s0 s1 calls0 :
  newDataLog a0 s0 = (true, s1, calls0) ->
  exists name,
    card s0 !! name = None /\
    card s1 = <[name := header_line]> (card s0) /\
    logFile s1
    = Some {| path := name; position := String.length header_line |} /\
    numberOfDataLogEntries s1 = 0.
Proof.
  intros Hnew. unfold newDataLog in Hnew.
  destruct (initialized s0); cbn [negb] in Hnew; [| discriminate].
  set (s01 := set_cardErrorCode _ _) in Hnew.
  destruct (newDataLog_from _ 0 a0 s01) as [[r s1'] c1] eqn:E.
  injection Hnew as -> -> <-.
  change (Z.to_nat MAX_LOG_FILES) with 100%nat in E.
  destruct (newDataLog_from_spec 100 0 a0 s01 ltac:(lia) ltac:(reflexivity))
    as [H1 H2].
  destruct (classic_first_free (card s01) 100)
    as [Hall | (m & Hm & Hbefore & Hfree)].
  - rewrite H1 in E by (intros j Hj; apply Hall; lia). discriminate.
  - rewrite (H2 m Hm Hbefore Hfree) in E.
    destruct (newDataLog_create _ a0 s01) as [[r' s1''] c'] eqn:C.
    injection E as -> -> <-.
    apply sd_exists_false in Hfree.
    apply newDataLog_create_true in C; [| exact Hfree].
    destruct C as (Hc & Hl & Hz & _).
    exists (dataLogFilename (0 + Z.of_nat m)). repeat split; assumption.
Qed.

(** X7. A log from its creation on: after [newDataLog] and any number of
    [writeDataLog] that all returned true, the file is the header
    followed by the lines of the entries in their order, and the counter
    is their number. *)
Lemma FileSystem_log_session
    (rows : list (answers * battery flt * entry flt)) a0 s0 s1 calls0 :
  newDataLog a0 s0 = (true, s1, calls0) ->
  Z.of_nat (List.length rows) < 2 ^ 32 ->
  Forall (fun r => r = true)
    (writeDataLogs printf_f printf_5_3f printf_3_1f rows s1).1 ->
  exists name,
    card s0 !! name = None /\
    card (writeDataLogs printf_f printf_5_3f printf_3_1f rows s1).2
    = <[name := header_line
                +:+ lines printf_f printf_5_3f printf_3_1f rows]> (card s0) /\
    numberOfDataLogEntries
      (writeDataLogs printf_f printf_5_3f printf_3_1f rows s1).2
    = Z.of_nat (List.length rows).
Proof.
  intros Hnew Hlen Hall.
  apply newDataLog_true_header in Hnew.
  destruct Hnew as (name & Hfree & Hcard & Hlog & Hzero).
  exists name. split; [exact Hfree |].
  assert (Hgen : forall rows s content n,
    logFile s = Some {| path := name; position := String.length content |} ->
    card s !! name = Some content ->
    numberOfDataLogEntries s = n -> 0 <= n ->
    n + Z.of_nat (List.length rows) < 2 ^ 32 ->
    Forall (fun r => r = true)
      (writeDataLogs printf_f printf_5_3f printf_3_1f rows s).1 ->
    card (writeDataLogs printf_f printf_5_3f printf_3_1f rows s).2
    = <[name := content +:+ lines printf_f printf_5_3f printf_3_1f rows]>
        (card s) /\
    numberOfDataLogEntries
      (writeDataLogs printf_f printf_5_3f printf_3_1f rows s).2
    = n + Z.of_nat (List.length rows)).
  { clear. induction rows as [|[[a b] e] rows IH];
      intros s content n Hl Hc Hn Hn0 Hb Hall.
    - cbn. rewrite string_app_empty_r, insert_id by exact Hc. split; [reflexivity | lia].
    - cbn [writeDataLogs FileSystem.lines List.length] in *.
      destruct (writeDataLog a b e s) as [[r s'] calls] eqn:E.
      destruct (writeDataLogs printf_f printf_5_3f printf_3_1f rows s')
        as [rs sn] eqn:R.
      cbn [fst snd] in *. inversion Hall as [|? ? Hr Hrs]; subst.
      destruct (writeDataLog_true_at_end a b e s s' calls _ content E Hl Hc
                  eq_refl) as (Hn' & Hc' & Hl' & _).
      cbn [path] in *.
      specialize (IH s' (content +:+ entry_line b e)
                    (numberOfDataLogEntries s + 1)).
      rewrite R in IH. cbn [fst snd] in IH.
      destruct IH as [IHc IHn].
      + exact Hl'.
      + rewrite Hc'. apply lookup_insert_eq.
      + rewrite Hn'. unfold uint32. apply Z.mod_small.
        change (2 ^ 32) with 4294967296 in *. lia.
      + lia.
      + lia.
      + exact Hrs.
      + split.
        * rewrite IHc, Hc', insert_insert_eq, string_app_assoc. reflexivity.
        * rewrite IHn. lia. }
  destruct (Hgen rows s1 header_line 0) as [Hc Hn];
    [exact Hlog | rewrite Hcard; apply lookup_insert_eq | exact Hzero
    | lia | lia | exact Hall |].
  split; [| rewrite Hn; lia].
  rewrite Hc, Hcard. apply insert_insert_eq.
Qed.


(** C4. When the write or the sync of a row fails, [writeDataLog] returns
    false after that one attempt: the library was asked to write the
    row once, the error is NOCARD when the card reports no sectors and
    CARD_FULL otherwise, and the log is left closed. *)
Theorem FileSystem_writeDataLog_failure a b e s f :
  logFile s = Some f ->
  (exists stored, write_result a = Failed stored) \/ sync_ok a = false ->
  (writeDataLog a b e s).1.1 = false /\
  localErrorCode (writeDataLog a b e s).1.2
  = (if uint32 (sectorCount a) =? 0 then FS_ERROR_NOCARD
     else FS_ERROR_CARD_FULL) /\
  count_writes (writeDataLog a b e s).2 = 1%nat /\
  logFile (writeDataLog a b e s).1.2 = None.
Proof.
  intros Hf Hfail.
  destruct (writeDataLog a b e s) as [[r s'] calls] eqn:E. cbn.
  destruct r.
  - apply writeDataLog_true in E.
    destruct E as (f' & s1 & _ & E & _).
    apply write_and_sync_true in E.
    destruct E as (old & _ & Hw & Hs & _).
    destruct Hfail as [[k Hk] | Hk]; congruence.
  - apply writeDataLog_false in E.
    destruct E as [(Hl & _) | (f' & _ & E)]; [congruence |].
    apply write_and_sync_false in E. tauto.
Qed.

(** C10. After a [writeDataLog] or a [writeDataLogHeader] that failed,
    the log is closed and the entry counter is zero, and from then on
    every [writeDataLog] returns false without a call to the card, until
    a [newDataLog] succeeds. The state before is one where a closed log
    has a zero counter, as every method leaves it. *)
Theorem FileSystem_failed_write_closes_log
    a b e s s' calls (later : list (request flt)) :
  closed_means_zero s ->
  writeDataLog a b e s = (false, s', calls)
  \/ writeDataLogHeader a s = (false, s', calls) ->
  logFile s' = None /\
  numberOfDataLogEntries s' = 0 /\
  Forall (fun x => x = (false, []))
    (writes_until_new_log printf_f printf_5_3f printf_3_1f later s').
Proof.
  intros Hinv Hfail.
  assert (H : logFile s' = None /\ numberOfDataLogEntries s' = 0).
  { destruct Hfail as [E | E].
    - apply writeDataLog_false in E.
      destruct E as [(Hl & Heq & _) | (f & _ & E)].
      + subst s'. split; [exact Hl | exact (Hinv Hl)].
      + apply write_and_sync_false in E. tauto.
    - apply writeDataLogHeader_false in E.
      destruct E as [(Hl & Heq & _) | (f & _ & E)].
      + subst s'. split; [exact Hl | exact (Hinv Hl)].
      + apply write_and_sync_false in E. tauto. }
  destruct H as [Hl Hz]. repeat split; try assumption.
  now apply writes_while_closed.
Qed.

(** Every method keeps a closed log at a zero counter. *)
Lemma serve_closed_means_zero (r : request flt) (s : state) :
  closed_means_zero s ->
  closed_means_zero
    (FileSystem.serve printf_f printf_5_3f printf_3_1f r s).1.2.
Proof.
  intros Hinv. destruct r as [a b e | | a]; cbn [FileSystem.serve].
  - destruct (writeDataLog a b e s) as [[[|] s'] calls] eqn:E; cbn.
    + apply writeDataLog_true in E. destruct E as (f & s1 & _ & E & ->).
      apply write_and_sync_true in E.
      destruct E as (old & _ & _ & _ & -> & _).
      intros H. discriminate.
    + apply writeDataLog_false in E.
      destruct E as [(_ & -> & _) | (f & _ & E)]; [exact Hinv |].
      apply write_and_sync_false in E. intros _. tauto.
  - intros _. reflexivity.
  - unfold newDataLog. destruct (initialized s); cbn [negb]; [| exact Hinv].
    set (s1 := set_cardErrorCode _ _).
    assert (H : forall n i t, numberOfDataLogEntries t = 0 ->
                numberOfDataLogEntries (newDataLog_from n i a t).1.2 = 0).
    { induction n as [|n IH]; intros i t Ht; [exact Ht |].
      cbn [newDataLog_from].
      destruct (sd_exists (card t) (dataLogFilename i)).
      - specialize (IH (uint16 (i + 1)) t Ht).
        destruct (newDataLog_from n _ a t) as [[r s'] calls]. exact IH.
      - pose proof (newDataLog_create_counter (dataLogFilename i) a t Ht).
        destruct (newDataLog_create _ a t) as [[r s'] calls]. assumption. }
    specialize (H (Z.to_nat MAX_LOG_FILES) 0 s1 eq_refl).
    destruct (newDataLog_from _ 0 a s1) as [[r s'] calls]. intros _. exact H.
Qed.

(** C8. [newDataLog] on an initialized file system opens one file, the
    one of the first index in 0..99 whose name is not on the card, and
    when it returns true that file holds the header and is the open log
    (it does so whenever the library reports no failure). When all
    hundred names are on the card it opens and creates nothing and
    returns false with TOO_MANY_LOG_FILES. *)
Theorem FileSystem_newDataLog_first_free (a : answers) (s : state) :
  initialized s = true ->
  (forall i,
      0 <= i < MAX_LOG_FILES ->
      (forall j, 0 <= j < i ->
                 sd_exists (card s) (dataLogFilename j) = true) ->
      sd_exists (card s) (dataLogFilename i) = false ->
      opens (newDataLog a s).2 = [Open (dataLogFilename i) O_WRONLY_CREAT] /\
      (open_ok a = true -> write_result a = AllBytes -> sync_ok a = true ->
       (newDataLog a s).1.1 = true) /\
      ((newDataLog a s).1.1 = true ->
       card (newDataLog a s).1.2
       = <[dataLogFilename i := header_line]> (card s) /\
       logFile (newDataLog a s).1.2
       = Some {| path := dataLogFilename i;
                 position := String.length header_line |}) /\
      ((newDataLog a s).1.1 = false ->
       card (newDataLog a s).1.2 = card s)) /\
  ((forall j, 0 <= j < MAX_LOG_FILES ->
              sd_exists (card s) (dataLogFilename j) = true) ->
   (newDataLog a s).1.1 = false /\
   localErrorCode (newDataLog a s).1.2 = FS_ERROR_TOO_MANY_LOG_FILES /\
   card (newDataLog a s).1.2 = card s /\
   opens (newDataLog a s).2 = []).
Proof.
  intros Hinit. unfold newDataLog. rewrite Hinit. cbn [negb].
  set (s1 := set_cardErrorCode _ _).
  change (Z.to_nat MAX_LOG_FILES) with 100%nat.
  change MAX_LOG_FILES with 100.
  destruct (newDataLog_from_spec 100 0 a s1 ltac:(lia) ltac:(reflexivity))
    as [Hnone Hsome].
  split.
  - intros i Hi Hbefore Hfree.
    specialize (Hsome (Z.to_nat i) ltac:(lia)).
    rewrite Z.add_0_l, Z2Nat.id in Hsome by lia.
    rewrite Hsome; [| intros j Hj; apply Hbefore; lia | exact Hfree].
    apply sd_exists_false in Hfree.
    pose proof (newDataLog_create_opens (dataLogFilename i) a s1) as [Ho _].
    pose proof (newDataLog_create_succeeds (dataLogFilename i) a s1 Hfree) as Hok.
    pose proof (newDataLog_create_card (dataLogFilename i) a s1 Hfree) as Hcard.
    destruct (newDataLog_create _ a s1) as [[r s'] calls] eqn:C.
    cbn in *. repeat split.
    + unfold opens in *. rewrite List.filter_app.
      fold (opens (List.map (fun j => Exists (dataLogFilename (0 + Z.of_nat j)))
                     (List.seq 0 (S (Z.to_nat i))))).
      rewrite <- (List.map_map (fun j => 0 + Z.of_nat j)
                    (fun z => Exists (dataLogFilename z))).
      rewrite opens_exists. exact Ho.
    + exact Hok.
    + destruct r; [| discriminate].
      apply newDataLog_create_true in C; [| exact Hfree]. tauto.
    + destruct r; [| discriminate].
      apply newDataLog_create_true in C; [| exact Hfree]. tauto.
    + exact Hcard.
  - intros Hall. rewrite Hnone by (intros j Hj; apply Hall; lia).
    cbn [fst snd]. repeat split.
Qed.

End DataLogProofs.

(** *** The data log theorems on a card *)


Lemma FileSystem_writeDataLog_failure_witness :
  let f := {| FileSystem.path := "DATA_00.CSV";
              FileSystem.position := String.length FileSystem.header_line |} in
  let w := FileSystem.writeDataLog Scenario.printf_f Scenario.printf_5_3f
             Scenario.printf_3_1f Scenario.card_full Scenario.a_battery
             Scenario.an_entry Scenario.new_log in
  (FileSystem.logFile Scenario.new_log = Some f /\
   ((exists stored,
       FileSystem.write_result Scenario.card_full = FileSystem.Failed stored)
    \/ FileSystem.sync_ok Scenario.card_full = false)) /\
  w.1.1 = false /\
  FileSystem.localErrorCode w.1.2 = FileSystem.FS_ERROR_CARD_FULL /\
  FileSystem.count_writes w.2 = 1%nat /\
  FileSystem.logFile w.1.2 = None.
Proof.
  cbv zeta.
  assert (H1 : FileSystem.logFile Scenario.new_log
               = Some {| FileSystem.path := "DATA_00.CSV";
                         FileSystem.position :=
                           String.length FileSystem.header_line |})
    by (vm_compute; reflexivity).
  assert (H2 : (exists stored,
                   FileSystem.write_result Scenario.card_full
                   = FileSystem.Failed stored)
               \/ FileSystem.sync_ok Scenario.card_full = false)
    by (left; exists 3%nat; reflexivity).
  split; [split; assumption |].
  exact (FileSystem_writeDataLog_failure Z Scenario.printf_f
           Scenario.printf_5_3f Scenario.printf_3_1f Scenario.card_full
           Scenario.a_battery Scenario.an_entry Scenario.new_log _ H1 H2).
Defined.

Lemma FileSystem_failed_write_closes_log_witness :
  let w := FileSystem.writeDataLog Scenario.printf_f Scenario.printf_5_3f
             Scenario.printf_3_1f Scenario.card_gone Scenario.a_battery
             Scenario.an_entry Scenario.new_log in
  let later :=
    [FileSystem.WriteDataLog Scenario.good Scenario.a_battery Scenario.an_entry;
     FileSystem.NewDataLog Scenario.card_gone;
     FileSystem.WriteDataLog Scenario.good Scenario.a_battery Scenario.an_entry;
     FileSystem.CloseDataLog;
     FileSystem.WriteDataLog Scenario.good Scenario.a_battery Scenario.an_entry;
     FileSystem.NewDataLog Scenario.good;
     FileSystem.WriteDataLog Scenario.good Scenario.a_battery
       Scenario.an_entry] in
  (FileSystem.closed_means_zero Scenario.new_log /\
   (w = (false, w.1.2, w.2)
    \/ FileSystem.writeDataLogHeader Scenario.card_gone Scenario.new_log
       = (false, w.1.2, w.2))) /\
  FileSystem.logFile w.1.2 = None /\
  FileSystem.numberOfDataLogEntries w.1.2 = 0 /\
  FileSystem.writes_until_new_log Scenario.printf_f Scenario.printf_5_3f
    Scenario.printf_3_1f later w.1.2
  = [(false, []); (false, []); (false, [])].
Proof.
  cbv zeta.
  assert (H1 : FileSystem.closed_means_zero Scenario.new_log)
    by (intros H; vm_compute in H; discriminate).
  assert (H2 : FileSystem.writeDataLog Scenario.printf_f Scenario.printf_5_3f
             Scenario.printf_3_1f Scenario.card_gone Scenario.a_battery
             Scenario.an_entry Scenario.new_log
           = (false,
              (FileSystem.writeDataLog Scenario.printf_f Scenario.printf_5_3f
                 Scenario.printf_3_1f Scenario.card_gone Scenario.a_battery
                 Scenario.an_entry Scenario.new_log).1.2,
              (FileSystem.writeDataLog Scenario.printf_f Scenario.printf_5_3f
                 Scenario.printf_3_1f Scenario.card_gone Scenario.a_battery
                 Scenario.an_entry Scenario.new_log).2))
    by (vm_compute; reflexivity).
  split; [split; [exact H1 | left; exact H2] |].
  destruct (FileSystem_failed_write_closes_log Z Scenario.printf_f
              Scenario.printf_5_3f Scenario.printf_3_1f _ _ _ _ _ _
              [] H1 (or_introl H2)) as (Hl & Hz & _).
  split; [exact Hl |]. split; [exact Hz |]. vm_compute. reflexivity.
Defined.

Lemma Scenario_logs_exist (n : nat) :
  forall m,
    (m < n)%nat ->
    FileSystem.sd_exists (Scenario.logs n)
      (FileSystem.dataLogFilename (Z.of_nat m)) = true.
Proof.
  induction n as [|n IH]; intros m Hm; [lia |].
  cbn [Scenario.logs]. apply sd_exists_true.
  apply lookup_insert_is_Some'.
  destruct (Nat.eq_dec m n) as [-> | Hne]; [left; reflexivity | right].
  apply sd_exists_true, IH. lia.
Qed.

Lemma FileSystem_newDataLog_first_free_witness :
  FileSystem.initialized (Scenario.mounted (Scenario.logs 3)) = true /\
  FileSystem.initialized (Scenario.mounted (Scenario.logs 100)) = true /\
  FileSystem.opens
    (FileSystem.newDataLog Scenario.good (Scenario.mounted (Scenario.logs 3))).2
  = [FileSystem.Open "DATA_03.CSV" FileSystem.O_WRONLY_CREAT] /\
  (FileSystem.newDataLog Scenario.good (Scenario.mounted (Scenario.logs 3))).1.1
  = true /\
  (FileSystem.newDataLog Scenario.good (Scenario.mounted (Scenario.logs 100))).1.1
  = false /\
  FileSystem.localErrorCode
    (FileSystem.newDataLog Scenario.good
       (Scenario.mounted (Scenario.logs 100))).1.2
  = FileSystem.FS_ERROR_TOO_MANY_LOG_FILES /\
  FileSystem.card
    (FileSystem.newDataLog Scenario.good
       (Scenario.mounted (Scenario.logs 100))).1.2
  = Scenario.logs 100.
Proof.
  split; [reflexivity |]. split; [reflexivity |].
  destruct (FileSystem_newDataLog_first_free Scenario.good
              (Scenario.mounted (Scenario.logs 3)) eq_refl) as [Hfree _].
  destruct (FileSystem_newDataLog_first_free Scenario.good
              (Scenario.mounted (Scenario.logs 100)) eq_refl) as [_ Hfull].
  assert (H3 : 0 <= 3 < FileSystem.MAX_LOG_FILES)
    by (vm_compute; split; discriminate || reflexivity).
  assert (Hbefore : forall j, 0 <= j < 3 ->
            FileSystem.sd_exists
              (FileSystem.card (Scenario.mounted (Scenario.logs 3)))
              (FileSystem.dataLogFilename j) = true).
  { intros j Hj.
    assert (Hc : j = 0 \/ j = 1 \/ j = 2) by lia.
    destruct Hc as [-> | [-> | ->]]; vm_compute; reflexivity. }
  destruct (Hfree 3 H3 Hbefore ltac:(vm_compute; reflexivity))
    as (Ho & Hok & _).
  assert (Hall : forall j, 0 <= j < FileSystem.MAX_LOG_FILES ->
            FileSystem.sd_exists
              (FileSystem.card (Scenario.mounted (Scenario.logs 100)))
              (FileSystem.dataLogFilename j) = true).
  { intros j Hj. unfold FileSystem.MAX_LOG_FILES in Hj.
    replace j with (Z.of_nat (Z.to_nat j)) by lia.
    apply (Scenario_logs_exist 100). lia. }
  destruct (Hfull Hall) as (Hr & He & Hc & _).
  split; [exact Ho |]. split; [apply Hok; reflexivity |].
  split; [exact Hr |]. split; [exact He | exact Hc].
Defined.

(** ** The settings file *)

Section SettingsProofs.

Import FileSystem.

Lemma all_chars_app (p : ascii -> bool) (a b : string) :
  Libc.all_chars p (a +:+ b) = Libc.all_chars p a && Libc.all_chars p b.
Proof.
  induction a as [|c a IH]; [reflexivity |].
  rewrite string_app_cons. cbn [Libc.all_chars]. rewrite IH.
  now rewrite andb_assoc.
Qed.

Lemma solid_not_eol (c : ascii) :
  Libc.solid c = true ->
  Libc.isSpace c = false /\ Ascii.eqb c "013" = false
  /\ Ascii.eqb c "010" = false.
Proof.
  unfold Libc.solid. intros H.
  destruct (Libc.isSpace c), (Ascii.eqb c "013"), (Ascii.eqb c "010");
    try discriminate; repeat split.
Qed.

Lemma readLine_from_cons (c : ascii) (rest : string) (k : nat) :
  (k < 1024)%nat -> Libc.inline c = true ->
  readLine_from (String c rest) k
  = (String c (readLine_from rest (S k)).1, (readLine_from rest (S k)).2).
Proof.
  intros Hk Hc. cbn [readLine_from].
  replace (Z.of_nat k <? BUFFER_SIZE - 1) with true
    by (symmetry; apply Z.ltb_lt; unfold BUFFER_SIZE; lia).
  cbn [negb]. unfold Libc.inline in Hc.
  destruct (Ascii.eqb c "013"); [discriminate |].
  destruct (Ascii.eqb c "010"); [discriminate |].
  now destruct (readLine_from rest (S k)).
Qed.

(** A line that fits in the buffer is read whole, and the \r\n after it
    is taken from the file. *)
Lemma readLine_from_line (line : string) :
  forall rest k,
    Libc.all_chars Libc.inline line = true ->
    (k + String.length line < 1024)%nat ->
    readLine_from (line +:+ CRLF +:+ rest) k = (line, rest).
Proof.
  induction line as [|c line IH]; intros rest k Hline Hk.
  - rewrite string_app_empty_l. unfold CRLF. rewrite !string_app_cons.
    rewrite string_app_empty_l. cbn [readLine_from].
    replace (Z.of_nat k <? BUFFER_SIZE - 1) with true
      by (symmetry; apply Z.ltb_lt; unfold BUFFER_SIZE; cbn in Hk; lia).
    reflexivity.
  - cbn [Libc.all_chars] in Hline. apply andb_prop in Hline as [Hc Hline].
    cbn [String.length] in Hk.
    rewrite string_app_cons, readLine_from_cons by (lia || assumption).
    rewrite IH by (assumption || lia). reflexivity.
Qed.

Lemma solid_inline (s : string) :
  Libc.all_chars Libc.solid s = true -> Libc.all_chars Libc.inline s = true.
Proof.
  induction s as [|c s IH]; [reflexivity |]. cbn [Libc.all_chars].
  intros H. apply andb_prop in H as [Hc Hs].
  destruct (solid_not_eol c Hc) as (_ & Hr & Hn).
  rewrite IH by assumption. unfold Libc.inline. now rewrite Hr, Hn.
Qed.

(** A word is read up to the white space after it. *)
Lemma word_solid (w : string) :
  forall rest,
    Libc.all_chars Libc.solid w = true ->
    word (w +:+ String " " rest) = (w, String " " rest).
Proof.
  induction w as [|c w IH]; intros rest Hw.
  - reflexivity.
  - cbn [Libc.all_chars] in Hw. apply andb_prop in Hw as [Hc Hw].
    destruct (solid_not_eol c Hc) as (Hs & _).
    rewrite string_app_cons. cbn [word]. rewrite Hs, IH by assumption.
    reflexivity.
Qed.

(** A name, a space and a value without white space are parsed back
    into the name and the value. *)
Lemma parseLine_name_value (name value : string) :
  Libc.all_chars Libc.solid name = true ->
  Libc.all_chars Libc.solid value = true ->
  name <> "" ->
  parseLine (name +:+ String " " value) = (name, value).
Proof.
  intros Hname Hvalue Hne. unfold parseLine.
  assert (Hskip : forall s, Libc.all_chars Libc.solid s = true ->
                            forall t, Libc.skip_spaces (s +:+ t)
                                      = if String.eqb s "" then Libc.skip_spaces t
                                        else s +:+ t).
  { intros [|c s] Hs t; [reflexivity |].
    cbn [Libc.all_chars] in Hs. apply andb_prop in Hs as [Hc _].
    destruct (solid_not_eol c Hc) as (Hsp & _).
    rewrite string_app_cons. cbn [Libc.skip_spaces]. now rewrite Hsp. }
  rewrite Hskip by assumption.
  destruct (String.eqb_spec name ""); [contradiction |].
  rewrite word_solid by assumption.
  specialize (Hskip value Hvalue ""). rewrite string_app_empty_r in Hskip.
  cbv iota beta. rewrite Hskip.
  destruct (String.eqb_spec value "") as [-> |]; reflexivity.
Qed.

(** The three lines that [saveSettings] writes are read by the loop of
    [loadSettings] as the three values, whatever the values before; the
    loop then goes on with what follows them in the file. *)
Lemma loadSettings_lines_settings_text_then
    (v v0 : settings) (turns : nat) (tail : string) :
  0 <= interval v < 2 ^ 32 ->
  0 <= burstSize v < 2 ^ 8 ->
  loadSettings_lines (3 + turns) (settings_text v +:+ tail) v0
  = loadSettings_lines turns tail v.
Proof.
  intros Hi Hb. unfold settings_text. powers.
  rewrite !string_app_assoc.
  set (x := Libc.printf_d (Libc.as_long (interval v))).
  set (y := Libc.printf_d (uint8 (burstSize v))).
  set (z := Libc.printf_d (if isLaserContinuous v then 1 else 0)).
  assert (Hu8 : uint8 (burstSize v) = burstSize v)
    by (apply Z.mod_small; powers; lia).
  assert (Hal : - 4294967296 < Libc.as_long (interval v) < 4294967296).
  { unfold Libc.as_long, uint32. powers.
    rewrite (Z.mod_small (interval v) 4294967296) by lia.
    destruct (Z.ltb_spec (interval v) 2147483648); lia. }
  assert (Hx : Libc.all_chars Libc.solid x = true) by apply printf_d_solid.
  assert (Hy : Libc.all_chars Libc.solid y = true) by apply printf_d_solid.
  assert (Hz : Libc.all_chars Libc.solid z = true) by apply printf_d_solid.
  assert (Hxl : (String.length x <= 34)%nat)
    by (apply printf_d_length; powers; lia).
  assert (Hyl : (String.length y <= 34)%nat)
    by (apply printf_d_length; rewrite Hu8; powers; lia).
  assert (Hzl : (String.length z <= 34)%nat)
    by (apply printf_d_length; powers; destruct (isLaserContinuous v); lia).
  assert (Hxe : x <> "") by (destruct (printf_d_head (Libc.as_long (interval v)))
                               as (c & s & H); subst x; rewrite H; discriminate).
  assert (Hye : y <> "") by (destruct (printf_d_head (uint8 (burstSize v)))
                               as (c & s & H); subst y; rewrite H; discriminate).
  assert (Hze : z <> "")
    by (subst z; destruct (isLaserContinuous v); discriminate).
  (* the three lines, each a name, a space and a number *)
  change ("interval " +:+ x +:+ CRLF +:+ "burstsize " +:+ y +:+ CRLF
          +:+ "lasercontinuous " +:+ z +:+ CRLF +:+ tail)
    with (("interval" +:+ String " " x) +:+ CRLF
          +:+ ("burstsize" +:+ String " " y) +:+ CRLF
          +:+ ("lasercontinuous" +:+ String " " z) +:+ CRLF +:+ tail).
  assert (Hline : forall name value,
             Libc.all_chars Libc.solid name = true ->
             Libc.all_chars Libc.solid value = true ->
             (String.length name <= 20)%nat -> (String.length value <= 34)%nat ->
             forall rest,
               readLine ((name +:+ String " " value) +:+ CRLF +:+ rest)
               = (name +:+ String " " value, rest)).
  { intros name value Hn Hv Hnl Hvl rest. unfold readLine.
    apply readLine_from_line.
    - rewrite all_chars_app. rewrite (solid_inline name Hn).
      cbn [Libc.all_chars andb]. change (Libc.inline " ") with true.
      now rewrite (solid_inline value Hv).
    - rewrite string_app_length. cbn [String.length]. lia. }
  assert (Hnz : forall name value,
             (String.length (name +:+ String " " value) =? 0)%nat = false).
  { intros name value. rewrite string_app_length. cbn [String.length].
    apply Nat.eqb_neq. lia. }
  change (3 + turns)%nat with (S (S (S turns))).
  cbn [loadSettings_lines].
  rewrite Hline, Hnz, parseLine_name_value by first [reflexivity | assumption | discriminate | cbn; lia].
  rewrite Hline, Hnz, parseLine_name_value by first [reflexivity | assumption | discriminate | cbn; lia].
  rewrite Hline, Hnz, parseLine_name_value by first [reflexivity | assumption | discriminate | cbn; lia].
  f_equal.
  (* the three assignments *)
  unfold setting at 3.
  destruct (String.eqb_spec x ""); [contradiction |].
  cbn [String.eqb Ascii.eqb Bool.eqb orb].
  unfold setting at 2.
  destruct (String.eqb_spec y ""); [contradiction |].
  cbn [String.eqb Ascii.eqb Bool.eqb orb].
  unfold setting at 1.
  destruct (String.eqb_spec z ""); [contradiction |].
  cbn [String.eqb Ascii.eqb Bool.eqb orb interval isLaserContinuous burstSize].
  pose proof (atoi_printf_ld_uint32 (interval v) "" Hi I) as Ax.
  rewrite string_app_empty_r in Ax. fold x in Ax. rewrite Ax.
  pose proof (atoi_printf_d (uint8 (burstSize v)) "") as Ay.
  rewrite string_app_empty_r in Ay. fold y in Ay.
  rewrite Ay by (unfold Libc.INT_MIN, Libc.INT_MAX; rewrite ?Hu8; try exact I; lia).
  pose proof (atoi_printf_d (if isLaserContinuous v then 1 else 0) "") as Az.
  rewrite string_app_empty_r in Az. fold z in Az.
  rewrite Az by (unfold Libc.INT_MIN, Libc.INT_MAX; try exact I;
                 destruct (isLaserContinuous v); lia).
  rewrite Hu8, Hu8.
  destruct v as [i l b]. cbn. now destruct l.
Qed.

Lemma loadSettings_lines_settings_text (v v0 : settings) (turns : nat) :
  0 <= interval v < 2 ^ 32 ->
  0 <= burstSize v < 2 ^ 8 ->
  loadSettings_lines (4 + turns) (settings_text v) v0 = Some v.
Proof.
  intros Hi Hb. rewrite <- (string_app_empty_r (settings_text v)).
  change (4 + turns)%nat with (3 + S turns)%nat.
  now rewrite loadSettings_lines_settings_text_then.
Qed.

End SettingsProofs.

(** ** Saving and loading the settings *)

Lemma readLine_from_shorter (rest : string) :
  forall k,
    (String.length (FileSystem.readLine_from rest k).1
     + String.length (FileSystem.readLine_from rest k).2
     <= String.length rest)%nat.
Proof.
  induction rest as [|c rest IH]; intros k; cbn [FileSystem.readLine_from].
  - destruct (negb _); cbn; lia.
  - destruct (negb _); [cbn; lia |].
    destruct (Ascii.eqb c "013"); [specialize (IH k); cbn; lia |].
    destruct (Ascii.eqb c "010"); [cbn; lia |].
    specialize (IH (S k)).
    destruct (FileSystem.readLine_from rest (S k)). cbn in *. lia.
Qed.

(** The loop of [loadSettings] comes to its end. *)
Lemma loadSettings_lines_total (turns : nat) :
  forall rest v,
    (String.length rest < turns)%nat ->
    exists v', FileSystem.loadSettings_lines turns rest v = Some v'.
Proof.
  induction turns as [|turns IH]; intros rest v H; [lia |].
  cbn [FileSystem.loadSettings_lines]. unfold FileSystem.readLine.
  pose proof (readLine_from_shorter rest 0) as Hs.
  destruct (FileSystem.readLine_from rest 0) as [line rest']. cbn in Hs.
  destruct (Nat.eqb_spec (String.length line) 0); [eauto |].
  destruct (FileSystem.parseLine line). apply IH. lia.
Qed.

(** [loadSettings] returns. *)
Lemma FileSystem_loadSettings_total a v s :
  exists r, FileSystem.loadSettings a v s = Some r.
Proof.
  unfold FileSystem.loadSettings.
  destruct (negb _); [eauto |].
  destruct (FileSystem.sd_open _ _ _ _) as [[f|] crd]; [| eauto].
  destruct (crd !! FileSystem.path f) as [content|]; [| eauto].
  destruct (loadSettings_lines_total (S (String.length content)) content v
              ltac:(lia)) as [v' ->].
  eauto.
Qed.

(** ** Writing the settings over earlier settings *)

Section StaleSettingsProofs.

Import FileSystem.

Lemma all_chars_drop (p : ascii -> bool) (s : string) :
  forall n, Libc.all_chars p s = true -> Libc.all_chars p (drop n s) = true.
Proof.
  induction s as [|c s IH]; intros [|n] H; try exact H.
  cbn [drop]. apply IH. cbn [Libc.all_chars] in H.
  now apply andb_prop in H as [_ H].
Qed.

Lemma drop_0 (s : string) : drop 0 s = s.
Proof. reflexivity. Qed.

Lemma drop_add (s : string) :
  forall a b, drop (a + b) s = drop b (drop a s).
Proof.
  induction s as [|c s IH]; intros [|a] b; try reflexivity.
  - now destruct b.
  - cbn [drop Nat.add]. apply IH.
Qed.

Lemma drop_app_ge (p q : string) :
  forall n, (String.length p <= n)%nat ->
            drop n (p +:+ q) = drop (n - String.length p) q.
Proof.
  induction p as [|c p IH]; intros n H.
  - rewrite string_app_empty_l. cbn. now rewrite Nat.sub_0_r.
  - destruct n as [|n]; [cbn in H; lia |].
    rewrite string_app_cons. cbn [drop String.length Nat.sub].
    apply IH. cbn in H. lia.
Qed.

(** A number below [10 ^ k] has at most [k] digits. *)
Lemma digits_onto_length_tight (fuel : nat) :
  forall n (k : nat) acc,
    0 <= n < 10 ^ Z.of_nat k -> (1 <= k)%nat ->
    (String.length (Libc.digits_onto fuel n acc)
     <= k + String.length acc)%nat.
Proof.
  induction fuel as [|fuel IH]; intros n k acc Hn Hk; [cbn; lia |].
  cbn [Libc.digits_onto]. destruct (Z.eqb_spec (n / 10) 0) as [E | E].
  - cbn [String.length]. lia.
  - destruct k as [|[|k]]; [lia | |].
    + exfalso. apply E. apply Z.div_small. cbn in Hn. lia.
    + etransitivity; [apply (IH (n / 10) (S k)) |].
      * split; [apply Z.div_pos; lia |].
        apply Z.div_lt_upper_bound; [lia |].
        rewrite (Nat2Z.inj_succ (S k)), Z.pow_succ_r in Hn by lia. lia.
      * lia.
      * cbn [String.length]. lia.
Qed.

Lemma printf_d_length_tight (z : Z) (k : nat) :
  - 10 ^ Z.of_nat k < z < 10 ^ Z.of_nat k -> (1 <= k)%nat ->
  (1 <= String.length (Libc.printf_d z)
   <= (if Z.ltb z 0 then 1 else 0) + k)%nat.
Proof.
  intros Hz Hk. split.
  - destruct (printf_d_head z) as (c & s & ->). cbn. lia.
  - unfold Libc.printf_d, Libc.decimal.
    destruct (Z.ltb_spec z 0); cbn [String.length].
    + pose proof (digits_onto_length_tight (S (Z.to_nat (Z.log2 (- z))))
                    (- z) k "" ltac:(lia) Hk). cbn [String.length] in *. lia.
    + pose proof (digits_onto_length_tight (S (Z.to_nat (Z.log2 z)))
                    z k "" ltac:(lia) Hk). cbn [String.length] in *. lia.
Qed.

(** The text of [saveSettings] is 44 to 56 bytes long, and quiet from its
    45th byte on. *)
Lemma settings_text_shape (v : settings) :
  0 <= interval v < 2 ^ 32 ->
  0 <= burstSize v < 2 ^ 8 ->
  (44 <= String.length (settings_text v) <= 56)%nat /\
  settled (settings_text v).
Proof.
  intros Hi Hb. powers. unfold settled, settings_text.
  set (x := Libc.printf_d (Libc.as_long (interval v))).
  set (y := Libc.printf_d (uint8 (burstSize v))).
  set (z := Libc.printf_d (if isLaserContinuous v then 1 else 0)).
  assert (Hx : (1 <= String.length x <= 11)%nat).
  { pose proof (printf_d_length_tight (Libc.as_long (interval v)) 10) as H.
    change (10 ^ Z.of_nat 10) with 10000000000 in H.
    assert (- 10000000000 < Libc.as_long (interval v) < 10000000000) as Hr.
    { unfold Libc.as_long, uint32. powers.
      rewrite (Z.mod_small (interval v) 4294967296) by lia.
      destruct (Z.ltb_spec (interval v) 2147483648); lia. }
    specialize (H Hr ltac:(lia)). subst x.
    destruct (Libc.as_long (interval v) <? 0); lia. }
  assert (Hy : (1 <= String.length y <= 3)%nat).
  { pose proof (printf_d_length_tight (uint8 (burstSize v)) 3) as H.
    unfold uint8 in *. powers. rewrite Z.mod_small in * by lia.
    change (10 ^ Z.of_nat 3) with 1000 in H.
    destruct (Z.ltb_spec (burstSize v) 0); [lia |].
    subst y. unfold uint8. powers. rewrite Z.mod_small by lia.
    apply H; lia. }
  assert (Hz : String.length z = 1%nat)
    by (subst z; now destruct (isLaserContinuous v)).
  split.
  - rewrite !string_app_length. cbn [String.length CRLF]. lia.
  - change ("interval " +:+ x +:+ CRLF +:+ "burstsize " +:+ y +:+ CRLF
            +:+ "lasercontinuous " +:+ z +:+ CRLF)
      with ("interval " +:+ x +:+ CRLF +:+ "burstsize " +:+ y +:+ CRLF
            +:+ "l" +:+ "asercontinuous " +:+ z +:+ CRLF).
    rewrite <- !(string_app_assoc _ _ ("asercontinuous " +:+ z +:+ CRLF)).
    rewrite drop_app_ge
      by (rewrite !string_app_length; cbn [String.length CRLF]; lia).
    apply all_chars_drop. subst z. now destruct (isLaserContinuous v).
Qed.

(** What is behind the text after a write over a settled file is quiet,
    and the file is settled again. *)
Lemma overwrite_settled (old : string) (v : settings) :
  0 <= interval v < 2 ^ 32 ->
  0 <= burstSize v < 2 ^ 8 ->
  settled old ->
  overwrite old 0 (settings_text v)
  = settings_text v +:+ drop (String.length (settings_text v)) old /\
  Libc.all_chars quiet (drop (String.length (settings_text v)) old) = true /\
  settled (overwrite old 0 (settings_text v)).
Proof.
  intros Hi Hb Hold.
  destruct (settings_text_shape v Hi Hb) as [Hlen Hnew].
  assert (Htail : Libc.all_chars quiet
                    (drop (String.length (settings_text v)) old) = true).
  { replace (String.length (settings_text v))
      with (44 + (String.length (settings_text v) - 44))%nat by lia.
    rewrite drop_add. now apply all_chars_drop. }
  assert (Hov : overwrite old 0 (settings_text v)
                = settings_text v
                  +:+ drop (String.length (settings_text v)) old).
  { unfold overwrite. now destruct old. }
  repeat split; try assumption.
  unfold settled in *. rewrite Hov.
  remember (settings_text v) as new eqn:Hn.
  assert (Hsplit : new = take 44 new +:+ drop 44 new).
  { clear. generalize 44%nat. induction new as [|c new IH]; intros [|n];
      try reflexivity.
    cbn [take drop]. rewrite string_app_cons. now rewrite <- IH. }
  assert (Htake : String.length (take 44 new) = 44%nat).
  { assert (H : forall n s, (n <= String.length s)%nat ->
                            String.length (take n s) = n).
    { clear. induction n as [|n IH]; intros [|c s] H; cbn in *;
        try reflexivity; try lia. now rewrite IH by lia. }
    apply H. lia. }
  rewrite Hsplit at 1. rewrite string_app_assoc.
  rewrite drop_app_ge by lia. rewrite Htake, Nat.sub_diag, drop_0.
  rewrite all_chars_app. now rewrite Hnew, Htail.
Qed.

(** Lines of quiet characters change no setting. *)
Lemma all_chars_skip_spaces (p : ascii -> bool) (s : string) :
  Libc.all_chars p s = true -> Libc.all_chars p (Libc.skip_spaces s) = true.
Proof.
  induction s as [|c s IH]; intros H; [exact H |].
  cbn [Libc.skip_spaces]. destruct (Libc.isSpace c); [| exact H].
  apply IH. cbn [Libc.all_chars] in H. now apply andb_prop in H as [_ H].
Qed.

Lemma all_chars_word (p : ascii -> bool) (s : string) :
  Libc.all_chars p s = true -> Libc.all_chars p (word s).1 = true.
Proof.
  induction s as [|c s IH]; intros H; [reflexivity |].
  cbn [word]. destruct (Libc.isSpace c); [reflexivity |].
  cbn [Libc.all_chars] in H. apply andb_prop in H as [Hc H].
  specialize (IH H). destruct (word s) as [w rest]. cbn in *.
  now rewrite Hc, IH.
Qed.

Lemma all_chars_readLine (p : ascii -> bool) (rest : string) :
  forall k,
    Libc.all_chars p rest = true ->
    Libc.all_chars p (readLine_from rest k).1 = true /\
    Libc.all_chars p (readLine_from rest k).2 = true.
Proof.
  induction rest as [|c rest IH]; intros k H; cbn [readLine_from].
  - destruct (negb _); now split.
  - destruct (negb _); [now split |].
    cbn [Libc.all_chars] in H. apply andb_prop in H as [Hc H].
    destruct (Ascii.eqb c "013"); [now apply IH |].
    destruct (Ascii.eqb c "010"); [now split |].
    destruct (IH (S k) H) as [H1 H2].
    destruct (readLine_from rest (S k)) as [line rest']. cbn in *.
    now rewrite Hc, H1.
Qed.

Lemma setting_quiet (name value : string) (v : settings) :
  Libc.all_chars quiet name = true -> setting name value v = v.
Proof.
  intros H. unfold setting.
  destruct (String.eqb name "" || String.eqb value ""); [reflexivity |].
  destruct (String.eqb_spec name "interval") as [-> |]; [discriminate |].
  destruct (String.eqb_spec name "burstsize") as [-> |]; [discriminate |].
  destruct (String.eqb_spec name "lasercontinuous") as [-> |];
    [discriminate | reflexivity].
Qed.

Lemma loadSettings_lines_quiet (turns : nat) :
  forall rest v,
    Libc.all_chars quiet rest = true ->
    (String.length rest < turns)%nat ->
    loadSettings_lines turns rest v = Some v.
Proof.
  induction turns as [|turns IH]; intros rest v Hq Hl; [lia |].
  cbn [loadSettings_lines]. unfold readLine.
  pose proof (readLine_from_shorter rest 0) as Hs.
  destruct (all_chars_readLine quiet rest 0 Hq) as [Hline Hrest].
  destruct (readLine_from rest 0) as [line rest']. cbn in Hs, Hline, Hrest.
  destruct (Nat.eqb_spec (String.length line) 0); [reflexivity |].
  assert (Hname : Libc.all_chars quiet (parseLine line).1 = true).
  { unfold parseLine.
    pose proof (all_chars_word quiet (Libc.skip_spaces line)
                  (all_chars_skip_spaces quiet line Hline)) as Hw.
    destruct (word (Libc.skip_spaces line)) as [name r]. cbn in Hw.
    now destruct r. }
  destruct (parseLine line) as [name value]. cbn in Hname.
  rewrite setting_quiet by exact Hname. apply IH; [exact Hrest | lia].
Qed.

End StaleSettingsProofs.

(** What [saveSettings] leaves in the settings file when the card takes
    the write: its text over the bytes that were there. *)
Lemma saveSettings_file a v s :
  FileSystem.initialized s = true ->
  FileSystem.open_ok a = true ->
  FileSystem.write_result a = FileSystem.AllBytes ->
  FileSystem.sync_ok a = true ->
  (FileSystem.saveSettings a v s).1.1 = true /\
  FileSystem.initialized (FileSystem.saveSettings a v s).1.2 = true /\
  FileSystem.card (FileSystem.saveSettings a v s).1.2
    !! FileSystem.SETTINGS_FILENAME
  = Some (FileSystem.overwrite
            (default "" (FileSystem.card s !! FileSystem.SETTINGS_FILENAME))
            0 (FileSystem.settings_text v)).
Proof.
  intros Hinit Ho Hw Hs.
  unfold FileSystem.saveSettings, FileSystem.sd_open, FileSystem.sd_write.
  remember (FileSystem.settings_text v) as buf eqn:Hbuf.
  rewrite Hinit, Ho, Hw, Hs. cbn [negb orb FileSystem.card
    FileSystem.set_cardErrorCode FileSystem.set_localErrorCode].
  destruct (FileSystem.card s !! FileSystem.SETTINGS_FILENAME)
    as [old|] eqn:E; cbn [FileSystem.path default].
  - rewrite E. cbn [negb orb FileSystem.position fst snd FileSystem.card
      FileSystem.set_card FileSystem.initialized FileSystem.set_cardErrorCode
      FileSystem.set_localErrorCode].
    now rewrite lookup_insert_eq.
  - rewrite lookup_insert_eq. cbn [negb orb FileSystem.position fst snd
      FileSystem.card FileSystem.set_card FileSystem.initialized
      FileSystem.set_cardErrorCode FileSystem.set_localErrorCode].
    now rewrite lookup_insert_eq.
Qed.

(** What [loadSettings] makes of the settings file when the card opens
    it: the loop over its lines. *)
Lemma loadSettings_file a v0 s content :
  FileSystem.initialized s = true ->
  FileSystem.open_ok a = true ->
  FileSystem.card s !! FileSystem.SETTINGS_FILENAME = Some content ->
  FileSystem.loadSettings a v0 s
  = match FileSystem.loadSettings_lines
            (S (String.length content)) content v0 with
    | Some v =>
        Some (true, v,
              [FileSystem.Open FileSystem.SETTINGS_FILENAME FileSystem.O_RDONLY;
               FileSystem.Close])
    | None => None
    end.
Proof.
  intros Hinit Ho Hc. unfold FileSystem.loadSettings, FileSystem.sd_open.
  rewrite Hinit, Ho. cbn [negb]. rewrite Hc. cbn [FileSystem.path].
  now rewrite Hc.
Qed.

(** The text of [saveSettings] written over a file that is no longer than
    the text, or over a settled one, is read back as the values written,
    and the file is then settled. *)
Lemma settings_text_over (old : string) (v v0 : FileSystem.settings) :
  FileSystem.settings_in_range v ->
  (String.length old <= String.length (FileSystem.settings_text v))%nat
  \/ FileSystem.settled old ->
  let new := FileSystem.overwrite old 0 (FileSystem.settings_text v) in
  FileSystem.loadSettings_lines (S (String.length new)) new v0 = Some v /\
  FileSystem.settled new.
Proof.
  intros [Hi Hb] Hold new.
  destruct (settings_text_shape v Hi Hb) as [Hlen Hset].
  destruct Hold as [Hshort | Hsettled].
  - subst new. rewrite overwrite_short by exact Hshort. split; [| exact Hset].
    replace (S (String.length (FileSystem.settings_text v)))
      with (4 + (String.length (FileSystem.settings_text v) - 3))%nat by lia.
    now apply loadSettings_lines_settings_text.
  - destruct (overwrite_settled old v Hi Hb Hsettled) as (Hov & Htail & Hnew).
    subst new. split; [| exact Hnew]. rewrite Hov, string_app_length.
    set (tail := FileSystem.drop _ old) in *.
    replace (S (String.length (FileSystem.settings_text v)
                + String.length tail))
      with (3 + (String.length (FileSystem.settings_text v)
                 + String.length tail - 2))%nat by lia.
    rewrite loadSettings_lines_settings_text_then by assumption.
    apply loadSettings_lines_quiet; [exact Htail | lia].
Qed.

(** On a card with no settings file, with one that is no longer than the
    text written, or with a settled one, the settings that [saveSettings]
    saved are the ones that [loadSettings] loads, and the file is then
    settled. *)
Lemma FileSystem_settings_round_trip a a' v v0 s :
  FileSystem.initialized s = true ->
  FileSystem.open_ok a = true ->
  FileSystem.write_result a = FileSystem.AllBytes ->
  FileSystem.sync_ok a = true ->
  FileSystem.open_ok a' = true ->
  FileSystem.settings_in_range v ->
  (forall old,
      FileSystem.card s !! FileSystem.SETTINGS_FILENAME = Some old ->
      (String.length old <= String.length (FileSystem.settings_text v))%nat
      \/ FileSystem.settled old) ->
  let s' := (FileSystem.saveSettings a v s).1.2 in
  (FileSystem.saveSettings a v s).1.1 = true /\
  FileSystem.loadSettings a' v0 s'
  = Some (true, v,
          [FileSystem.Open FileSystem.SETTINGS_FILENAME FileSystem.O_RDONLY;
           FileSystem.Close]) /\
  FileSystem.initialized s' = true /\
  exists new,
    FileSystem.card s' !! FileSystem.SETTINGS_FILENAME = Some new /\
    FileSystem.settled new.
Proof.
  intros Hinit Ho Hw Hs Ho' Hv Hold s'.
  destruct (saveSettings_file a v s Hinit Ho Hw Hs) as (Hok & Hinit' & Hfile).
  fold s' in Hinit', Hfile.
  assert (Hover : (String.length
                     (default "" (FileSystem.card s
                                    !! FileSystem.SETTINGS_FILENAME))
                   <= String.length (FileSystem.settings_text v))%nat
                  \/ FileSystem.settled
                       (default "" (FileSystem.card s
                                      !! FileSystem.SETTINGS_FILENAME))).
  { destruct (FileSystem.card s !! FileSystem.SETTINGS_FILENAME) as [old|];
      [now apply Hold | left; cbn; lia]. }
  destruct (settings_text_over _ v v0 Hv Hover) as [Hload Hnew].
  split; [exact Hok |]. split.
  - rewrite (loadSettings_file a' v0 s' _ Hinit' Ho' Hfile). now rewrite Hload.
  - split; [exact Hinit' |]. eexists. split; [exact Hfile | exact Hnew].
Qed.

(** X8. On a card that had no settings file, however many times
    settings were saved, the ones saved last are the ones loaded. *)
Lemma FileSystem_settings_round_trip_repeated a a' vs v v0 s :
  FileSystem.initialized s = true ->
  FileSystem.open_ok a = true ->
  FileSystem.write_result a = FileSystem.AllBytes ->
  FileSystem.sync_ok a = true ->
  FileSystem.open_ok a' = true ->
  Forall FileSystem.settings_in_range vs ->
  FileSystem.settings_in_range v ->
  FileSystem.card s !! FileSystem.SETTINGS_FILENAME = None ->
  let s' := FileSystem.saveSettings_each a vs s in
  (FileSystem.saveSettings a v s').1.1 = true /\
  FileSystem.loadSettings a' v0 (FileSystem.saveSettings a v s').1.2
  = Some (true, v,
          [FileSystem.Open FileSystem.SETTINGS_FILENAME FileSystem.O_RDONLY;
           FileSystem.Close]).
Proof.
  intros Hinit Ho Hw Hs Ho' Hvs Hv Hnone s'.
  assert (Hinv : FileSystem.initialized s' = true /\
                 forall old,
                   FileSystem.card s' !! FileSystem.SETTINGS_FILENAME
                   = Some old ->
                   FileSystem.settled old).
  { subst s'.
    assert (Hstart : forall old,
               FileSystem.card s !! FileSystem.SETTINGS_FILENAME = Some old ->
               FileSystem.settled old) by (intros old E; congruence).
    clear Hnone. revert s Hinit Hstart.
    induction Hvs as [|u vs Hu Hvs IH]; intros s Hinit Hstart;
      cbn [FileSystem.saveSettings_each]; [now split |].
    destruct (FileSystem_settings_round_trip a a' u v0 s Hinit Ho Hw Hs Ho' Hu)
      as (_ & _ & Hinit' & new & Hfile & Hnew);
      [intros old E; right; now apply Hstart |].
    apply IH; [exact Hinit' |]. intros old E. congruence. }
  destruct Hinv as [Hinit' Hsettled].
  destruct (FileSystem_settings_round_trip a a' v v0 s' Hinit' Ho Hw Hs Ho' Hv)
    as (Hok & Hload & _); [intros old E; right; now apply Hsettled |].
  now split.
Qed.

(** C5. On a card whose settings file was written by hand and is longer
    than the text that [saveSettings] writes, a successful [saveSettings]
    of an interval of 250 ms, burst size 1 and normal laser mode is
    followed by a [loadSettings] that returns an interval of 5000 ms and
    a burst size of 3: the file is opened without truncation, so the end
    of the old text stays behind the new text and is read after it. *)
Theorem FileSystem_settings_stale_tail :
  let s := Scenario.mounted
             {[ FileSystem.SETTINGS_FILENAME := Scenario.hand_written ]} in
  let saved := FileSystem.saveSettings Scenario.good Scenario.some_settings s in
  saved.1.1 = true /\
  FileSystem.card saved.1.2 !! FileSystem.SETTINGS_FILENAME
  = Some (FileSystem.settings_text Scenario.some_settings
          +:+ "tinuous 1" +:+ FileSystem.CRLF
          +:+ "burstsize 3" +:+ FileSystem.CRLF
          +:+ "interval 5000" +:+ FileSystem.CRLF) /\
  FileSystem.loadSettings Scenario.good Scenario.other_settings saved.1.2
  = Some (true,
          {| FileSystem.interval := 5000;
             FileSystem.isLaserContinuous := false;
             FileSystem.burstSize := 3 |},
          [FileSystem.Open FileSystem.SETTINGS_FILENAME FileSystem.O_RDONLY;
           FileSystem.Close]).
Proof. vm_compute. repeat split. Qed.

(** ** Commands *)

Section CommandsProofs.

Import Commands.

Variable k : sketch.

(** X15. While a run is going on, [lasermode], [burstsize], [camera]
    and [laser] with an argument print their refusal and do nothing
    else. *)
Lemma Commands_refused_while_running (command arg : string) (w : world) :
  getSoftwareStatus w = SOFTWARE_RUNNING ->
  arg <> "" ->
  command = "lasermode" \/ command = "burstsize" \/ command = "camera"
  \/ command = "laser" ->
  exists msg, In msg refusals /\ dispatch_command k command arg w = print msg w.
Proof.
  intros Hrun Harg Hc.
  assert (Ha : String.eqb arg "" = false) by now apply String.eqb_neq.
  destruct Hc as [-> | [-> | [-> | ->]]];
    unfold dispatch_command; cbn [String.eqb Ascii.eqb Bool.eqb String.prefix];
    [unfold lasermode_command | unfold burstsize_command
     | unfold camera_command | unfold laser_command];
    rewrite Ha, Hrun; cbn [Z.eqb Pos.eqb]; eexists; (split; [| reflexivity]);
    unfold refusals; cbn [In]; tauto.
Qed.

(** No message that starts with another letter than C is a refusal. *)
Lemma not_a_refusal (c : ascii) (rest : string) :
  Ascii.eqb c "C" = false -> ~ In (String c rest) refusals.
Proof.
  intros Hc Hin. unfold refusals, crlf in Hin. cbn [In] in Hin.
  repeat (destruct Hin as [Hin | Hin];
          [rewrite string_app_cons in Hin; injection Hin as <- _;
           discriminate |]).
  exact Hin.
Qed.


(** The [snap] command with an argument of one or less asks for a burst
    of one. *)
Lemma Commands_snap_at_least_one (arg : string) (w : world) :
  arg <> "" -> uint16 (Libc.atoi arg) <= 1 ->
  dispatch_command k "snap" arg w = snap k 1 w.
Proof.
  intros Harg Hn.
  assert (Ha : String.eqb arg "" = false) by now apply String.eqb_neq.
  unfold dispatch_command. cbn [String.eqb Ascii.eqb Bool.eqb String.prefix].
  unfold snap_command. rewrite Ha.
  destruct (Z.leb_spec (uint16 (Libc.atoi arg)) 1); [reflexivity | lia].
Qed.

End CommandsProofs.


Example Commands_others_refused_while_running :
  let w := Scenario.running in
  Commands.dispatch Scenario.sketch "burstsize 3" w
  = Commands.print
      (Commands.crlf "Cannot change burst size while imaging is progress.") w /\
  Commands.dispatch Scenario.sketch "lasermode normal" w
  = Commands.print
      (Commands.crlf "Cannot change laser mode while imaging is in progress.") w /\
  Commands.dispatch Scenario.sketch "camera forceoff" w
  = Commands.print
      (Commands.crlf "Cannot change camera on/off while imaging is in progress.")
      w /\
  Commands.dispatch Scenario.sketch "laser off" w
  = Commands.print
      (Commands.crlf "Cannot change laser on/off while imaging is in progress.")
      w.
Proof. vm_compute. repeat split. Qed.

(** ** The shutter and the snap command *)




(** * More of the firmware *)

(** ** cat, head and tail *)

Section ReadBackProofs.

Import FileSystem.

Lemma take_drop (s : string) : forall n, take n s +:+ drop n s = s.
Proof.
  induction s as [|c s IH]; intros [|n]; try reflexivity.
  cbn [take drop]. rewrite string_app_cons. now rewrite IH.
Qed.

Lemma take_length (s : string) :
  forall n, String.length (take n s) = Nat.min n (String.length s).
Proof.
  induction s as [|c s IH]; intros [|n]; try reflexivity.
  cbn [take String.length Nat.min]. now rewrite IH.
Qed.

Lemma drop_length (s : string) :
  forall n, String.length (drop n s) = (String.length s - n)%nat.
Proof.
  induction s as [|c s IH]; intros [|n]; try reflexivity.
  cbn [drop String.length Nat.sub]. apply IH.
Qed.

Lemma all_chars_take (p : ascii -> bool) (s : string) :
  forall n, Libc.all_chars p s = true -> Libc.all_chars p (take n s) = true.
Proof.
  induction s as [|c s IH]; intros [|n] H; try reflexivity.
  cbn [take Libc.all_chars] in *. apply andb_prop in H as [Hc H].
  now rewrite Hc, IH.
Qed.

(** A buffer of text is printed whole. *)
Lemma cstr_text (s : string) :
  Libc.all_chars text_char s = true -> cstr s = s.
Proof.
  induction s as [|c s IH]; intros H; [reflexivity |].
  cbn [Libc.all_chars cstr] in *. apply andb_prop in H as [Hc H].
  unfold text_char in Hc. apply negb_true_iff in Hc. rewrite Hc.
  now rewrite IH.
Qed.

Lemma joined_app (a b : list string) : joined (a ++ b) = joined a +:+ joined b.
Proof.
  induction a as [|x a IH]; cbn [joined app];
    [now rewrite string_app_empty_l |].
  now rewrite IH, string_app_assoc.
Qed.

(** The print loop prints what is left of a text file, in pieces of at
    most 1024 bytes, and ends with [nBytes] at 0. *)
Lemma print_rest_text (fuel : nat) :
  forall rest buf,
    (String.length rest < fuel)%nat ->
    Libc.all_chars text_char rest = true ->
    exists prints b,
      print_rest fuel rest buf = Some (prints, 0, b) /\
      joined prints = rest /\
      Forall (fun p => (String.length p <= 1024)%nat) prints.
Proof.
  induction fuel as [|fuel IH]; intros rest buf Hl Ht; [lia |].
  cbn [print_rest]. unfold sd_read.
  change (Z.to_nat (BUFFER_SIZE - 1)) with 1024%nat.
  destruct rest as [|c rest].
  - cbn. exists [], buf. repeat split. constructor.
  - set (r := String c rest) in *.
    assert (Hn : (0 <? Z.of_nat (String.length (take 1024 r))) = true).
    { apply Z.ltb_lt. rewrite take_length. subst r. cbn. lia. }
    rewrite Hn. cbn [negb].
    destruct (IH (drop 1024 r) (take 1024 r)) as (prints & b & E & Hj & Hf).
    + rewrite drop_length. subst r. cbn [String.length] in *. lia.
    + now apply all_chars_drop.
    + rewrite E. exists (cstr (take 1024 r) :: prints), b.
      split; [reflexivity |]. split.
      * cbn [joined]. rewrite Hj, cstr_text by now apply all_chars_take.
        apply take_drop.
      * constructor; [| exact Hf].
        rewrite cstr_text by now apply all_chars_take.
        rewrite take_length. lia.
Qed.

Lemma open_to_read_file a p s content :
  open_ok a = true -> card s !! p = Some content ->
  open_to_read a p s = Some content.
Proof.
  intros Ho Hc. unfold open_to_read, sd_open. rewrite Ho, Hc. cbn.
  exact Hc.
Qed.

Lemma open_to_read_missing a p s :
  card s !! p = None -> open_to_read a p s = None.
Proof.
  intros Hc. unfold open_to_read, sd_open. rewrite Hc.
  now destruct (negb (open_ok a)).
Qed.


Lemma count_lf_app (a b : string) :
  count_lf (a +:+ b) = (count_lf a + count_lf b)%nat.
Proof.
  induction a as [|c a IH]; [now rewrite string_app_empty_l |].
  rewrite string_app_cons. cbn [count_lf]. destruct (Ascii.eqb c LF); lia.
Qed.

Lemma take_app_le (a b : string) :
  forall n, (n <= String.length a)%nat -> take n (a +:+ b) = take n a.
Proof.
  induction a as [|c a IH]; intros n H.
  - destruct n; [| cbn in H; lia]. rewrite string_app_empty_l.
    now destruct b.
  - destruct n as [|n]; [reflexivity |].
    rewrite string_app_cons. cbn [take]. rewrite IH; [reflexivity |].
    cbn in H. lia.
Qed.

Lemma take_app_ge (a b : string) :
  forall n, (String.length a <= n)%nat ->
            take n (a +:+ b) = a +:+ take (n - String.length a) b.
Proof.
  induction a as [|c a IH]; intros n H.
  - rewrite !string_app_empty_l. cbn. now rewrite Nat.sub_0_r.
  - destruct n as [|n]; [cbn in H; lia |].
    rewrite !string_app_cons. cbn [take String.length Nat.sub].
    rewrite IH; [reflexivity |]. cbn in H. lia.
Qed.

Lemma drop_app_le (a b : string) :
  forall n, (n <= String.length a)%nat ->
            drop n (a +:+ b) = drop n a +:+ b.
Proof.
  induction a as [|c a IH]; intros n H.
  - destruct n; [| cbn in H; lia]. now rewrite string_app_empty_l.
  - destruct n as [|n]; [reflexivity |].
    rewrite string_app_cons. cbn [drop]. apply IH. cbn in H. lia.
Qed.

Lemma count_lf_take_drop (s : string) (n : nat) :
  count_lf s = (count_lf (take n s) + count_lf (drop n s))%nat.
Proof. now rewrite <- count_lf_app, take_drop. Qed.

(** The buffer cut behind its first [String.length pre] bytes prints as
    those bytes. *)
Lemma cstr_put (pre suf : string) :
  Libc.all_chars text_char pre = true ->
  cstr (put (String.length pre) NUL (pre +:+ suf)) = pre.
Proof.
  induction pre as [|c pre IH]; intros H.
  - rewrite string_app_empty_l. now destruct suf.
  - rewrite string_app_cons. cbn [String.length put cstr Libc.all_chars] in *.
    apply andb_prop in H as [Hc H].
    unfold text_char in Hc. apply negb_true_iff in Hc. rewrite Hc.
    now rewrite IH.
Qed.

Lemma uint32_small (z : Z) : 0 <= z < 2 ^ 32 -> uint32 z = z.
Proof. intros H. now apply Z.mod_small. Qed.

(** The scan of a buffer in [head]: it counts the line feeds, and stops
    behind the one that makes ten. *)
Lemma head_scan_spec (bytes : string) :
  forall i nLines,
    0 <= nLines < HEAD_LINES ->
    ((Z.of_nat (count_lf bytes) < HEAD_LINES - nLines ->
      head_scan bytes i nLines
      = (nLines + Z.of_nat (count_lf bytes), None)) /\
     (forall before after,
         bytes = before +:+ String LF after ->
         Z.of_nat (count_lf before) = HEAD_LINES - nLines - 1 ->
         head_scan bytes i nLines
         = (HEAD_LINES, Some (i + String.length before + 1)%nat))).
Proof.
  unfold HEAD_LINES.
  induction bytes as [|c bytes IH]; intros i nLines Hn; split.
  - intros _. cbn. f_equal. lia.
  - intros before after E. destruct before; discriminate.
  - intros Hc. cbn [head_scan count_lf] in *. unfold HEAD_LINES.
    destruct (Ascii.eqb c LF) eqn:Ec.
    + rewrite uint32_small by (powers; lia).
      destruct (Z.leb_spec 10 (nLines + 1)) as [Hge | Hlt]; [lia |].
      destruct (IH (S i) (nLines + 1) ltac:(lia)) as [H _].
      rewrite H by lia. f_equal. lia.
    + destruct (IH (S i) nLines Hn) as [H _]. now rewrite H.
  - intros before after E Hc. cbn [head_scan]. unfold HEAD_LINES.
    destruct before as [|b before].
    + rewrite string_app_empty_l in E. injection E as -> ->.
      change (Ascii.eqb LF LF) with true. cbn [count_lf] in Hc.
      rewrite uint32_small by (powers; lia).
      destruct (Z.leb_spec 10 (nLines + 1)) as [Hge | Hlt]; [| lia].
      cbn [String.length]. do 2 f_equal; lia.
    + rewrite string_app_cons in E. injection E as -> ->.
      cbn [count_lf String.length] in *.
      destruct (Ascii.eqb b LF) eqn:Eb.
      * rewrite uint32_small by (powers; lia).
        destruct (Z.leb_spec 10 (nLines + 1)) as [Hge | Hlt]; [lia |].
        destruct (IH (S i) (nLines + 1) ltac:(lia)) as [_ H].
        rewrite (H before after eq_refl) by lia. do 2 f_equal. lia.
      * destruct (IH (S i) nLines Hn) as [_ H].
        rewrite (H before after eq_refl) by lia. do 2 f_equal. lia.
Qed.

(** The loop of [head] over what is left of a text file. *)
Lemma head_loop_spec (fuel : nat) :
  forall rest nLines nBytes buf,
    0 <= nLines < HEAD_LINES ->
    (String.length rest < fuel)%nat ->
    Libc.all_chars text_char rest = true ->
    (Z.of_nat (count_lf rest) < HEAD_LINES - nLines ->
     exists prints b,
       head_loop fuel rest nLines nBytes buf = Some (prints, 0, b) /\
       joined prints = rest) /\
    (forall before after,
        rest = before +:+ String LF after ->
        Z.of_nat (count_lf before) = HEAD_LINES - nLines - 1 ->
        exists prints n b,
          head_loop fuel rest nLines nBytes buf = Some (prints, n, b) /\
          joined prints = before +:+ String LF "").
Proof.
  induction fuel as [|fuel IH]; intros rest nLines nBytes buf Hn Hl Ht; [lia |].
  cbn [head_loop]. unfold sd_read.
  change (Z.to_nat (BUFFER_SIZE - 1)) with 1024%nat.
  destruct (Z.ltb_spec nLines HEAD_LINES) as [_ | ?]; [| lia]. cbn [negb].
  destruct rest as [|c rest].
  { split.
    - intros _. cbn. now exists [], buf.
    - intros before after E. destruct before; discriminate. }
  set (r := String c rest) in *.
  assert (Hpos : (0 <? Z.of_nat (String.length (take 1024 r))) = true).
  { apply Z.ltb_lt. rewrite take_length. subst r. cbn. lia. }
  rewrite Hpos. cbn [negb].
  assert (Hshort : (String.length (drop 1024 r) < fuel)%nat).
  { rewrite drop_length. subst r. cbn [String.length] in *. lia. }
  pose proof (all_chars_take text_char r 1024 Ht) as Htake.
  pose proof (all_chars_drop text_char r 1024 Ht) as Hdrop.
  pose proof (count_lf_take_drop r 1024) as Hcount.
  destruct (head_scan_spec (take 1024 r) 0 nLines Hn) as [Hnone Hcut].
  split.
  - intros Hc. rewrite Hnone by lia.
    destruct (IH (drop 1024 r) (nLines + Z.of_nat (count_lf (take 1024 r)))
                (Z.of_nat (String.length (take 1024 r))) (take 1024 r)
                ltac:(unfold HEAD_LINES in *; lia) Hshort Hdrop) as [H _].
    destruct H as (prints & b & E & Hj); [unfold HEAD_LINES in *; lia |].
    rewrite E. eexists _, _. split; [reflexivity |].
    cbn [joined]. rewrite Hj, cstr_text by exact Htake. apply take_drop.
  - intros before after E Hc.
    destruct (Nat.lt_ge_cases (String.length before) 1024) as [Hin | Hout].
    + (* the tenth line feed is in this buffer *)
      assert (Echunk : take 1024 r
                       = (before +:+ String LF "")
                         +:+ take (1024 - String.length before - 1) after).
      { rewrite E.
        change (before +:+ String LF after)
          with (before +:+ (String LF "" +:+ after)).
        rewrite <- string_app_assoc, take_app_ge
          by (rewrite string_app_length; cbn; lia).
        rewrite string_app_length. cbn [String.length].
        do 2 f_equal. lia. }
      rewrite (Hcut before (take (1024 - String.length before - 1) after))
        by (rewrite ?Echunk, ?string_app_assoc; first [reflexivity | lia]).
      cbn [Nat.add].
      destruct fuel as [|fuel]; [lia |]. cbn [head_loop].
      destruct (Z.ltb_spec HEAD_LINES HEAD_LINES) as [? | _]; [lia |].
      cbn [negb]. eexists _, _, _. split; [reflexivity |].
      cbn [joined]. rewrite string_app_empty_r.
      replace (String.length before + 1)%nat
        with (String.length (before +:+ String LF ""))
        by (rewrite string_app_length; reflexivity).
      rewrite Echunk. apply cstr_put.
      rewrite E in Ht. rewrite all_chars_app in *.
      apply andb_prop in Ht as [Hb Ha]. rewrite Hb. cbn in *.
      reflexivity.
    + (* it is further on *)
      assert (Etake : take 1024 r = take 1024 before)
        by (rewrite E; now apply take_app_le).
      assert (Edrop : drop 1024 r = drop 1024 before +:+ String LF after)
        by (rewrite E; now apply drop_app_le).
      pose proof (count_lf_take_drop before 1024) as Hcb.
      rewrite Hnone by (rewrite Etake; lia).
      destruct (IH (drop 1024 r) (nLines + Z.of_nat (count_lf (take 1024 r)))
                  (Z.of_nat (String.length (take 1024 r))) (take 1024 r)
                  ltac:(rewrite Etake; unfold HEAD_LINES in *; lia)
                  Hshort Hdrop) as [_ H].
      destruct (H (drop 1024 before) after Edrop) as (prints & n & b & E' & Hj);
        [rewrite Etake; lia |].
      rewrite E'. eexists _, _, _. split; [reflexivity |].
      cbn [joined]. rewrite Hj, cstr_text by exact Htake.
      rewrite Etake, <- string_app_assoc. now rewrite take_drop.
Qed.

Lemma card_check_present a s :
  initialized s = true -> 0 < uint32 (sectorCount a) ->
  card_check a s = (true, clear_errors s).
Proof.
  intros Hi Hs. unfold card_check, isCardPresent. rewrite Hi. cbn [negb].
  destruct (Z.ltb_spec 0 (uint32 (sectorCount a))); [reflexivity | lia].
Qed.

Lemma final_newline_cases (n : Z) (buf : string) :
  final_newline n buf = [] \/ final_newline n buf = [CRLF].
Proof. unfold final_newline. destruct (_ && _); auto. Qed.

(** X2. [head] of a text file with fewer than ten line feeds prints the
    file as it is. Of a file with ten or more it prints the bytes up to
    and with the tenth line feed, and then nothing more or one CR LF.
    The card is present and the file opens. *)
Theorem FileSystem_head_first_lines a p s content :
  initialized s = true ->
  0 < uint32 (sectorCount a) ->
  open_ok a = true ->
  card s !! p = Some content ->
  Libc.all_chars text_char content = true ->
  ((count_lf content < 10)%nat ->
   exists s' prints,
     head a p s = Some (uint8 (sdErrorCode a) =? 0, s', prints) /\
     joined prints = content) /\
  (forall before after,
      content = before +:+ String LF after ->
      count_lf before = 9%nat ->
      exists s' prints extra,
        head a p s = Some (uint8 (sdErrorCode a) =? 0, s', prints) /\
        joined prints = before +:+ String LF "" +:+ extra /\
        (extra = "" \/ extra = CRLF)).
Proof.
  intros Hi Hs Ho Hc Ht. unfold head.
  rewrite card_check_present by assumption. cbn [negb].
  rewrite (open_to_read_file a p _ content Ho) by exact Hc.
  destruct (head_loop_spec (S (String.length content)) content 0 0 ""
              ltac:(unfold HEAD_LINES; lia) ltac:(lia) Ht) as [Hfew Hten].
  split.
  - intros Hn. destruct Hfew as (prints & b & E & Hj);
      [unfold HEAD_LINES; lia |].
    rewrite E. cbn [read_status].
    eexists _, _. split; [reflexivity |].
    unfold final_newline. change (0 <? 0) with false. cbn [andb].
    now rewrite app_nil_r.
  - intros before after E Hn.
    destruct (Hten before after E) as (prints & n & b & E' & Hj);
      [unfold HEAD_LINES; lia |].
    rewrite E'. cbn [read_status].
    eexists _, _, (joined (final_newline n b)).
    split; [reflexivity |]. split.
    + now rewrite joined_app, Hj, string_app_assoc.
    + destruct (final_newline_cases n b) as [-> | ->]; [now left | right].
      cbn. now rewrite string_app_empty_r.
Qed.

(** *** tail *)

Lemma string_snoc_cases (s : string) :
  s = "" \/ exists s' c, s = s' +:+ String c "".
Proof.
  induction s as [|c s IH]; [now left | right].
  destruct IH as [-> | (s' & d & ->)].
  - now exists "", c.
  - exists (String c s'), d. now rewrite string_app_cons.
Qed.

Lemma string_snoc_inj (a b : string) (c d : ascii) :
  a +:+ String c "" = b +:+ String d "" -> a = b /\ c = d.
Proof.
  revert b. induction a as [|x a IH]; intros [|y b] E.
  - rewrite !string_app_empty_l in E. now injection E.
  - rewrite string_app_empty_l, string_app_cons in E. injection E as _ E.
    destruct b; discriminate.
  - rewrite string_app_empty_l, string_app_cons in E. injection E as _ E.
    destruct a; discriminate.
  - rewrite !string_app_cons in E. injection E as -> E.
    destruct (IH b E) as [-> ->]. now split.
Qed.

Lemma take_S (s : string) :
  forall i, (i < String.length s)%nat ->
            take (S i) s = take i s +:+ String (byte_at (Z.of_nat i) s) "".
Proof.
  unfold byte_at.
  induction s as [|c s IH]; intros i H; [cbn in H; lia |].
  rewrite Nat2Z.id. destruct i as [|i].
  - cbn. now destruct s.
  - cbn [take String.get]. rewrite string_app_cons. f_equal.
    specialize (IH i ltac:(cbn in H; lia)). rewrite Nat2Z.id in IH.
    exact IH.
Qed.

(** A string has at most [m] line feeds, or it can be cut at the line
    feed that has exactly [m] behind it. *)
Lemma count_lf_cut (s : string) (m : nat) :
  (count_lf s <= m)%nat
  \/ exists before after,
       s = before +:+ String LF after /\ count_lf after = m.
Proof.
  induction s as [|c s IH]; [left; cbn; lia |].
  destruct IH as [Hle | (before & after & -> & Hm)].
  - cbn [count_lf]. destruct (Ascii.eqb_spec c LF) as [-> | Hc].
    + destruct (Nat.eq_dec (count_lf s) m) as [E | E].
      * right. exists "", s. now rewrite string_app_empty_l.
      * left. lia.
    + left. exact Hle.
  - right. exists (String c before), after.
    now rewrite string_app_cons.
Qed.

(** The scan of a buffer in [tail], from index [steps - 1] down: it
    counts the line feeds, and stops at the one that makes eleven. *)
Lemma tail_scan_spec (buf : string) (steps : nat) :
  forall nLines,
    0 <= nLines <= TAIL_LINES ->
    (steps <= String.length buf)%nat ->
    ((Z.of_nat (count_lf (take steps buf)) + nLines <= TAIL_LINES ->
      tail_scan buf steps nLines
      = (nLines + Z.of_nat (count_lf (take steps buf)), None)) /\
     (forall before after,
         take steps buf = before +:+ String LF after ->
         Z.of_nat (count_lf after) + nLines = TAIL_LINES ->
         tail_scan buf steps nLines
         = (TAIL_LINES + 1, Some (String.length before)))).
Proof.
  unfold TAIL_LINES.
  induction steps as [|i IH]; intros nLines Hn Hl.
  { split.
    - intros _. cbn. f_equal. destruct buf; cbn; lia.
    - intros before after E. exfalso.
      assert (H : take 0 buf = "") by now destruct buf.
      rewrite H in E. destruct before; discriminate. }
  rewrite (take_S buf i) by lia. cbn [tail_scan]. unfold TAIL_LINES.
  set (c := byte_at (Z.of_nat i) buf).
  destruct (IH nLines Hn ltac:(lia)) as [IHnone IHcut].
  split.
  - intros Hc. rewrite count_lf_app in Hc |- *. cbn [count_lf] in *.
    destruct (Ascii.eqb c LF) eqn:Ec.
    + rewrite uint32_small by (powers; lia).
      destruct (Z.ltb_spec 10 (nLines + 1)) as [Hgt | Hle]; [lia |].
      destruct (IH (nLines + 1) ltac:(lia) ltac:(lia)) as [H _].
      rewrite H by lia. f_equal. lia.
    + rewrite IHnone by lia. f_equal. lia.
  - intros before after E Hc.
    destruct (string_snoc_cases after) as [-> | (after' & d & ->)].
    + (* the line feed is the byte at [i] *)
      apply string_snoc_inj in E as [E Ec]. rewrite Ec.
      change (Ascii.eqb LF LF) with true. cbn [count_lf] in Hc.
      rewrite uint32_small by (powers; lia).
      destruct (Z.ltb_spec 10 (nLines + 1)) as [Hgt | Hle]; [| lia].
      rewrite <- E, take_length. do 2 f_equal; lia.
    + change (before +:+ String LF (after' +:+ String d ""))
        with (before +:+ (String LF after' +:+ String d "")) in E.
      rewrite <- string_app_assoc in E.
      apply string_snoc_inj in E as [E Ec]. rewrite Ec.
      rewrite count_lf_app in Hc. cbn [count_lf] in Hc.
      destruct (Ascii.eqb d LF) eqn:Ed.
      * rewrite uint32_small by (powers; lia).
        destruct (Z.ltb_spec 10 (nLines + 1)) as [Hgt | Hle]; [lia |].
        destruct (IH (nLines + 1) ltac:(lia) ltac:(lia)) as [_ H].
        apply (H before after' E). lia.
      * apply (IHcut before after' E). lia.
Qed.

Lemma drop_step (s : string) (k : nat) :
  (drop k s = "" /\ drop (S k) s = "")
  \/ exists c, drop k s = String c (drop (S k) s).
Proof.
  revert k. induction s as [|c s IH]; intros k.
  - left. now destruct k.
  - destruct k as [|k]; [right; now exists c |]. cbn [drop]. apply IH.
Qed.

Lemma count_lf_drop_S (s : string) (k : nat) :
  (count_lf (drop (S k) s) <= count_lf (drop k s)
   <= 1 + count_lf (drop (S k) s))%nat.
Proof.
  destruct (drop_step s k) as [[-> ->] | (c & ->)]; cbn [count_lf]; [lia |].
  destruct (Ascii.eqb c LF); lia.
Qed.

Lemma byte_at_drop (s : string) :
  forall k i, byte_at (Z.of_nat i) (drop k s) = byte_at (Z.of_nat (k + i)) s.
Proof.
  unfold byte_at. intros k i. rewrite !Nat2Z.id. revert k.
  induction s as [|c s IH]; intros k.
  - destruct k; cbn; now destruct i.
  - destruct k as [|k]; [reflexivity |]. cbn [drop Nat.add String.get].
    apply IH.
Qed.

Lemma byte_at_app (a : string) (c : ascii) (b : string) :
  byte_at (Z.of_nat (String.length a)) (a +:+ String c b) = c.
Proof.
  unfold byte_at. rewrite Nat2Z.id.
  induction a as [|x a IH]; [reflexivity |].
  rewrite string_app_cons. cbn [String.length String.get]. exact IH.
Qed.

(** The first loop of [tail] ends, at an offset where [tail] may start to
    print. What is known at the head of a turn: the bytes from
    [offset + nToRead] on have been looked at but for one byte in 1025,
    and [nLines] of them are line feeds. *)
Lemma tail_seek_spec (content : string) (fuel : nat) :
  forall (o n : nat) (nLines : Z),
    (o < fuel)%nat ->
    (n <= 1024)%nat ->
    (o + n <= String.length content)%nat ->
    0 <= nLines <= TAIL_LINES ->
    o = O \/ n = 1024%nat ->
    nLines <= Z.of_nat (count_lf (drop (o + n) content))
    <= nLines + Z.of_nat (String.length content - (o + n)) / 1025 ->
    exists off,
      tail_seek fuel content (Z.of_nat o) (Z.of_nat n) nLines
      = Some (Z.of_nat off) /\
      tail_start content off.
Proof.
  unfold TAIL_LINES.
  induction fuel as [|fuel IH]; intros o n nLines Hf Hn Hon Hl Hor Hc; [lia |].
  cbn [tail_seek]. unfold sd_read, TAIL_LINES, BUFFER_SIZE.
  destruct (Z.leb_spec nLines 10) as [_ | ?]; [| lia]. cbn [negb fst].
  rewrite !Nat2Z.id.
  remember (take n (drop o content)) as chunk eqn:Echk.
  assert (Hlen : String.length chunk = n).
  { rewrite Echk, take_length, drop_length. lia. }
  assert (Hsplit : drop o content = chunk +:+ drop (o + n) content).
  { rewrite Echk, drop_add. symmetry. apply take_drop. }
  assert (Hcount : count_lf (drop o content)
                   = (count_lf chunk + count_lf (drop (o + n) content))%nat).
  { now rewrite Hsplit, count_lf_app. }
  rewrite Hlen.
  destruct (Z.ltb_spec 0 (Z.of_nat n)) as [Hpos | Hzero]; cbn [negb].
  2:{ (* nothing to read: the offset is 0 *)
    assert (Hn0 : n = O) by lia. assert (Ho0 : o = O) by lia.
    exists O. split; [now rewrite Ho0 |].
    rewrite Ho0, Hn0 in Hc. cbn [Nat.add] in Hc.
    unfold tail_start. rewrite drop_0, Nat.sub_0_r in *.
    split; [lia |]. split; [now left | lia]. }
  destruct (tail_scan_spec chunk n nLines ltac:(unfold TAIL_LINES; lia)
              ltac:(lia)) as [Hnone Hcut].
  rewrite <- Hlen, take_all, Hlen in Hnone, Hcut. unfold TAIL_LINES in *.
  destruct (count_lf_cut chunk (Z.to_nat (10 - nLines)))
    as [Hfew | (before & after & Echunk & Hafter)].
  - (* no eleventh line feed in this buffer *)
    rewrite Hnone by lia.
    set (nLines' := nLines + Z.of_nat (count_lf chunk)).
    destruct (Z.ltb_spec 10 nLines') as [? | _]; [subst nLines'; lia |].
    cbn [orb].
    destruct (Z.eqb_spec (Z.of_nat o) 0) as [Ho | Ho].
    + assert (Ho0 : o = O) by lia. exists O. split; [now rewrite Ho0 |].
      rewrite Ho0 in Hc, Hcount. cbn [Nat.add] in Hc, Hcount.
      unfold tail_start. rewrite drop_0 in *. rewrite Nat.sub_0_r.
      split; [lia |]. split; [now left |].
      rewrite Hcount. subst nLines'.
      assert (Z.of_nat (String.length content - n) / 1025
              <= Z.of_nat (String.length content) / 1025)
        by (apply Z.div_le_mono; lia).
      lia.
    + assert (n = 1024%nat) by lia. subst n.
      destruct o as [|o']; [lia |].
      pose proof (count_lf_drop_S content o') as Hmono.
      assert (Hnext :
        nLines' <= Z.of_nat (count_lf (drop o' content))
        <= nLines'
           + Z.of_nat (String.length content - o') / 1025).
      { subst nLines'.
        replace (String.length content - o')%nat
          with (String.length content - (S o' + 1024) + 1025)%nat by lia.
        rewrite Nat2Z.inj_add. Z.div_mod_to_equations. lia. }
      destruct (Z.ltb_spec (Z.of_nat (S o') - 1025) 0) as [Hneg | Hnn].
      * destruct (IH O o' nLines') as (off & E & R);
          try first [lia | now left | exact Hnext].
        exists off. split; [| exact R].
        rewrite <- E. f_equal; lia.
      * destruct (IH (S o' - 1025)%nat 1024%nat nLines')
          as (off & E & R); try first [lia | now right].
        { replace (S o' - 1025 + 1024)%nat with o' by lia. exact Hnext. }
        exists off. split; [| exact R].
        rewrite <- E. f_equal; lia.
  - (* the eleventh line feed from the end is in this buffer *)
    rewrite (Hcut before after Echunk) by lia.
    change (10 <? 10 + 1) with true. cbn [orb].
    exists (o + String.length before + 1)%nat.
    split; [f_equal; lia |].
    assert (Hbl : (String.length before + 1 + String.length after = n)%nat).
    { rewrite <- Hlen, Echunk, string_app_length. cbn. lia. }
    assert (Hdrop : drop (o + String.length before + 1) content
                    = after +:+ drop (o + n) content).
    { replace (o + String.length before + 1)%nat
        with (o + (String.length before + 1))%nat by lia.
      rewrite drop_add, Hsplit, Echunk.
      change (before +:+ String LF after)
        with (before +:+ (String LF "" +:+ after)).
      rewrite <- (string_app_assoc before), string_app_assoc.
      rewrite drop_app_ge by (rewrite string_app_length; cbn; lia).
      rewrite string_app_length. cbn [String.length].
      replace (String.length before + 1 - (String.length before + 1))%nat
        with O by lia.
      apply drop_0. }
    unfold tail_start. rewrite Hdrop, count_lf_app.
    split; [lia |]. split.
    + right. split; [| lia].
      replace (Z.of_nat (o + String.length before + 1) - 1)
        with (Z.of_nat (o + String.length before)) by lia.
      rewrite <- byte_at_drop, Hsplit, Echunk, string_app_assoc.
      change (String LF after +:+ drop (o + n) content)
        with (String LF (after +:+ drop (o + n) content)).
      apply byte_at_app.
    + assert (Z.of_nat (String.length content - (o + n)) / 1025
              <= Z.of_nat (String.length content
                           - (o + String.length before + 1)) / 1025).
      { apply Z.div_le_mono; lia. }
      lia.
Qed.

Lemma tail_offset_spec (content : string) :
  exists off,
    tail_offset content = Some (Z.of_nat off) /\ tail_start content off.
Proof.
  unfold tail_offset, BUFFER_SIZE.
  set (size := String.length content).
  assert (Hend : forall o n, (o + n)%nat = size ->
                             count_lf (drop (o + n) content) = O).
  { intros o n ->. unfold size. now rewrite drop_all. }
  destruct (Z.ltb_spec (Z.of_nat size - (1025 - 1)) 0) as [Hsmall | Hbig].
  - destruct (tail_seek_spec content (S size) O size 0) as (off & E & R);
      try first [lia | now left | unfold TAIL_LINES; lia].
    { rewrite Hend by reflexivity. cbn [Nat.add]. fold size.
      rewrite Nat.sub_diag. Z.div_mod_to_equations. lia. }
    exists off. split; [| exact R]. rewrite <- E. f_equal. lia.
  - destruct (tail_seek_spec content (S size) (size - 1024) 1024 0)
      as (off & E & R);
      try first [lia | now right | unfold TAIL_LINES; lia].
    { rewrite Hend by lia. fold size.
      replace (size - (size - 1024 + 1024))%nat with O by lia.
      Z.div_mod_to_equations. lia. }
    exists off. split; [| exact R]. rewrite <- E. f_equal; lia.
Qed.

(** X4. [tail] of a text file prints the file from an offset on that is
    0 or just behind a line feed. When it is not 0, ten line feeds or
    more are printed; in both cases at most ten and one for every 1025
    bytes printed, since one byte between two buffers is not looked at.
    The card is present and the file opens. *)
Theorem FileSystem_tail_last_lines a p s content :
  initialized s = true ->
  0 < uint32 (sectorCount a) ->
  open_ok a = true ->
  card s !! p = Some content ->
  Libc.all_chars text_char content = true ->
  exists off s' prints,
    tail a p s = Some (uint8 (sdErrorCode a) =? 0, s', prints) /\
    joined prints = drop off content /\
    tail_start content off.
Proof.
  intros Hi Hs Ho Hc Ht. unfold tail.
  rewrite card_check_present by assumption. cbn [negb].
  rewrite (open_to_read_file a p _ content Ho) by exact Hc.
  destruct (tail_offset_spec content) as (off & E & R). rewrite E.
  rewrite Nat2Z.id.
  destruct (print_rest_text (S (String.length content)) (drop off content) ""
              ltac:(rewrite drop_length; lia)
              ltac:(now apply all_chars_drop))
    as (prints & b & E' & Hj & _).
  rewrite E'. cbn [read_status].
  exists off. eexists _, _. split; [reflexivity |].
  unfold final_newline. change (0 <? 0) with false. cbn [andb].
  rewrite app_nil_r. now split.
Qed.

Lemma drop_byte (s : string) :
  forall k, (k < String.length s)%nat ->
            drop k s = String (byte_at (Z.of_nat k) s) (drop (S k) s).
Proof.
  unfold byte_at. intros k. rewrite Nat2Z.id. revert k.
  induction s as [|c s IH]; intros k H; [cbn in H; lia |].
  destruct k as [|k]; [reflexivity |]. cbn [drop String.get].
  apply IH. cbn in H. lia.
Qed.

Lemma count_lf_drop_le (s : string) (k : nat) :
  (count_lf (drop k s) <= count_lf s)%nat.
Proof.
  induction k as [|k IH]; [now rewrite drop_0 |].
  pose proof (count_lf_drop_S s k). lia.
Qed.

Lemma count_lf_behind (s : string) (off : nat) :
  (1 <= off <= String.length s)%nat ->
  byte_at (Z.of_nat off - 1) s = LF ->
  (count_lf (drop off s) + 1 <= count_lf s)%nat.
Proof.
  intros H Hb. destruct off as [|k]; [lia |].
  replace (Z.of_nat (S k) - 1) with (Z.of_nat k) in Hb by lia.
  pose proof (drop_byte s k ltac:(lia)) as E. rewrite Hb in E.
  pose proof (count_lf_drop_le s k) as Hle. rewrite E in Hle.
  cbn [count_lf] in Hle. change (Ascii.eqb LF LF) with true in Hle.
  cbv iota in Hle. lia.
Qed.

(** X3. [tail] of a text file of at most 1024 bytes prints the file as it
    is when it has ten line feeds or fewer, and otherwise what is behind
    the line feed that has ten line feeds behind it: the last ten lines
    of a file that ends with a line feed. The card is present and the
    file opens. *)
Theorem FileSystem_tail_small_file a p s content :
  initialized s = true ->
  0 < uint32 (sectorCount a) ->
  open_ok a = true ->
  card s !! p = Some content ->
  Libc.all_chars text_char content = true ->
  (String.length content <= 1024)%nat ->
  exists s' prints,
    tail a p s = Some (uint8 (sdErrorCode a) =? 0, s', prints) /\
    ((count_lf content <= 10)%nat -> joined prints = content) /\
    (forall before after,
        content = before +:+ String LF after ->
        count_lf after = 10%nat ->
        joined prints = after).
Proof.
  intros Hi Hs Ho Hc Ht Hsize. unfold tail.
  rewrite card_check_present by assumption. cbn [negb].
  rewrite (open_to_read_file a p _ content Ho) by exact Hc.
  destruct (tail_offset_spec content) as (off & E & R). rewrite E.
  rewrite Nat2Z.id.
  destruct (print_rest_text (S (String.length content)) (drop off content) ""
              ltac:(rewrite drop_length; lia)
              ltac:(now apply all_chars_drop))
    as (prints & b & E' & Hj & _).
  rewrite E'. cbn [read_status].
  eexists _, _. split; [reflexivity |].
  unfold final_newline. change (0 <? 0) with false. cbn [andb].
  rewrite app_nil_r, Hj.
  destruct R as (Hoff & Hstart & Hmax).
  assert (Hten : (count_lf (drop off content) <= 10)%nat).
  { rewrite Z.div_small in Hmax by lia. lia. }
  split.
  - intros Hfew. destruct Hstart as [-> | [Hb Hmin]]; [apply drop_0 |].
    destruct (Nat.eq_dec off O) as [-> | Hnz]; [apply drop_0 |].
    pose proof (count_lf_behind content off ltac:(lia) Hb). lia.
  - intros before after Econtent Hafter.
    assert (Hlb : (String.length content
                   = String.length before + 1 + String.length after)%nat).
    { rewrite Econtent, string_app_length. cbn. lia. }
    assert (Hdrop : drop (String.length before + 1) content = after).
    { rewrite Econtent.
      change (before +:+ String LF after)
        with (before +:+ (String LF "" +:+ after)).
      rewrite <- string_app_assoc.
      rewrite drop_app_ge by (rewrite string_app_length; cbn; lia).
      rewrite string_app_length. cbn [String.length].
      replace (String.length before + 1 - (String.length before + 1))%nat
        with O by lia.
      apply drop_0. }
    destruct (Nat.le_gt_cases off (String.length before)) as [Hle | Hgt].
    { (* too early: the line feed and what is behind it would be printed *)
      exfalso. rewrite Econtent, drop_app_le, count_lf_app in Hten by exact Hle.
      cbn [count_lf] in Hten. change (Ascii.eqb LF LF) with true in Hten.
      cbv iota in Hten. lia. }
    destruct (Nat.eq_dec off (String.length before + 1)%nat) as [-> | Hne];
      [exact Hdrop |].
    (* too late: fewer than ten line feeds would be printed *)
    exfalso. destruct Hstart as [-> | [Hb Hmin]]; [lia |].
    set (j := (off - (String.length before + 1))%nat).
    assert (Eoff : off = (String.length before + 1 + j)%nat)
      by (unfold j; lia).
    rewrite Eoff, drop_add, Hdrop in Hmin.
    assert (Hbj : byte_at (Z.of_nat j - 1) after = LF).
    { rewrite <- Hdrop.
      replace (Z.of_nat j - 1) with (Z.of_nat (j - 1)) by lia.
      rewrite byte_at_drop. rewrite <- Hb. f_equal. lia. }
    pose proof (count_lf_behind after j ltac:(lia) Hbj). lia.
Qed.

End ReadBackProofs.

(** *** cat, head and tail on a file of twelve lines *)


Lemma FileSystem_head_first_lines_witness :
  let before :=
    FileSystem.joined (List.map Scenario.numbered [1; 2; 3; 4; 5; 6; 7; 8; 9])
    +:+ "10" +:+ String "013" "" in
  let after := FileSystem.joined (List.map Scenario.numbered [11; 12]) in
  (FileSystem.initialized Scenario.with_notes = true /\
   0 < uint32 (FileSystem.sectorCount Scenario.good) /\
   FileSystem.open_ok Scenario.good = true /\
   FileSystem.card Scenario.with_notes !! "NOTES.TXT"
   = Some Scenario.twelve_lines /\
   Libc.all_chars FileSystem.text_char Scenario.twelve_lines = true /\
   Scenario.twelve_lines = before +:+ String FileSystem.LF after /\
   FileSystem.count_lf before = 9%nat) /\
  exists s' prints extra,
    FileSystem.head Scenario.good "NOTES.TXT" Scenario.with_notes
    = Some (true, s', prints) /\
    FileSystem.joined prints = before +:+ String FileSystem.LF "" +:+ extra /\
    (extra = "" \/ extra = FileSystem.CRLF).
Proof.
  cbv zeta.
  assert (H1 : FileSystem.initialized Scenario.with_notes = true)
    by reflexivity.
  assert (H2 : 0 < uint32 (FileSystem.sectorCount Scenario.good))
    by reflexivity.
  assert (H3 : FileSystem.open_ok Scenario.good = true) by reflexivity.
  assert (H4 : FileSystem.card Scenario.with_notes !! "NOTES.TXT"
               = Some Scenario.twelve_lines) by (vm_compute; reflexivity).
  assert (H5 : Libc.all_chars FileSystem.text_char Scenario.twelve_lines
               = true) by (vm_compute; reflexivity).
  assert (H6 : Scenario.twelve_lines
               = (FileSystem.joined
                    (List.map Scenario.numbered [1; 2; 3; 4; 5; 6; 7; 8; 9])
                  +:+ "10" +:+ String "013" "")
                 +:+ String FileSystem.LF
                       (FileSystem.joined (List.map Scenario.numbered [11; 12])))
    by (vm_compute; reflexivity).
  assert (H7 : FileSystem.count_lf
                 (FileSystem.joined
                    (List.map Scenario.numbered [1; 2; 3; 4; 5; 6; 7; 8; 9])
                  +:+ "10" +:+ String "013" "") = 9%nat)
    by (vm_compute; reflexivity).
  split; [repeat split; assumption |].
  destruct (FileSystem_head_first_lines Scenario.good "NOTES.TXT"
              Scenario.with_notes Scenario.twelve_lines H1 H2 H3 H4 H5)
    as [_ H].
  exact (H _ _ H6 H7).
Defined.

Lemma FileSystem_tail_small_file_witness :
  let before := "1" +:+ FileSystem.CRLF +:+ "2" +:+ String "013" "" in
  let after :=
    FileSystem.joined
      (List.map Scenario.numbered [3; 4; 5; 6; 7; 8; 9; 10; 11; 12]) in
  (FileSystem.initialized Scenario.with_notes = true /\
   0 < uint32 (FileSystem.sectorCount Scenario.good) /\
   FileSystem.open_ok Scenario.good = true /\
   FileSystem.card Scenario.with_notes !! "NOTES.TXT"
   = Some Scenario.twelve_lines /\
   Libc.all_chars FileSystem.text_char Scenario.twelve_lines = true /\
   (String.length Scenario.twelve_lines <= 1024)%nat /\
   Scenario.twelve_lines = before +:+ String FileSystem.LF after /\
   FileSystem.count_lf after = 10%nat) /\
  exists s' prints,
    FileSystem.tail Scenario.good "NOTES.TXT" Scenario.with_notes
    = Some (true, s', prints) /\
    FileSystem.joined prints = after.
Proof.
  cbv zeta.
  assert (H1 : FileSystem.initialized Scenario.with_notes = true)
    by reflexivity.
  assert (H2 : 0 < uint32 (FileSystem.sectorCount Scenario.good))
    by reflexivity.
  assert (H3 : FileSystem.open_ok Scenario.good = true) by reflexivity.
  assert (H4 : FileSystem.card Scenario.with_notes !! "NOTES.TXT"
               = Some Scenario.twelve_lines) by (vm_compute; reflexivity).
  assert (H5 : Libc.all_chars FileSystem.text_char Scenario.twelve_lines
               = true) by (vm_compute; reflexivity).
  assert (H6 : (String.length Scenario.twelve_lines <= 1024)%nat)
    by (vm_compute; lia).
  assert (H7 : Scenario.twelve_lines
               = ("1" +:+ FileSystem.CRLF +:+ "2" +:+ String "013" "")
                 +:+ String FileSystem.LF
                       (FileSystem.joined
                          (List.map Scenario.numbered
                             [3; 4; 5; 6; 7; 8; 9; 10; 11; 12])))
    by (vm_compute; reflexivity).
  assert (H8 : FileSystem.count_lf
                 (FileSystem.joined
                    (List.map Scenario.numbered
                       [3; 4; 5; 6; 7; 8; 9; 10; 11; 12])) = 10%nat)
    by (vm_compute; reflexivity).
  split; [repeat split; assumption |].
  destruct (FileSystem_tail_small_file Scenario.good "NOTES.TXT"
              Scenario.with_notes Scenario.twelve_lines H1 H2 H3 H4 H5 H6)
    as (s' & prints & E & _ & H).
  exists s', prints. split; [exact E | exact (H _ _ H7 H8)].
Defined.

Lemma FileSystem_tail_last_lines_witness :
  (FileSystem.initialized Scenario.with_notes = true /\
   0 < uint32 (FileSystem.sectorCount Scenario.good) /\
   FileSystem.open_ok Scenario.good = true /\
   FileSystem.card Scenario.with_notes !! "NOTES.TXT"
   = Some Scenario.twelve_lines /\
   Libc.all_chars FileSystem.text_char Scenario.twelve_lines = true) /\
  exists off s' prints,
    FileSystem.tail Scenario.good "NOTES.TXT" Scenario.with_notes
    = Some (true, s', prints) /\
    FileSystem.joined prints = FileSystem.drop off Scenario.twelve_lines /\
    FileSystem.tail_start Scenario.twelve_lines off.
Proof.
  assert (H1 : FileSystem.initialized Scenario.with_notes = true)
    by reflexivity.
  assert (H2 : 0 < uint32 (FileSystem.sectorCount Scenario.good))
    by reflexivity.
  assert (H3 : FileSystem.open_ok Scenario.good = true) by reflexivity.
  assert (H4 : FileSystem.card Scenario.with_notes !! "NOTES.TXT"
               = Some Scenario.twelve_lines) by (vm_compute; reflexivity).
  assert (H5 : Libc.all_chars FileSystem.text_char Scenario.twelve_lines
               = true) by (vm_compute; reflexivity).
  split; [repeat split; assumption |].
  exact (FileSystem_tail_last_lines Scenario.good "NOTES.TXT"
           Scenario.with_notes Scenario.twelve_lines H1 H2 H3 H4 H5).
Defined.

(** ** The status log *)

Section StatusLogProofs.

Import FileSystem.

Lemma status_write_appends a w buf status s f old :
  card s !! path f = Some old ->
  position f = String.length old ->
  exists status' s' f',
    status_write a w buf (status, s, f) = (status', s', f') /\
    card s' = <[path f := old +:+ stored_of w buf]> (card s) /\
    path f' = path f /\
    position f' = String.length (old +:+ stored_of w buf) /\
    (w = AllBytes -> status' = status /\ localErrorCode s' = localErrorCode s).
Proof.
  intros Hc Hp. unfold status_write, sd_write. rewrite Hc, Hp.
  rewrite overwrite_at_end.
  destruct w as [|k]; cbn [negb stored_of].
  - eexists _, _, _. split; [reflexivity |]. cbn.
    rewrite string_app_length. repeat split.
  - eexists _, _, _. split; [reflexivity |].
    unfold status_failure. rewrite string_app_length.
    destruct (uint32 (sectorCount a) <=? 0); cbn; repeat split; discriminate.
Qed.

Lemma status_failure_card a s : card (status_failure a s) = card s.
Proof. unfold status_failure. now destruct (uint32 (sectorCount a) <=? 0). Qed.

(** X5. [writeStatus] only ever adds to the status log. Whatever the card
    answers, the bytes that were in STATUS.TXT are still at its head
    afterwards and no other file has changed. When the card takes every
    write, what is added is the line for the message, after a line
    [Log file created] when the file was not there, and the result is
    true. *)
Theorem FileSystem_writeStatus_appends a first now message s :
  initialized s = true ->
  let r := writeStatus a first now message s in
  (forall p, p <> STATUS_LOG_FILENAME -> card r.2 !! p = card s !! p) /\
  (forall old,
      card s !! STATUS_LOG_FILENAME = Some old ->
      exists added, card r.2 !! STATUS_LOG_FILENAME = Some (old +:+ added)) /\
  (open_ok a = true -> first = AllBytes -> write_result a = AllBytes ->
   sync_ok a = true ->
   r.1 = true /\
   card r.2 !! STATUS_LOG_FILENAME
   = Some (match card s !! STATUS_LOG_FILENAME with
           | Some old => old
           | None => now +:+ TAB +:+ "Log file created" +:+ CRLF
           end +:+ status_line now message)).
Proof.
  intros Hi r. subst r. unfold writeStatus. rewrite Hi. cbn [negb].
  unfold sd_open_append, sd_exists, clear_errors.
  cbn [card set_cardErrorCode set_localErrorCode].
  set (s1 := set_cardErrorCode SD_CARD_ERROR_NONE
               (set_localErrorCode FS_ERROR_NONE s)).
  set (line := if String.eqb message "" then CRLF +:+ CRLF
               else now +:+ TAB +:+ message +:+ CRLF).
  assert (Hline :
    (if String.eqb message ""
     then status_write a (write_result a) (CRLF +:+ CRLF)
     else status_write a (write_result a) (now +:+ TAB +:+ message +:+ CRLF))
    = status_write a (write_result a) line)
    by (unfold line; now destruct (String.eqb message "")).
  destruct (open_ok a) eqn:Ho; cbn [negb].
  2:{ (* the open fails *)
    cbn. repeat split; try discriminate.
    intros old E. exists "". now rewrite string_app_empty_r. }
  destruct (card s !! STATUS_LOG_FILENAME) as [old|] eqn:Eold.
  - (* the log is there *)
    rewrite bool_decide_eq_true_2 by eauto. cbn [negb].
    assert (Hst :
      (if String.eqb message ""
       then status_write a (write_result a) (CRLF +:+ CRLF)
              (true, set_card (card s) s1,
               {| path := STATUS_LOG_FILENAME;
                  position := String.length old |})
       else status_write a (write_result a)
              (now +:+ TAB +:+ message +:+ CRLF)
              (true, set_card (card s) s1,
               {| path := STATUS_LOG_FILENAME;
                  position := String.length old |}))
      = status_write a (write_result a) line
          (true, set_card (card s) s1,
           {| path := STATUS_LOG_FILENAME; position := String.length old |}))
      by (unfold line; now destruct (String.eqb message "")).
    rewrite Hst. clear Hst.
    destruct (status_write_appends a (write_result a) line true
                (set_card (card s) s1)
                {| path := STATUS_LOG_FILENAME;
                   position := String.length old |} old Eold eq_refl)
      as (st & s2 & f2 & E & Hc & _ & _ & Hall).
    rewrite E. cbn [path card set_card] in Hc.
    assert (Hcard : card (if negb (sync_ok a) then (false, status_failure a s2)
                          else (st, s2)).2
                    = <[STATUS_LOG_FILENAME := old +:+ stored_of
                                                 (write_result a) line]>
                        (card s)).
    { destruct (negb (sync_ok a)); cbn [snd];
        now rewrite ?status_failure_card. }
    split; [| split].
    + intros p Hp. rewrite Hcard. now apply lookup_insert_ne.
    + intros old' [= <-]. rewrite Hcard, lookup_insert_eq. eauto.
    + intros _ _ Hw Hs. rewrite Hs. cbn [negb fst snd].
      destruct (Hall Hw) as [-> _]. split; [reflexivity |].
      rewrite Hc, lookup_insert_eq, Hw. reflexivity.
  - (* the log is created *)
    rewrite bool_decide_eq_false_2 by (intros [x Hx]; discriminate).
    cbn [negb].
    set (created := now +:+ TAB +:+ "Log file created" +:+ CRLF).
    destruct (status_write_appends a first created true
                (set_card (<[STATUS_LOG_FILENAME := ""]> (card s)) s1)
                {| path := STATUS_LOG_FILENAME; position := 0 |} ""
                ltac:(cbn; apply lookup_insert_eq) eq_refl)
      as (st1 & s2 & f2 & E1 & Hc1 & Hp1 & Hpos1 & Hall1).
    rewrite string_app_empty_l in Hc1, Hpos1.
    cbn [path card set_card] in Hc1. rewrite insert_insert_eq in Hc1.
    assert (Hst :
      (if String.eqb message ""
       then status_write a (write_result a) (CRLF +:+ CRLF)
              (status_write a first created
                 (true,
                  set_card (<[STATUS_LOG_FILENAME := ""]> (card s)) s1,
                  {| path := STATUS_LOG_FILENAME; position := 0 |}))
       else status_write a (write_result a)
              (now +:+ TAB +:+ message +:+ CRLF)
              (status_write a first created
                 (true,
                  set_card (<[STATUS_LOG_FILENAME := ""]> (card s)) s1,
                  {| path := STATUS_LOG_FILENAME; position := 0 |})))
      = status_write a (write_result a) line (st1, s2, f2))
      by (rewrite E1; unfold line; now destruct (String.eqb message "")).
    rewrite Hst. clear Hst.
    destruct (status_write_appends a (write_result a) line st1 s2 f2
                (stored_of first created)
                ltac:(rewrite Hp1, Hc1; apply lookup_insert_eq) Hpos1)
      as (st & s3 & f3 & E & Hc & _ & _ & Hall).
    rewrite E. rewrite Hp1, Hc1, insert_insert_eq in Hc.
    assert (Hcard : card (if negb (sync_ok a) then (false, status_failure a s3)
                          else (st, s3)).2
                    = <[STATUS_LOG_FILENAME :=
                          stored_of first created
                          +:+ stored_of (write_result a) line]> (card s)).
    { destruct (negb (sync_ok a)); cbn [snd];
        now rewrite ?status_failure_card. }
    split; [| split].
    + intros p Hp. rewrite Hcard. now apply lookup_insert_ne.
    + intros old' [=].
    + intros _ Hf Hw Hs. rewrite Hs. cbn [negb fst snd].
      destruct (Hall Hw) as [-> _]. destruct (Hall1 Hf) as [-> _].
      split; [reflexivity |].
      rewrite Hc, lookup_insert_eq, Hw, Hf. reflexivity.
Qed.

End StatusLogProofs.

Lemma FileSystem_writeStatus_appends_witness :
  FileSystem.initialized (Scenario.mounted (Scenario.logs 1)) = true /\
  (FileSystem.writeStatus Scenario.good FileSystem.AllBytes "2023-04-05 06:07:08"
     "Started" (Scenario.mounted (Scenario.logs 1))).1 = true /\
  FileSystem.card
    (FileSystem.writeStatus Scenario.good FileSystem.AllBytes
       "2023-04-05 06:07:08" "Started"
       (Scenario.mounted (Scenario.logs 1))).2
    !! "DATA_00.CSV"
  = FileSystem.card (Scenario.mounted (Scenario.logs 1)) !! "DATA_00.CSV".
Proof.
  assert (H : FileSystem.initialized (Scenario.mounted (Scenario.logs 1))
              = true) by reflexivity.
  split; [exact H |].
  pose proof (FileSystem_writeStatus_appends Scenario.good FileSystem.AllBytes
                "2023-04-05 06:07:08" "Started" _ H) as (Hother & _ & Hgood).
  split.
  - exact (proj1 (Hgood eq_refl eq_refl eq_refl eq_refl)).
  - apply Hother. discriminate.
Defined.

(** ** The data log and the files that are on the card *)

Section KeepsFilesProofs.

Import FileSystem.

Lemma newDataLog_create_keeps name a s p old :
  card s !! name = None ->
  card s !! p = Some old ->
  card (newDataLog_create name a s).1.2 !! p = Some old.
Proof.
  intros Hfree Hp.
  destruct (newDataLog_create name a s) as [[r s'] calls] eqn:E.
  destruct r.
  - apply newDataLog_create_true in E; [| exact Hfree].
    destruct E as (Hc & _). cbn [fst snd]. rewrite Hc.
    rewrite lookup_insert_ne; [exact Hp |].
    intros ->. congruence.
  - pose proof (newDataLog_create_card name a s Hfree) as H.
    rewrite E in H. cbn [fst snd] in *. now rewrite H.
Qed.

Lemma newDataLog_from_keeps (n : nat) :
  forall i a s p old,
    card s !! p = Some old ->
    card (newDataLog_from n i a s).1.2 !! p = Some old.
Proof.
  induction n as [|n IH]; intros i a s p old Hp; [exact Hp |].
  cbn [newDataLog_from].
  destruct (sd_exists (card s) (dataLogFilename i)) eqn:Ex.
  - specialize (IH (uint16 (i + 1)) a s p old Hp).
    destruct (newDataLog_from n _ a s) as [[r s'] calls]. exact IH.
  - apply sd_exists_false in Ex.
    pose proof (newDataLog_create_keeps _ a s p old Ex Hp) as H.
    destruct (newDataLog_create _ a s) as [[r s'] calls]. exact H.
Qed.

(** X6. [newDataLog] never changes a file that is on the card: whatever
    the card answers, and whether it returns true or false, every file
    that was there before is there afterwards with the same bytes. *)
Theorem FileSystem_newDataLog_keeps_files a s p old :
  card s !! p = Some old ->
  card (newDataLog a s).1.2 !! p = Some old.
Proof.
  intros Hp. unfold newDataLog.
  destruct (initialized s); cbn [negb]; [| exact Hp].
  set (s1 := set_cardErrorCode _ _).
  pose proof (newDataLog_from_keeps (Z.to_nat MAX_LOG_FILES) 0 a s1 p old Hp)
    as H.
  destruct (newDataLog_from _ 0 a s1) as [[r s'] calls]. exact H.
Qed.

End KeepsFilesProofs.

Lemma FileSystem_newDataLog_keeps_files_witness :
  FileSystem.card (Scenario.mounted (Scenario.logs 3)) !! "DATA_01.CSV"
  = Some FileSystem.header_line /\
  FileSystem.card
    (FileSystem.newDataLog Scenario.card_full
       (Scenario.mounted (Scenario.logs 3))).1.2 !! "DATA_01.CSV"
  = Some FileSystem.header_line.
Proof.
  assert (H : FileSystem.card (Scenario.mounted (Scenario.logs 3))
              !! "DATA_01.CSV" = Some FileSystem.header_line)
    by (vm_compute; reflexivity).
  split; [exact H |].
  exact (FileSystem_newDataLog_keeps_files Scenario.card_full _ _ _ H).
Defined.

Lemma FileSystem_log_session_witness :
  let rows := [(Scenario.good, Scenario.a_battery, Scenario.an_entry);
               (Scenario.good, Scenario.a_battery, Scenario.an_entry)] in
  let n := FileSystem.newDataLog Scenario.good (Scenario.mounted ∅) in
  let w := FileSystem.writeDataLogs Scenario.printf_f Scenario.printf_5_3f
             Scenario.printf_3_1f rows n.1.2 in
  (n = (true, n.1.2, n.2) /\
   Z.of_nat (List.length rows) < 2 ^ 32 /\
   Forall (fun r => r = true) w.1) /\
  exists name,
    FileSystem.card w.2
    = <[name := FileSystem.header_line
                +:+ FileSystem.lines Scenario.printf_f Scenario.printf_5_3f
                      Scenario.printf_3_1f rows]> ∅ /\
    FileSystem.numberOfDataLogEntries w.2 = 2.
Proof.
  cbv zeta.
  assert (H1 : FileSystem.newDataLog Scenario.good (Scenario.mounted ∅)
               = (true,
                  (FileSystem.newDataLog Scenario.good (Scenario.mounted ∅)).1.2,
                  (FileSystem.newDataLog Scenario.good (Scenario.mounted ∅)).2))
    by (vm_compute; reflexivity).
  assert (H2 : Z.of_nat
                 (List.length
                    [(Scenario.good, Scenario.a_battery, Scenario.an_entry);
                     (Scenario.good, Scenario.a_battery, Scenario.an_entry)])
               < 2 ^ 32) by reflexivity.
  assert (H3 : Forall (fun r => r = true)
                 (FileSystem.writeDataLogs Scenario.printf_f
                    Scenario.printf_5_3f Scenario.printf_3_1f
                    [(Scenario.good, Scenario.a_battery, Scenario.an_entry);
                     (Scenario.good, Scenario.a_battery, Scenario.an_entry)]
                    (FileSystem.newDataLog Scenario.good
                       (Scenario.mounted ∅)).1.2).1)
    by (vm_compute; repeat constructor).
  split; [repeat split; assumption |].
  destruct (FileSystem_log_session Z Scenario.printf_f Scenario.printf_5_3f
              Scenario.printf_3_1f _ _ _ _ _ H1 H2 H3)
    as (name & _ & Hc & Hn).
  exists name. split; [exact Hc | exact Hn].
Defined.

Lemma FileSystem_settings_round_trip_repeated_witness :
  let s := Scenario.mounted ∅ in
  let vs := [Scenario.other_settings; Scenario.some_settings;
             Scenario.other_settings] in
  let s' := FileSystem.saveSettings_each Scenario.good vs s in
  (FileSystem.initialized s = true /\
   FileSystem.open_ok Scenario.good = true /\
   FileSystem.write_result Scenario.good = FileSystem.AllBytes /\
   FileSystem.sync_ok Scenario.good = true /\
   Forall FileSystem.settings_in_range vs /\
   FileSystem.settings_in_range Scenario.some_settings /\
   FileSystem.card s !! FileSystem.SETTINGS_FILENAME = None) /\
  FileSystem.loadSettings Scenario.good Scenario.other_settings
    (FileSystem.saveSettings Scenario.good Scenario.some_settings s').1.2
  = Some (true, Scenario.some_settings,
          [FileSystem.Open FileSystem.SETTINGS_FILENAME FileSystem.O_RDONLY;
           FileSystem.Close]).
Proof.
  cbv zeta.
  assert (Hr : forall v, v = Scenario.other_settings
                         \/ v = Scenario.some_settings ->
                         FileSystem.settings_in_range v).
  { intros v [-> | ->]; split; split; vm_compute;
      first [discriminate | reflexivity]. }
  assert (H5 : Forall FileSystem.settings_in_range
                 [Scenario.other_settings; Scenario.some_settings;
                  Scenario.other_settings])
    by (repeat constructor; apply Hr; auto).
  assert (H6 : FileSystem.settings_in_range Scenario.some_settings)
    by (apply Hr; auto).
  assert (H7 : FileSystem.card (Scenario.mounted ∅)
               !! FileSystem.SETTINGS_FILENAME = None) by reflexivity.
  split; [repeat split; try assumption; first [apply H6 | reflexivity] |].
  exact (proj2 (FileSystem_settings_round_trip_repeated Scenario.good
                  Scenario.good _ Scenario.some_settings
                  Scenario.other_settings (Scenario.mounted ∅)
                  eq_refl eq_refl eq_refl eq_refl eq_refl H5 H6 H7)).
Defined.

(** ** Settings files with an empty line *)

Section EmptyLineProofs.

Import FileSystem.

Lemma ends_lf_tail (c : ascii) (s : string) :
  ends_lf (String c s) = true -> s <> "" -> ends_lf s = true.
Proof. intros H Hs. destruct s; [contradiction | exact H]. Qed.

(** [readLine] on whole lines with more behind them reads the first of
    the lines, and leaves whole lines and what was behind. *)
Lemma readLine_from_app (pre x : string) :
  forall k,
    ends_lf pre = true ->
    readLine_from (pre +:+ x) k
    = ((readLine_from pre k).1, (readLine_from pre k).2 +:+ x) /\
    ((readLine_from pre k).2 = "" \/ ends_lf (readLine_from pre k).2 = true).
Proof.
  induction pre as [|c pre IH]; intros k He; [discriminate |].
  rewrite string_app_cons. cbn [readLine_from].
  destruct (negb (Z.of_nat k <? BUFFER_SIZE - 1)).
  { cbn [fst snd]. rewrite string_app_cons. split; [reflexivity | now right]. }
  destruct (Ascii.eqb c "013") eqn:Ecr.
  { apply IH. apply (ends_lf_tail c); [exact He |].
    intros ->. cbn in He. apply Ascii.eqb_eq in Ecr. apply Ascii.eqb_eq in He.
    subst c. discriminate. }
  destruct (Ascii.eqb c "010") eqn:Elf.
  { cbn [fst snd]. split; [reflexivity |].
    destruct pre; [now left | right; exact He]. }
  assert (Hpre : ends_lf pre = true).
  { apply (ends_lf_tail c); [exact He |].
    intros ->. cbn in He. unfold LF in He. congruence. }
  destruct (IH (S k) Hpre) as [E Hw]. rewrite E.
  destruct (readLine_from pre (S k)) as [line rest]. cbn [fst snd] in *.
  now split.
Qed.

Lemma readLine_blank (rest : string) :
  readLine (CRLF +:+ rest) = ("", rest)
  /\ readLine (String LF rest) = ("", rest).
Proof. split; reflexivity. Qed.

Lemma loadSettings_lines_blank (blank rest : string) (turns1 : nat) :
  readLine (blank +:+ rest) = ("", rest) ->
  forall turns2 pre v,
    pre = "" \/ ends_lf pre = true ->
    (String.length pre < turns1)%nat ->
    (String.length pre < turns2)%nat ->
    loadSettings_lines turns1 (pre +:+ blank +:+ rest) v
    = loadSettings_lines turns2 pre v.
Proof.
  intros Hblank.
  induction turns1 as [|turns1 IH]; intros turns2 pre v Hw H1 H2; [lia |].
  destruct turns2 as [|turns2]; [lia |].
  cbn [loadSettings_lines].
  destruct Hw as [-> | He].
  - rewrite string_app_empty_l, Hblank. reflexivity.
  - unfold readLine.
    destruct (readLine_from_app pre (blank +:+ rest) 0 He) as [E Hw].
    rewrite E.
    pose proof (readLine_from_shorter pre 0) as Hs.
    destruct (readLine_from pre 0) as [line rest']. cbn [fst snd] in *.
    destruct (Nat.eqb_spec (String.length line) 0); [reflexivity |].
    destruct (parseLine line) as [name value].
    apply IH; [exact Hw | lia | lia].
Qed.

(** X9. [loadSettings] stops at the first empty line of the settings file:
    what stands behind an empty line, settings or not, is not read. A
    file of whole lines followed by an empty line and anything else
    loads as the whole lines alone do. *)
Theorem FileSystem_loadSettings_stops_at_empty_line
    a v s s' (pre blank rest : string) :
  initialized s = true ->
  initialized s' = true ->
  open_ok a = true ->
  pre = "" \/ ends_lf pre = true ->
  blank = CRLF \/ blank = String LF "" ->
  card s !! SETTINGS_FILENAME = Some (pre +:+ blank +:+ rest) ->
  card s' !! SETTINGS_FILENAME = Some pre ->
  loadSettings a v s = loadSettings a v s'.
Proof.
  intros Hi Hi' Ho Hw Hb Hc Hc'.
  rewrite (loadSettings_file a v s _ Hi Ho Hc).
  rewrite (loadSettings_file a v s' _ Hi' Ho Hc').
  rewrite (loadSettings_lines_blank blank rest
             (S (String.length (pre +:+ blank +:+ rest)))
             ltac:(destruct Hb as [-> | ->]; reflexivity)
             (S (String.length pre)) pre v Hw);
    [reflexivity | rewrite string_app_length | ]; lia.
Qed.

End EmptyLineProofs.

Lemma FileSystem_loadSettings_stops_at_empty_line_witness :
  let pre := "burstsize 3" +:+ FileSystem.CRLF in
  let rest := "interval 5000" +:+ FileSystem.CRLF in
  let s := Scenario.mounted
             {[ FileSystem.SETTINGS_FILENAME
                := pre +:+ FileSystem.CRLF +:+ rest ]} in
  let s' := Scenario.mounted {[ FileSystem.SETTINGS_FILENAME := pre ]} in
  (FileSystem.initialized s = true /\
   FileSystem.initialized s' = true /\
   FileSystem.open_ok Scenario.good = true /\
   FileSystem.ends_lf pre = true /\
   FileSystem.card s !! FileSystem.SETTINGS_FILENAME
   = Some (pre +:+ FileSystem.CRLF +:+ rest) /\
   FileSystem.card s' !! FileSystem.SETTINGS_FILENAME = Some pre) /\
  FileSystem.loadSettings Scenario.good Scenario.some_settings s
  = FileSystem.loadSettings Scenario.good Scenario.some_settings s' /\
  FileSystem.loadSettings Scenario.good Scenario.some_settings s
  = Some (true,
          {| FileSystem.interval := 250;
             FileSystem.isLaserContinuous := false;
             FileSystem.burstSize := 3 |},
          [FileSystem.Open FileSystem.SETTINGS_FILENAME FileSystem.O_RDONLY;
           FileSystem.Close]).
Proof.
  cbv zeta.
  split; [repeat split; vm_compute; reflexivity |].
  split; [| vm_compute; reflexivity].
  apply (FileSystem_loadSettings_stops_at_empty_line Scenario.good
           Scenario.some_settings _ _
           ("burstsize 3" +:+ FileSystem.CRLF) FileSystem.CRLF
           ("interval 5000" +:+ FileSystem.CRLF));
    first [reflexivity | now left | now right | vm_compute; reflexivity].
Defined.

(** ** The command line *)

Section ParseLineProofs.

Lemma skip_spaces_blanks (blanks t : string) :
  Libc.all_chars Libc.isSpace blanks = true ->
  Libc.skip_spaces (blanks +:+ t) = Libc.skip_spaces t.
Proof.
  induction blanks as [|c blanks IH]; intros H;
    [now rewrite string_app_empty_l |].
  cbn [Libc.all_chars] in H. apply andb_prop in H as [Hc H].
  rewrite string_app_cons. cbn [Libc.skip_spaces]. rewrite Hc. now apply IH.
Qed.

Lemma solid_not_space (c : ascii) :
  Libc.solid c = true -> Libc.isSpace c = false.
Proof.
  unfold Libc.solid. intros H.
  apply andb_prop in H as [H _]. apply andb_prop in H as [H _].
  now apply negb_true_iff in H.
Qed.

Lemma word_before_space (w : string) (sp : ascii) (rest : string) :
  Libc.all_chars Libc.solid w = true ->
  Libc.isSpace sp = true ->
  FileSystem.word (w +:+ String sp rest) = (w, String sp rest).
Proof.
  intros Hw Hsp. induction w as [|c w IH].
  - rewrite string_app_empty_l. cbn [FileSystem.word]. now rewrite Hsp.
  - cbn [Libc.all_chars] in Hw. apply andb_prop in Hw as [Hc Hw].
    rewrite string_app_cons. cbn [FileSystem.word].
    rewrite (solid_not_space c Hc), IH by exact Hw. reflexivity.
Qed.

Lemma word_alone (w : string) :
  Libc.all_chars Libc.solid w = true -> FileSystem.word w = (w, "").
Proof.
  induction w as [|c w IH]; intros Hw; [reflexivity |].
  cbn [Libc.all_chars] in Hw. apply andb_prop in Hw as [Hc Hw].
  cbn [FileSystem.word]. rewrite (solid_not_space c Hc), IH by exact Hw.
  reflexivity.
Qed.

Lemma skip_spaces_solid (w t : string) :
  Libc.all_chars Libc.solid w = true -> w <> "" ->
  Libc.skip_spaces (w +:+ t) = w +:+ t.
Proof.
  intros Hw Hne. destruct w as [|c w]; [contradiction |].
  cbn [Libc.all_chars] in Hw. apply andb_prop in Hw as [Hc _].
  rewrite string_app_cons. cbn [Libc.skip_spaces].
  now rewrite (solid_not_space c Hc).
Qed.

(** X10. [Commands::parseLine] takes a line apart into its first word and
    what follows it: white space before the word and between the word
    and the argument is dropped, and the argument is kept as it is, with
    the white space inside and behind it. A line with one word has an
    empty argument, and a line of white space an empty command.
    [FileSystem::parseLine] is the same code. *)
Theorem Commands_parseLine_command_and_argument
    (blanks1 command : string) (sp : ascii) (blanks2 arg : string) :
  Libc.all_chars Libc.isSpace blanks1 = true ->
  Libc.all_chars Libc.solid command = true ->
  command <> "" ->
  Libc.isSpace sp = true ->
  Libc.all_chars Libc.isSpace blanks2 = true ->
  Libc.skip_spaces arg = arg ->
  Commands.parseLine (blanks1 +:+ command +:+ String sp (blanks2 +:+ arg))
  = (command, arg) /\
  Commands.parseLine (blanks1 +:+ command) = (command, "") /\
  Commands.parseLine blanks1 = ("", "") /\
  FileSystem.parseLine (blanks1 +:+ command +:+ String sp (blanks2 +:+ arg))
  = (command, arg).
Proof.
  intros Hb1 Hc Hne Hsp Hb2 Harg.
  assert (Hfull : forall t, Libc.skip_spaces (blanks1 +:+ command +:+ t)
                            = command +:+ t).
  { intros t. rewrite skip_spaces_blanks by exact Hb1.
    now apply skip_spaces_solid. }
  unfold Commands.parseLine, FileSystem.parseLine.
  repeat split.
  - rewrite Hfull, word_before_space by assumption.
    now rewrite skip_spaces_blanks, Harg.
  - rewrite <- (string_app_empty_r command) at 1.
    rewrite Hfull, string_app_empty_r, word_alone by assumption. reflexivity.
  - rewrite <- (string_app_empty_r blanks1).
    now rewrite skip_spaces_blanks.
  - rewrite Hfull, word_before_space by assumption.
    now rewrite skip_spaces_blanks, Harg.
Qed.

End ParseLineProofs.

Lemma Commands_parseLine_command_and_argument_witness :
  (Libc.all_chars Libc.isSpace "  " = true /\
   Libc.all_chars Libc.solid "camera" = true /\
   "camera" <> "" /\
   Libc.isSpace " " = true /\
   Libc.all_chars Libc.isSpace " " = true /\
   Libc.skip_spaces "force off " = "force off ") /\
  Commands.parseLine "  camera  force off " = ("camera", "force off ").
Proof.
  split; [repeat split; first [reflexivity | discriminate] |].
  exact (proj1 (Commands_parseLine_command_and_argument
                  "  " "camera" " " " " "force off "
                  eq_refl eq_refl ltac:(discriminate) eq_refl eq_refl
                  eq_refl)).
Defined.

(** ** The serial line editor *)

Section SerialInputProofs.

Import Commands.

Variable k : sketch.

Lemma typed_plain (c : ascii) :
  typed c = true ->
  Ascii.eqb c CR = false /\ Ascii.eqb c LF = false /\
  Ascii.eqb c BS = false /\ Ascii.eqb c DEL = false /\ iscntrl c = false.
Proof.
  unfold typed. intros H. apply negb_true_iff in H.
  repeat split; try exact H;
    apply Ascii.eqb_neq; intros ->; vm_compute in H; discriminate.
Qed.

Lemma length_zero (s : string) :
  (Z.of_nat (String.length s) =? 0) = String.eqb s "".
Proof. now destruct s. Qed.

(** Characters that are typed go into the line and are echoed, as long
    as there is room. *)
Lemma handleSerialInput_typed (text : string) :
  forall line w rest,
    Libc.all_chars typed text = true ->
    line <> "" \/ Libc.skip_spaces text = text ->
    (String.length line + String.length text <= 1023)%nat ->
    handleSerialInput k (list_ascii_of_string text ++ rest) false line w
    = handleSerialInput k rest false (line +:+ text) (echo text w).
Proof.
  induction text as [|c text IH]; intros line w rest Ht Hs Hl.
  - now rewrite string_app_empty_r.
  - cbn [Libc.all_chars] in Ht. apply andb_prop in Ht as [Hc Ht].
    destruct (typed_plain c Hc) as (Hcr & Hlf & Hbs & Hdel & Hctl).
    cbn [list_ascii_of_string app handleSerialInput echo].
    rewrite Hcr, Hlf, Hbs, Hdel, Hctl. cbn [orb].
    assert (Hsp : (Z.of_nat (String.length line) =? 0) && Libc.isSpace c
                  = false).
    { rewrite length_zero. destruct (String.eqb_spec line "") as [-> |];
        [| reflexivity].
      destruct Hs as [? | Hs]; [contradiction |].
      cbn [Libc.skip_spaces] in Hs. destruct (Libc.isSpace c); [| reflexivity].
      exfalso. clear - Hs.
      assert (H : forall s, (String.length (Libc.skip_spaces s)
                             <= String.length s)%nat).
      { induction s as [|x s IHs]; cbn; [lia |].
        destruct (Libc.isSpace x); cbn; lia. }
      specialize (H text). rewrite Hs in H. cbn in H. lia. }
    rewrite Hsp.
    destruct (Z.ltb_spec (Z.of_nat (String.length line)) MAXLINE) as [_ | Hf];
      [| unfold MAXLINE in Hf; cbn [String.length] in Hl; lia].
    rewrite IH.
    + now rewrite string_app_assoc.
    + exact Ht.
    + left. destruct line; discriminate.
    + rewrite string_app_length. cbn [String.length] in *. lia.
Qed.

(** What [flushSerialInput] passes over up to the end of the line. *)
Lemma handleSerialInput_flush (text : string) :
  forall line w rest,
    Libc.all_chars typed text = true ->
    handleSerialInput k (list_ascii_of_string text ++ CR :: rest) true line w
    = handleSerialInput k rest false "" (end_of_line k line w).
Proof.
  induction text as [|c text IH]; intros line w rest Ht; [reflexivity |].
  cbn [Libc.all_chars] in Ht. apply andb_prop in Ht as [Hc Ht].
  destruct (typed_plain c Hc) as (Hcr & Hlf & _).
  cbn [list_ascii_of_string app handleSerialInput].
  rewrite Hcr, Hlf. cbn [orb]. now apply IH.
Qed.

Lemma list_ascii_app (a b : string) :
  list_ascii_of_string (a +:+ b)
  = list_ascii_of_string a ++ list_ascii_of_string b.
Proof.
  induction a as [|c a IH]; [reflexivity |].
  rewrite string_app_cons. cbn. now rewrite IH.
Qed.

Lemma skip_spaces_take (text : string) (n : nat) :
  Libc.skip_spaces text = text -> text <> "" -> (0 < n)%nat ->
  Libc.skip_spaces (FileSystem.take n text) = FileSystem.take n text.
Proof.
  intros Hs Hne Hn. destruct text as [|c text]; [contradiction |].
  destruct n as [|n]; [lia |]. cbn [FileSystem.take Libc.skip_spaces] in *.
  destruct (Libc.isSpace c); [| reflexivity].
  exfalso.
  assert (H : forall s, (String.length (Libc.skip_spaces s)
                         <= String.length s)%nat).
  { induction s as [|x s IHs]; cbn; [lia |].
    destruct (Libc.isSpace x); cbn; lia. }
  specialize (H text). rewrite Hs in H. cbn in H. lia.
Qed.



(** X13. The line buffer never takes more than MAXLINE characters,
    whatever comes in on the serial port. *)
Theorem Commands_handleSerialInput_bounded (input : list ascii) :
  forall flushing line w,
    Z.of_nat (String.length line) <= MAXLINE ->
    Z.of_nat (String.length (handleSerialInput k input flushing line w).1)
    <= MAXLINE.
Proof.
  unfold MAXLINE.
  induction input as [|c input IH]; intros flushing line w Hl.
  - cbn. destruct flushing; cbn; lia.
  - cbn [handleSerialInput]. unfold MAXLINE.
    assert (Hd : (String.length (drop_last line) <= String.length line)%nat).
    { clear. induction line as [|x line IHl]; [cbn; lia |].
      destruct line; cbn in *; lia. }
    repeat match goal with
           | |- context [if ?b then _ else _] => destruct b eqn:?
           end;
      apply IH; cbn [String.length]; try lia.
    rewrite string_app_length. cbn [String.length].
    match goal with H : (_ <? 1023) = true |- _ => apply Z.ltb_lt in H end.
    lia.
Qed.

End SerialInputProofs.



Lemma Commands_handleSerialInput_bounded_witness :
  Z.of_nat (String.length "snap") <= Commands.MAXLINE /\
  Z.of_nat
    (String.length
       (Commands.handleSerialInput Scenario.sketch
          (list_ascii_of_string " 12") false "snap" Scenario.ready).1)
  <= Commands.MAXLINE.
Proof.
  assert (H : Z.of_nat (String.length "snap") <= Commands.MAXLINE)
    by (vm_compute; discriminate).
  split; [exact H |].
  exact (Commands_handleSerialInput_bounded Scenario.sketch _ false "snap"
           Scenario.ready H).
Defined.

(** ** Numbers with commas *)

Section Uint64ToStringProofs.

Import Commands.

Lemma store_at_end (pre : list ascii) (x c : ascii) (body : list ascii) :
  store (Z.of_nat (List.length pre)) c (pre ++ x :: body)
  = Some (pre ++ c :: body).
Proof.
  unfold store. rewrite List.length_app. cbn [List.length].
  destruct (Z.leb_spec 0 (Z.of_nat (List.length pre))); [| lia].
  destruct (Z.ltb_spec (Z.of_nat (List.length pre))
              (Z.of_nat (List.length pre + S (List.length body)))); [| lia].
  cbn [andb]. rewrite Nat2Z.id. f_equal.
  rewrite insert_app_r_alt by lia. now rewrite Nat.sub_diag.
Qed.

Lemma snoc_cases {A : Type} (l : list A) :
  l = [] \/ exists l' a, l = l' ++ [a].
Proof.
  induction l as [|a l' _] using List.rev_ind; [now left | right; eauto].
Qed.

Lemma commas_before_step (d : Z) :
  0 <= d ->
  commas_before (d + 1)
  = commas_before d + (if negb (d =? 0) && (d mod 3 =? 0) then 1 else 0).
Proof.
  intros Hd. unfold commas_before.
  replace (d + 1 - 1) with d by lia.
  destruct (Z.eqb_spec d 0) as [-> | Hne]; [reflexivity |].
  destruct (Z.eqb_spec (d mod 3) 0) as [Hm | Hm]; cbn [negb andb];
    Z.div_mod_to_equations; lia.
Qed.

Lemma with_commas_onto_grows (f : nat) :
  forall d n acc,
    (String.length acc <= String.length (with_commas_onto f d n acc))%nat.
Proof.
  induction f as [|f IH]; intros d n acc; [cbn; lia |].
  cbn [with_commas_onto].
  destruct (n / 10 =? 0).
  - destruct (negb (d =? 0) && (d mod 3 =? 0)); cbn; lia.
  - etransitivity; [| apply IH].
    destruct (negb (d =? 0) && (d mod 3 =? 0)); cbn; lia.
Qed.

(** A number of [m] digits takes [m] bytes and a byte for every comma. *)
Lemma with_commas_onto_length (m : nat) :
  forall f d n acc,
    (1 <= m <= f)%nat -> 0 <= d ->
    10 ^ (Z.of_nat m - 1) <= n < 10 ^ Z.of_nat m ->
    Z.of_nat (String.length (with_commas_onto f d n acc))
    = Z.of_nat (String.length acc) + Z.of_nat m
      + commas_before (d + Z.of_nat m) - commas_before d.
Proof.
  induction m as [|m IH]; intros f d n acc Hm Hd Hn; [lia |].
  destruct f as [|f]; [lia |]. cbn [with_commas_onto].
  pose proof (commas_before_step d Hd) as Hstep.
  destruct (Nat.eq_dec m O) as [-> | Hm0].
  - (* one digit *)
    change (10 ^ (Z.of_nat 1 - 1)) with 1 in Hn.
    change (10 ^ Z.of_nat 1) with 10 in Hn.
    rewrite Z.div_small by lia. cbn [Z.eqb].
    change (Z.of_nat 1) with 1.
    destruct (negb (d =? 0) && (d mod 3 =? 0)); cbn [String.length]; lia.
  - (* more digits *)
    assert (Hpow : 10 ^ Z.of_nat (S m) = 10 * 10 ^ Z.of_nat m)
      by (rewrite Nat2Z.inj_succ, Z.pow_succ_r; lia).
    assert (Hpow' : 10 ^ (Z.of_nat (S m) - 1) = 10 * 10 ^ (Z.of_nat m - 1)).
    { replace (Z.of_nat (S m) - 1) with (Z.succ (Z.of_nat m - 1)) by lia.
      rewrite Z.pow_succ_r; lia. }
    assert (Hp1 : 1 <= 10 ^ (Z.of_nat m - 1))
      by (pose proof (Z.pow_pos_nonneg 10 (Z.of_nat m - 1)); lia).
    assert (Hq : 10 ^ (Z.of_nat m - 1) <= n / 10 < 10 ^ Z.of_nat m).
    { split.
      - apply Z.div_le_lower_bound; lia.
      - apply Z.div_lt_upper_bound; lia. }
    destruct (Z.eqb_spec (n / 10) 0) as [E | _]; [lia |].
    rewrite IH by first [lia | exact Hq].
    replace (d + 1 + Z.of_nat m) with (d + Z.of_nat (S m)) by lia.
    destruct (negb (d =? 0) && (d mod 3 =? 0)); cbn [String.length]; lia.
Qed.

(** The loop writes the digits and commas of the number from the right
    into the free bytes [pre], in front of what is written already. *)
Lemma uint64ToString_loop_spec (f : nat) :
  forall d value (pre : list ascii) (acc : string) (tail : list ascii),
    0 <= d -> 0 < value < 10 ^ Z.of_nat f ->
    (String.length (with_commas_onto f d value acc)
     <= String.length acc + List.length pre)%nat ->
    exists pre' junk,
      pre = pre' ++ junk /\
      (String.length (with_commas_onto f d value acc)
       = String.length acc + List.length junk)%nat /\
      uint64ToString_loop (S f) (Z.of_nat (List.length pre) - 1) d value
        (pre ++ list_ascii_of_string acc ++ tail)
      = Some (Z.of_nat (List.length pre') - 1,
              pre' ++ list_ascii_of_string (with_commas_onto f d value acc)
                   ++ tail).
Proof.
  induction f as [|f IH]; intros d value pre acc tail Hd Hv Hroom.
  { change (10 ^ Z.of_nat 0) with 1 in Hv. lia. }
  cbn [with_commas_onto] in Hroom |- *.
  set (comma := negb (d =? 0) && (d mod 3 =? 0)) in *.
  set (acc1 := if comma then String "," acc else acc) in *.
  set (acc2 := String (Libc.digit_char (value mod 10)) acc1) in *.
  assert (Hlen2 : (String.length acc2
                   = String.length acc + (if comma then 2 else 1))%nat).
  { unfold acc2, acc1. destruct comma; cbn; lia. }
  assert (Hgrow : (String.length acc2
                   <= String.length
                        (if (value / 10 =? 0)%Z then acc2
                         else with_commas_onto f (d + 1)%Z (value / 10)%Z acc2))%nat).
  { destruct (value / 10 =? 0); [lia | apply with_commas_onto_grows]. }
  (* the bytes that the comma and the digit go into *)
  assert (Hpre : exists pre2 junk2,
             pre = pre2 ++ junk2 /\
             List.length junk2 = (if comma then 2 else 1)%nat /\
             forall t,
               (if comma
                then match store (Z.of_nat (List.length pre) - 1) ","
                             (pre ++ list_ascii_of_string acc ++ t) with
                     | Some digits1 =>
                         store (Z.of_nat (List.length pre) - 1 - 1)
                           (Libc.digit_char (value mod 10)) digits1
                     | None => None
                     end
                else store (Z.of_nat (List.length pre) - 1)
                       (Libc.digit_char (value mod 10))
                       (pre ++ list_ascii_of_string acc ++ t))
               = Some (pre2 ++ list_ascii_of_string acc2 ++ t)).
  { destruct (snoc_cases pre) as [-> | (pre1 & x & ->)].
    { cbn [List.length] in Hroom. destruct comma; lia. }
    rewrite List.length_app in *. cbn [List.length] in *.
    destruct comma eqn:Ec.
    - destruct (snoc_cases pre1) as [-> | (pre2 & y & ->)].
      { cbn [List.length] in Hroom. lia. }
      exists pre2, [y; x]. split; [now rewrite <- app_assoc |].
      split; [reflexivity |]. intros t.
      rewrite List.length_app. cbn [List.length].
      replace (Z.of_nat (List.length pre2 + 1 + 1) - 1)
        with (Z.of_nat (List.length (pre2 ++ [y]))) by
        (rewrite List.length_app; cbn [List.length]; lia).
      rewrite <- (app_assoc (pre2 ++ [y]) [x]). cbn [app].
      rewrite store_at_end.
      replace (Z.of_nat (List.length (pre2 ++ [y])) - 1)
        with (Z.of_nat (List.length pre2)) by
        (rewrite List.length_app; cbn [List.length]; lia).
      rewrite <- (app_assoc pre2 [y]). cbn [app].
      rewrite store_at_end. reflexivity.
    - exists pre1, [x]. split; [reflexivity |]. split; [reflexivity |].
      intros t.
      replace (Z.of_nat (List.length pre1 + 1) - 1)
        with (Z.of_nat (List.length pre1)) by lia.
      rewrite <- (app_assoc pre1 [x]). cbn [app].
      rewrite store_at_end. reflexivity. }
  destruct Hpre as (pre2 & junk2 & Epre & Hj2 & Hstore).
  assert (Hlp : List.length pre = (List.length pre2 + List.length junk2)%nat)
    by (rewrite Epre; apply List.length_app).
  (* one turn of the loop *)
  change (uint64ToString_loop (S (S f)) ?i d value ?dg)
    with (if negb ((0 <=? i) && (0 <? value)) then Some (i, dg)
          else
            match (if comma then store i "," dg else Some dg) with
            | None => None
            | Some digits1 =>
                match store (if comma then i - 1 else i)
                        (Libc.digit_char (value mod 10)) digits1 with
                | None => None
                | Some digits2 =>
                    uint64ToString_loop (S f)
                      ((if comma then i - 1 else i) - 1) (d + 1) (value / 10)
                      digits2
                end
            end).
  destruct (Z.leb_spec 0 (Z.of_nat (List.length pre) - 1)) as [_ | Hneg];
    [| destruct comma; lia].
  destruct (Z.ltb_spec 0 value) as [_ | ?]; [| lia]. cbn [andb negb].
  assert (Hturn :
    match (if comma
           then store (Z.of_nat (List.length pre) - 1) ","
                  (pre ++ list_ascii_of_string acc ++ tail)
           else Some (pre ++ list_ascii_of_string acc ++ tail)) with
    | None => None
    | Some digits1 =>
        match store (if comma then Z.of_nat (List.length pre) - 1 - 1
                     else Z.of_nat (List.length pre) - 1)
                (Libc.digit_char (value mod 10)) digits1 with
        | None => None
        | Some digits2 =>
            uint64ToString_loop (S f)
              ((if comma then Z.of_nat (List.length pre) - 1 - 1
                else Z.of_nat (List.length pre) - 1) - 1) (d + 1)
              (value / 10) digits2
        end
    end
    = uint64ToString_loop (S f) (Z.of_nat (List.length pre2) - 1) (d + 1)
        (value / 10) (pre2 ++ list_ascii_of_string acc2 ++ tail)).
  { specialize (Hstore tail). destruct comma.
    - destruct (store (Z.of_nat (List.length pre) - 1) ","
                  (pre ++ list_ascii_of_string acc ++ tail));
        [| discriminate].
      rewrite Hstore. f_equal. lia.
    - rewrite Hstore. f_equal. lia. }
  rewrite Hturn. clear Hturn Hstore.
  destruct (Z.eqb_spec (value / 10) 0) as [E | E].
  - (* that was the last digit *)
    exists pre2, junk2. split; [exact Epre |]. split; [lia |].
    rewrite E. cbn [uint64ToString_loop].
    change (0 <? 0) with false. now rewrite andb_false_r.
  - assert (Hq : 0 < value / 10 < 10 ^ Z.of_nat f).
    { assert (0 <= value / 10) by (apply Z.div_pos; lia).
      split; [lia |]. apply Z.div_lt_upper_bound; [lia |].
      rewrite Nat2Z.inj_succ, Z.pow_succ_r in Hv; lia. }
    destruct (IH (d + 1) (value / 10) pre2 acc2 tail ltac:(lia) Hq
                ltac:(lia)) as (pre' & junk & Epre2 & Hj & Hloop).
    exists pre', (junk ++ junk2).
    split; [rewrite Epre, Epre2; now rewrite app_assoc |].
    split; [rewrite List.length_app; lia | exact Hloop].
Qed.

Lemma digit_char_text (d : Z) :
  0 <= d < 10 -> FileSystem.text_char (Libc.digit_char d) = true.
Proof.
  intros H. unfold FileSystem.text_char. apply negb_true_iff.
  apply Ascii.eqb_neq. intros E. apply (f_equal Libc.code) in E.
  rewrite code_digit_char in E by exact H.
  change (Libc.code FileSystem.NUL) with 0 in E. lia.
Qed.

Lemma with_commas_onto_text (f : nat) :
  forall d n acc,
    Libc.all_chars FileSystem.text_char acc = true ->
    Libc.all_chars FileSystem.text_char (with_commas_onto f d n acc) = true.
Proof.
  induction f as [|f IH]; intros d n acc H; [exact H |].
  cbn [with_commas_onto].
  assert (H2 : Libc.all_chars FileSystem.text_char
                 (String (Libc.digit_char (n mod 10))
                    (if negb (d =? 0) && (d mod 3 =? 0)
                     then String "," acc else acc)) = true).
  { cbn [Libc.all_chars].
    rewrite digit_char_text by (apply Z.mod_pos_bound; lia).
    destruct (negb (d =? 0) && (d mod 3 =? 0)); [| exact H].
    cbn [Libc.all_chars andb]. now rewrite H. }
  destruct (n / 10 =? 0); [exact H2 | now apply IH].
Qed.

Lemma c_string_text (text : string) (rest : list ascii) :
  Libc.all_chars FileSystem.text_char text = true ->
  c_string (list_ascii_of_string text ++ "000"%char :: rest) = text.
Proof.
  induction text as [|c text IH]; intros H; [reflexivity |].
  cbn [Libc.all_chars] in H. apply andb_prop in H as [Hc H].
  unfold FileSystem.text_char in Hc. apply negb_true_iff in Hc.
  cbn [list_ascii_of_string app c_string].
  change (Ascii.eqb c "000") with (Ascii.eqb c FileSystem.NUL).
  now rewrite Hc, IH.
Qed.

Lemma digit_count (f : nat) :
  forall n, 0 < n < 10 ^ Z.of_nat f ->
    exists m : nat,
      (1 <= m <= f)%nat /\ (10 ^ (Z.of_nat m - 1) <= n < 10 ^ Z.of_nat m).
Proof.
  induction f as [|f IH]; intros n Hn.
  { change (10 ^ Z.of_nat 0) with 1 in Hn. lia. }
  destruct (Z.lt_ge_cases n (10 ^ Z.of_nat f)) as [Hlt | Hge].
  - destruct (IH n ltac:(lia)) as (m & Hm & Hb).
    exists m. split; [lia | exact Hb].
  - exists (S f). split.
    + lia.
    + replace (Z.of_nat (S f) - 1) with (Z.of_nat f) by lia. lia.
Qed.

Lemma digit_char_not_comma (d : Z) :
  0 <= d < 10 -> Ascii.eqb (Libc.digit_char d) "," = false.
Proof.
  intros H. apply Ascii.eqb_neq. intros E. apply (f_equal Libc.code) in E.
  rewrite code_digit_char in E by exact H.
  change (Libc.code ",") with 44 in E. lia.
Qed.

(** Without its commas the number is written as [printf] writes it. *)
Lemma strip_with_commas_onto (f : nat) :
  forall f' d n acc,
    0 < n < 10 ^ Z.of_nat f -> n < 10 ^ Z.of_nat f' ->
    strip_commas (with_commas_onto f d n acc)
    = Libc.digits_onto f' n (strip_commas acc).
Proof.
  induction f as [|f IH]; intros f' d n acc Hn Hn'.
  { change (10 ^ Z.of_nat 0) with 1 in Hn. lia. }
  destruct f' as [|f'].
  { change (10 ^ Z.of_nat 0) with 1 in Hn'. lia. }
  cbn [with_commas_onto Libc.digits_onto].
  assert (Hacc : strip_commas
                   (String (Libc.digit_char (n mod 10))
                      (if negb (d =? 0) && (d mod 3 =? 0)
                       then String "," acc else acc))
                 = String (Libc.digit_char (n mod 10)) (strip_commas acc)).
  { cbn [strip_commas].
    rewrite digit_char_not_comma by (apply Z.mod_pos_bound; lia).
    now destruct (negb (d =? 0) && (d mod 3 =? 0)). }
  destruct (Z.eqb_spec (n / 10) 0) as [E | E]; [exact Hacc |].
  rewrite IH with (f' := f'), Hacc; [reflexivity | |].
  - assert (0 <= n / 10) by (apply Z.div_pos; lia).
    split; [lia |]. apply Z.div_lt_upper_bound; [lia |].
    rewrite Nat2Z.inj_succ, Z.pow_succ_r in Hn; lia.
  - apply Z.div_lt_upper_bound; [lia |].
    rewrite Nat2Z.inj_succ, Z.pow_succ_r in Hn'; lia.
Qed.

(** X14. For a number of 64 bits that is not zero, [uint64ToString]
    writes inside its array of 27 bytes only. The string it returns is
    the decimal number with a comma before every group of three digits,
    unless the number has 19 digits: then the string starts one byte too
    early, at the first byte of the array as the call found it, so that
    it is empty where that byte is zero. *)
Theorem Commands_uint64ToString_commas (value : Z) (digits : list ascii) :
  List.length digits = 27%nat -> 0 < value < 2 ^ 64 ->
  exists res digits',
    uint64ToString value digits = Some (res, digits') /\
    List.length digits' = 27%nat /\
    strip_commas (with_commas value) = Libc.decimal value /\
    (value < 10 ^ 18 \/ 10 ^ 19 <= value -> res = with_commas value) /\
    (10 ^ 18 <= value < 10 ^ 19 ->
     forall b rest, digits = b :: rest ->
       res = if Ascii.eqb b "000" then ""
             else String b (with_commas value)).
Proof.
  intros Hlen Hv.
  assert (Hv20 : 0 < value < 10 ^ Z.of_nat 20).
  { split; [lia |]. apply Z.lt_trans with (2 ^ 64); [lia | reflexivity]. }
  destruct (digit_count 20 value Hv20) as (m & Hm & Hb).
  pose proof (with_commas_onto_length m 20 0 value "" Hm ltac:(lia) Hb)
    as HlenW.
  fold (with_commas value) in HlenW. cbn [String.length] in HlenW.
  assert (Htext : Libc.all_chars FileSystem.text_char (with_commas value)
                  = true) by now apply with_commas_onto_text.
  destruct (snoc_cases digits) as [-> | (pre & x & ->)]; [discriminate |].
  rewrite List.length_app in Hlen. cbn [List.length] in Hlen.
  assert (Hpre : List.length pre = 26%nat) by lia.
  unfold uint64ToString.
  destruct (Z.eqb_spec value 0) as [? | _]; [lia |].
  replace MAXCHARS with (Z.of_nat (List.length pre))
    by (rewrite Hpre; reflexivity).
  rewrite store_at_end.
  assert (Hcb : commas_before (0 + Z.of_nat m) = (Z.of_nat m - 1) / 3).
  { unfold commas_before.
    replace (0 + Z.of_nat m - 1) with (Z.of_nat m - 1) by lia.
    assert (0 <= (Z.of_nat m - 1) / 3) by (apply Z.div_pos; lia). lia. }
  rewrite Hcb in HlenW. change (commas_before 0) with 0 in HlenW.
  destruct (uint64ToString_loop_spec 20 0 value pre "" ["000"%char]
              ltac:(lia) Hv20) as (pre' & junk & Epre & Hj & Hloop).
  { fold (with_commas value). cbn [String.length].
    rewrite Hpre. Z.div_mod_to_equations. lia. }
  fold (with_commas value) in Hj, Hloop. cbn [String.length] in Hj.
  cbn [list_ascii_of_string app] in Hloop.
  change (S 20) with 21%nat in Hloop. rewrite Hloop.
  assert (Hp' : Z.of_nat (List.length pre')
                = 26 - (Z.of_nat m + (Z.of_nat m - 1) / 3)).
  { apply (f_equal (@List.length ascii)) in Epre.
    rewrite List.length_app in Epre. lia. }
  assert (Hout : List.length (pre' ++ list_ascii_of_string (with_commas value)
                                ++ ["000"%char]) = 27%nat).
  { rewrite !List.length_app. cbn [List.length].
    assert (E : List.length (list_ascii_of_string (with_commas value))
                = String.length (with_commas value)).
    { clear. induction (with_commas value); cbn; congruence. }
    rewrite E. lia. }
  assert (Hdec : strip_commas (with_commas value) = Libc.decimal value).
  { unfold with_commas, Libc.decimal.
    rewrite strip_with_commas_onto
      with (f' := S (Z.to_nat (Z.log2 value))); [reflexivity | exact Hv20 |].
    apply decimal_fuel. lia. }
  destruct (Z.leb_spec (Z.of_nat (List.length pre') - 1) 0) as [Hle | Hgt].
  - (* nineteen digits or twenty *)
    eexists _, _. split; [reflexivity |]. split; [exact Hout |].
    split; [exact Hdec |].
    destruct pre' as [|b0 pre'].
    + (* twenty *)
      cbn [app]. rewrite c_string_text by exact Htext.
      split; [reflexivity |]. intros H19.
      cbn [List.length] in Hp'.
      assert (Z.of_nat m <= 19).
      { destruct (Z.le_gt_cases (Z.of_nat m) 19) as [? | Hm20]; [lia |].
        assert (10 ^ 19 <= 10 ^ (Z.of_nat m - 1))
          by (apply Z.pow_le_mono_r; lia). lia. }
      Z.div_mod_to_equations. lia.
    + (* nineteen *)
      destruct pre' as [|? ?]; [| cbn [List.length] in Hle; lia].
      cbn [List.length] in Hp'. cbn [app c_string].
      rewrite c_string_text by exact Htext.
      assert (Em : Z.of_nat m = 19) by (Z.div_mod_to_equations; lia).
      rewrite Em in Hb. change (19 - 1) with 18 in Hb.
      split; [intros [? | ?]; lia |].
      intros _ b rest E. rewrite Epre in E. cbn [app] in E.
      injection E as -> _. reflexivity.
  - (* fewer *)
    eexists _, _. split; [reflexivity |]. split; [exact Hout |].
    split; [exact Hdec |].
    replace (Z.to_nat (Z.of_nat (List.length pre') - 1 + 1))
      with (List.length pre') by lia.
    rewrite drop_app_length, c_string_text by exact Htext.
    split; [reflexivity |]. intros H19.
    assert (Em : Z.of_nat m = 19).
    { destruct (Z.lt_trichotomy (Z.of_nat m) 19) as [Hlt | [? | Hmgt]];
        [| assumption |].
      - assert (10 ^ Z.of_nat m <= 10 ^ 18)
          by (apply Z.pow_le_mono_r; lia). lia.
      - assert (10 ^ 19 <= 10 ^ (Z.of_nat m - 1))
          by (apply Z.pow_le_mono_r; lia). lia. }
    Z.div_mod_to_equations. lia.
Qed.

End Uint64ToStringProofs.

Lemma Commands_uint64ToString_commas_witness :
  exists res digits',
    Commands.uint64ToString 1234567890123456789
      (List.repeat "x"%char 27) = Some (res, digits') /\
    List.length digits' = 27%nat /\
    Commands.strip_commas (Commands.with_commas 1234567890123456789)
    = Libc.decimal 1234567890123456789 /\
    (1234567890123456789 < 10 ^ 18 \/ 10 ^ 19 <= 1234567890123456789 ->
     res = Commands.with_commas 1234567890123456789) /\
    (10 ^ 18 <= 1234567890123456789 < 10 ^ 19 ->
     forall b rest, List.repeat "x"%char 27 = b :: rest ->
       res = if Ascii.eqb b "000" then ""
             else String b (Commands.with_commas 1234567890123456789)).
Proof.
  apply (Commands_uint64ToString_commas 1234567890123456789
           (List.repeat "x"%char 27)).
  - reflexivity.
  - split; reflexivity.
Defined.

(** ** Start, stop and snap *)

Section RunCommandsProofs.

Import Commands.

Variable k : sketch.

Lemma print_says (msg : string) (w : world) : print msg w = says [msg] w.
Proof. reflexivity. Qed.

Lemma says_says (a b : list string) (w : world) :
  says b (says a w) = says (a ++ b) w.
Proof. unfold says. cbn. now rewrite <- app_assoc. Qed.


(** X17. [snap] with a number of two or more hands the number to
    [snapAndLog] as a byte: the burst that is taken is the number modulo
    256, while the number itself is reported as the images shot. So
    [snap 256] asks for a burst of none and reports 256 images. *)
Theorem Commands_snap_count_is_a_byte (arg : string) (w : world) :
  booting w || failing w || in_a_run w = false ->
  arg <> "" ->
  1 < uint16 (Libc.atoi arg) ->
  dispatch_command k "snap" arg w
  = print (Libc.printf_d (uint16 (Libc.atoi arg)) +:+ crlf " images shot.")
      (snapAndLog k (uint16 (Libc.atoi arg) mod 256)
         (print (crlf "Camera powering up...") w)).2.
Proof.
  unfold booting, failing, in_a_run. intros H Harg Hn.
  apply orb_false_elim in H as [H Hrun].
  apply orb_false_elim in H as [Hboot Hfail].
  assert (Ha : String.eqb arg "" = false) by now apply String.eqb_neq.
  unfold dispatch_command. cbn [String.eqb Ascii.eqb Bool.eqb String.prefix].
  unfold snap_command. rewrite Ha.
  destruct (Z.leb_spec (uint16 (Libc.atoi arg)) 1) as [? | _]; [lia |].
  unfold snap. rewrite Hboot, Hfail, Hrun.
  destruct (Z.eqb_spec (uint16 (Libc.atoi arg)) 1) as [? | _]; [lia |].
  reflexivity.
Qed.

End RunCommandsProofs.

Lemma Commands_refused_while_running_witness :
  (Commands.getSoftwareStatus Scenario.running = Commands.SOFTWARE_RUNNING /\
   "on" <> "") /\
  exists msg,
    In msg Commands.refusals /\
    Commands.dispatch_command Scenario.sketch "laser" "on" Scenario.running
    = Commands.print msg Scenario.running.
Proof.
  assert (H1 : Commands.getSoftwareStatus Scenario.running
               = Commands.SOFTWARE_RUNNING) by reflexivity.
  assert (H2 : "on" <> "") by discriminate.
  split; [split; assumption |].
  exact (Commands_refused_while_running Scenario.sketch "laser" "on"
           Scenario.running H1 H2 (or_intror (or_intror (or_intror eq_refl)))).
Defined.


Lemma Commands_snap_count_is_a_byte_witness :
  (Commands.booting Scenario.ready || Commands.failing Scenario.ready
   || Commands.in_a_run Scenario.ready = false /\
   "258" <> "" /\ 1 < uint16 (Libc.atoi "258")) /\
  Commands.dispatch_command Scenario.sketch "snap" "258" Scenario.ready
  = Commands.print
      (Libc.printf_d (uint16 (Libc.atoi "258"))
       +:+ Commands.crlf " images shot.")
      (Commands.snapAndLog Scenario.sketch (uint16 (Libc.atoi "258") mod 256)
         (Commands.print (Commands.crlf "Camera powering up...")
            Scenario.ready)).2.
Proof.
  assert (H1 : Commands.booting Scenario.ready
               || Commands.failing Scenario.ready
               || Commands.in_a_run Scenario.ready = false) by reflexivity.
  assert (H2 : "258" <> "") by discriminate.
  assert (H3 : 1 < uint16 (Libc.atoi "258")) by (vm_compute; reflexivity).
  split; [repeat split; assumption |].
  exact (Commands_snap_count_is_a_byte Scenario.sketch "258" Scenario.ready
           H1 H2 H3).
Defined.

(** ** The start/stop switch, debounced *)

Section DebounceProofs.

Import Switches.

Lemma update_held (t : tick) (cur : Z) (s : state) :
  held cur s -> (pin t = SWITCH_UP -> cur = SWITCH_UP) ->
  held (pin t) (update t s).
Proof.
  intros (Hc & Hlp & Hcur) Hrise.
  assert (Hup : pin t = SWITCH_UP ->
                lastSteadyState s = SWITCH_UP /\
                previousSteadyState s = SWITCH_UP)
    by (intros H; apply Hcur, Hrise, H).
  unfold update, held.
  destruct (negb (pin t =? lastFlickerableState s));
    cbn [lastDebounceMillis count previousSteadyState lastSteadyState
         lastFlickerableState];
    match goal with
    | |- context [SWITCH_DEBOUNCE_PERIOD <=? ?x] =>
        destruct (SWITCH_DEBOUNCE_PERIOD <=? x)
    end;
    cbn [lastDebounceMillis count previousSteadyState lastSteadyState
         lastFlickerableState];
    match goal with
    | |- context [negb (?a =? ?b) && (?c =? SWITCH_UP)] =>
        destruct (Z.eqb_spec a b) as [Hab | Hab];
        destruct (Z.eqb_spec c SWITCH_UP) as [Hc' | Hc']
    end;
    cbn [negb andb count previousSteadyState lastSteadyState];
    first [ exfalso; apply Hab; destruct (Hup Hc'); congruence
          | exfalso; apply Hab; rewrite Hlp by assumption; congruence
          | repeat split; intros; first [assumption | tauto | congruence] ].
Qed.

(** X18. No press is reported before the switch is let go: as long as
    the level of the pin has not risen from down to up since [init], every
    call of [isStartStopPressed] returns false, however long the switch
    is held down and whatever the clock reads. *)
Theorem Switches_nothing_before_release (pin0 : Z) (calls : list call) :
  level pin0 -> Forall level (samples calls) ->
  releases pin0 (samples calls) = 0%nat ->
  Forall (fun b => b = false) (run calls (init pin0)).1.
Proof.
  assert (Hinit : held pin0 (init pin0)) by (unfold held, init; cbn; tauto).
  generalize dependent (init pin0). generalize pin0 as cur.
  induction calls as [|[t|] calls IH]; intros cur s Hs Hcur Hl Hr;
    cbn [run samples] in *.
  - constructor.
  - inversion Hl as [|? ? Hpin Hl']; subst. cbn [releases] in Hr.
    assert (Hrise : pin t = SWITCH_UP -> cur = SWITCH_UP).
    { intros Hup. destruct Hcur as [Hdown | ?]; [| assumption].
      rewrite Hdown, Hup in Hr. discriminate. }
    apply (IH (pin t));
      [now apply (update_held t cur) | assumption | assumption |].
    destruct ((cur =? SWITCH_DOWN) && (pin t =? SWITCH_UP));
      [discriminate | exact Hr].
  - unfold isStartStopPressed. destruct Hs as (Hc & Hs). rewrite Hc.
    change (0 <? 0) with false. cbv iota.
    specialize (IH cur s (conj Hc Hs) Hcur Hl Hr).
    destruct (run calls s) as [bs s2]. cbn [fst] in *.
    now constructor.
Qed.

Lemma update_bouncing (t : tick) (prev since : Z) (s : state) :
  bouncing prev since s ->
  pin t = SWITCH_UP \/
  pin t = SWITCH_DOWN /\
  uint32 (now2 t - (if pin t =? prev then since else now1 t))
  < SWITCH_DEBOUNCE_PERIOD ->
  bouncing (pin t) (if pin t =? prev then since else now1 t) (update t s).
Proof.
  intros (Hc & Hl & Hp & Hf & Hd) Hpin. unfold update, bouncing.
  rewrite Hf.
  destruct (Z.eqb_spec (pin t) prev) as [E | E]; cbn [negb];
    cbn [lastDebounceMillis count previousSteadyState lastSteadyState
         lastFlickerableState];
    try rewrite Hd;
    match goal with
    | |- context [SWITCH_DEBOUNCE_PERIOD <=? ?x] =>
        destruct (Z.leb_spec SWITCH_DEBOUNCE_PERIOD x) as [Hlock | Hlock]
    end;
    cbn [lastDebounceMillis count previousSteadyState lastSteadyState
         lastFlickerableState];
    try rewrite Hl; try rewrite Hp;
    (destruct Hpin as [Hup | [Hdown Hlt]]; [| try lia]);
    try rewrite Hup; try rewrite Hdown;
    cbn [Z.eqb Pos.eqb SWITCH_UP SWITCH_DOWN negb andb count
         previousSteadyState lastSteadyState lastFlickerableState
         lastDebounceMillis];
    repeat split; try assumption; try congruence.
Qed.

(** X19. A switch that bounces is not reported: starting with the switch
    up, as long as every sample at the down level is taken less than
    50 ms after the level last changed, every call of
    [isStartStopPressed] returns false. *)
Theorem Switches_bounce_ignored (calls : list call) :
  brief_dips SWITCH_UP 0 calls ->
  Forall (fun b => b = false) (run calls (init SWITCH_UP)).1.
Proof.
  assert (Hinit : bouncing SWITCH_UP 0 (init SWITCH_UP))
    by (unfold bouncing, init; cbn; tauto).
  generalize dependent (init SWITCH_UP).
  generalize SWITCH_UP as prev, 0 as since.
  induction calls as [|[t|] calls IH]; intros prev since s Hs Hb;
    cbn [run brief_dips] in *.
  - constructor.
  - destruct Hb as [Hpin Hb].
    apply (IH _ _ _ (update_bouncing t prev since s Hs Hpin) Hb).
  - unfold isStartStopPressed. pose proof Hs as (Hc & _). rewrite Hc.
    change (0 <? 0) with false. cbv iota.
    specialize (IH prev since s Hs Hb).
    destruct (run calls s) as [bs s2]. cbn [fst] in *.
    now constructor.
Qed.

End DebounceProofs.

Lemma Switches_nothing_before_release_witness :
  (Switches.level 1 /\
   Forall Switches.level (Switches.samples Scenario.held_down) /\
   Switches.releases 1 (Switches.samples Scenario.held_down) = 0%nat) /\
  Forall (fun b => b = false)
    (Switches.run Scenario.held_down (Switches.init 1)).1.
Proof.
  assert (H1 : Switches.level 1) by (right; reflexivity).
  assert (H2 : Forall Switches.level (Switches.samples Scenario.held_down)).
  { repeat (constructor;
            [first [left; reflexivity | right; reflexivity] |]).
    constructor. }
  assert (H3 : Switches.releases 1 (Switches.samples Scenario.held_down)
               = 0%nat) by reflexivity.
  split; [repeat split; assumption |].
  exact (Switches_nothing_before_release 1 Scenario.held_down H1 H2 H3).
Defined.

Lemma Switches_bounce_ignored_witness :
  Switches.brief_dips Switches.SWITCH_UP 0 Scenario.bounce /\
  Forall (fun b => b = false)
    (Switches.run Scenario.bounce (Switches.init Switches.SWITCH_UP)).1.
Proof.
  assert (H : Switches.brief_dips Switches.SWITCH_UP 0 Scenario.bounce).
  { cbn. repeat split;
      first [left; reflexivity
            | right; split; [reflexivity | vm_compute; reflexivity]]. }
  split; [exact H |].
  exact (Switches_bounce_ignored Scenario.bounce H).
Defined.

(** ** Camera and laser power over many calls *)

Lemma Camera_drive_app (a b : list Arduino.Event) (r : Camera.relays) :
  Camera.drive (a ++ b) r = Camera.drive b (Camera.drive a r).
Proof.
  revert r. induction a as [|e a IH]; intros r; [reflexivity |].
  destruct e as [p [|] | ms]; cbn [app Camera.drive]; apply IH.
Qed.

(** X20. Without [force], the presumed power state and the camera keep
    the step they are in. Calls of [setPower] that do not force leave the
    presumed state equal to the state of the camera relay when it was
    equal before, and different when it was different: the software
    cannot get back in step without [force]. The intensifier relay is as
    presumed whenever it was before. *)
Theorem Camera_power_keeps_step
    (calls : list (bool * bool)) (s : Camera.state) (r : Camera.relays) :
  Forall (fun c => c.2 = false) calls ->
  let s' := (Camera.power_calls calls s).1 in
  let r' := Camera.drive (Camera.power_calls calls s).2 r in
  Bool.eqb (Camera.camera_on r') (Camera.powerStatus s')
  = Bool.eqb (Camera.camera_on r) (Camera.powerStatus s) /\
  (Camera.intensifier_on r = Camera.powerStatus s ->
   Camera.intensifier_on r' = Camera.powerStatus s').
Proof.
  intros H. revert s r. induction H as [|[onOff force] calls Hf _ IH];
    intros s r; [cbn; tauto |].
  cbn [snd] in Hf. subst force. cbn [Camera.power_calls].
  destruct (Camera.setPower onOff false s) as [s1 tr] eqn:E.
  specialize (IH s1 (Camera.drive tr r)).
  destruct (Camera.power_calls calls s1) as [s2 tr']. cbn [fst snd] in *.
  rewrite Camera_drive_app.
  destruct IH as [IH1 IH2]. rewrite IH1.
  assert (Hstep : Bool.eqb (Camera.camera_on (Camera.drive tr r))
                    (Camera.powerStatus s1)
                  = Bool.eqb (Camera.camera_on r) (Camera.powerStatus s) /\
                  (Camera.intensifier_on r = Camera.powerStatus s ->
                   Camera.intensifier_on (Camera.drive tr r)
                   = Camera.powerStatus s1)).
  { unfold Camera.setPower in E. destruct s as [p], r as [c i].
    destruct onOff, p; cbn in E; injection E as <- <-; cbn;
      destruct c; split; auto. }
  destruct Hstep as [H1 H2]. split; [exact H1 |].
  intros Hi. apply IH2, H2, Hi.
Qed.

Lemma Camera_power_keeps_step_witness :
  Forall (fun c : bool * bool => c.2 = false)
    [(true, false); (true, false); (false, false); (true, false)] /\
  Camera.camera_on
    (Camera.drive
       (Camera.power_calls
          [(true, false); (true, false); (false, false); (true, false)]
          {| Camera.powerStatus := false |}).2
       {| Camera.camera_on := false; Camera.intensifier_on := false |})
  = true.
Proof.
  assert (H : Forall (fun c : bool * bool => c.2 = false)
                [(true, false); (true, false); (false, false);
                 (true, false)])
    by (repeat constructor).
  split; [exact H |].
  pose proof (Camera_power_keeps_step _ {| Camera.powerStatus := false |}
                {| Camera.camera_on := false; Camera.intensifier_on := false |}
                H) as [Hc _].
  apply Bool.eqb_prop in Hc. rewrite Hc. reflexivity.
Defined.

Section LaserProofs.

Import Arduino Laser.

Lemma pin_level_app (a b : list Event) (l : Level) :
  pin_level (a ++ b) l = pin_level b (pin_level a l).
Proof.
  revert l. induction a as [|e a IH]; intros l; [reflexivity |].
  destruct e as [p l' | ms]; cbn [app pin_level]; apply IH.
Qed.

Lemma setPower_pin (onOff : bool) (s : state) (l : Level) :
  Level_eqb l HIGH = powerStatus s ->
  Level_eqb (pin_level (setPower onOff s).2 l) HIGH
  = powerStatus (setPower onOff s).1 /\
  powerStatus (setPower onOff s).1 = onOff.
Proof.
  unfold setPower. destruct s as [p]. cbn [powerStatus].
  destruct onOff, p, l; cbn; intros H; try discriminate; split; reflexivity.
Qed.

Lemma testCycle_loop_pin (i : nat) :
  forall s l,
    Level_eqb l HIGH = powerStatus s ->
    Level_eqb (pin_level (testCycle_loop i s).2 l) HIGH
    = powerStatus (testCycle_loop i s).1 /\
    (i <> O -> powerStatus (testCycle_loop i s).1 = false).
Proof.
  induction i as [|i IH]; intros s l H; [cbn; now split |].
  cbn [testCycle_loop].
  destruct (setPower_pin true s l H) as [H1 _].
  destruct (setPower true s) as [s1 tr1]. cbn [fst snd] in H1.
  destruct (setPower_pin false s1 (pin_level tr1 l) H1) as [H2 Hoff].
  destruct (setPower false s1) as [s2 tr2]. cbn [fst snd] in H2, Hoff.
  set (pause := if negb (Z.of_nat (S i) =? 1)
                then [Delay LASER_WARMUP_DELAY] else []).
  assert (Hp : forall x, pin_level pause x = x)
    by (intros x; unfold pause; now destruct (negb (Z.of_nat (S i) =? 1))).
  specialize (IH s2 (pin_level tr2 (pin_level tr1 l)) H2).
  assert (Hlast : i = O -> powerStatus (testCycle_loop i s2).1 = false)
    by (intros ->; exact Hoff).
  destruct (testCycle_loop i s2) as [s3 tr3]. cbn [fst snd] in *.
  rewrite !pin_level_app. cbn [pin_level]. rewrite Hp.
  destruct IH as [IH1 IH2]. split; [exact IH1 |]. intros _.
  destruct i as [|i]; [now apply Hlast | apply IH2; discriminate].
Qed.

(** X21. The laser pin follows the presumed power state. When the level
    of the pin is high just when the laser is presumed on, it still is
    after any calls of [setPower] and [testCycle]; the state is then what
    the last [setPower] asked for, and off when [testCycle] came last. *)
Theorem Laser_pin_follows_power (calls : list call) (s : state) (l : Level) :
  Level_eqb l HIGH = powerStatus s ->
  Level_eqb (pin_level (run calls s).2 l) HIGH = powerStatus (run calls s).1 /\
  (forall before onOff,
      calls = before ++ [SetPower onOff] ->
      powerStatus (run calls s).1 = onOff) /\
  (forall before,
      calls = before ++ [TestCycle] -> powerStatus (run calls s).1 = false).
Proof.
  revert s l. induction calls as [|c calls IH]; intros s l H.
  { cbn. split; [exact H |].
    split; intros; destruct before; discriminate. }
  cbn [run].
  assert (Hc : Level_eqb
                 (pin_level
                    (match c with
                     | SetPower onOff => setPower onOff s
                     | TestCycle => testCycle s
                     end).2 l) HIGH
               = powerStatus
                   (match c with
                    | SetPower onOff => setPower onOff s
                    | TestCycle => testCycle s
                    end).1).
  { destruct c as [onOff |];
      [apply setPower_pin | apply testCycle_loop_pin]; exact H. }
  assert (Hlast : match c with
                  | SetPower onOff =>
                      powerStatus (setPower onOff s).1 = onOff
                  | TestCycle => powerStatus (testCycle s).1 = false
                  end).
  { destruct c as [onOff |].
    - now apply (setPower_pin onOff s l).
    - apply (testCycle_loop_pin 3 s l H). discriminate. }
  destruct (match c with
            | SetPower onOff => setPower onOff s
            | TestCycle => testCycle s
            end) as [s1 tr] eqn:E.
  cbn [fst snd] in Hc.
  specialize (IH s1 (pin_level tr l) Hc).
  destruct (run calls s1) as [s2 tr'] eqn:E2. cbn [fst snd] in *.
  rewrite pin_level_app. destruct IH as (IH1 & IH2 & IH3).
  split; [exact IH1 |].
  split.
  - intros before onOff Eq. destruct before as [|c' before].
    + cbn [app] in Eq. injection Eq as -> ->. cbn in E2.
      injection E2 as <- _. rewrite E in Hlast. exact Hlast.
    + cbn [app] in Eq. injection Eq as _ Eq. now apply (IH2 before).
  - intros before Eq. destruct before as [|c' before].
    + cbn [app] in Eq. injection Eq as -> ->. cbn in E2.
      injection E2 as <- _. rewrite E in Hlast. exact Hlast.
    + cbn [app] in Eq. injection Eq as _ Eq. now apply (IH3 before).
Qed.

End LaserProofs.

Lemma Laser_pin_follows_power_witness :
  Arduino.Level_eqb Arduino.LOW Arduino.HIGH
  = Laser.powerStatus {| Laser.powerStatus := false |} /\
  Laser.powerStatus
    (Laser.run [Laser.SetPower true; Laser.TestCycle]
       {| Laser.powerStatus := false |}).1 = false.
Proof.
  assert (H : Arduino.Level_eqb Arduino.LOW Arduino.HIGH
              = Laser.powerStatus {| Laser.powerStatus := false |})
    by reflexivity.
  split; [exact H |].
  destruct (Laser_pin_follows_power [Laser.SetPower true; Laser.TestCycle]
              {| Laser.powerStatus := false |} Arduino.LOW H)
    as (_ & _ & Hoff).
  exact (Hoff [Laser.SetPower true] eq_refl).
Defined.

Section ForceOffProofs.

Import Commands.

Variable k : sketch.


End ForceOffProofs.


(** X27. [Camera::snap] blocks for 60 ms for every image of the burst,
    the relay delay and the shutter delay, and trips the shutter once
    for each; with the camera presumed off it returns at once and the
    shutter is not tripped. The burst size is a byte. *)
Theorem Camera_snap_blocks (nImages : Z) (s : Camera.state) :
  0 <= nImages < 2 ^ 8 ->
  Arduino.blocked_ms (Camera.snap nImages s)
  = (if Camera.isPowerOn s then 60 * nImages else 0) /\
  Arduino.pulses Arduino.CAMERA_SHUTTER_PIN (Camera.snap nImages s)
  = (if Camera.isPowerOn s then Z.to_nat nImages else 0%nat).
Proof.
  intros Hn. unfold Camera.snap, Camera.isPowerOn.
  destruct (Camera.powerStatus s); cbn [negb]; [| split; reflexivity].
  assert (Hu : uint8 nImages = nImages) by (apply Z.mod_small; exact Hn).
  rewrite Hu. split.
  - rewrite Camera_snap_loop_blocked, Z2Nat.id by lia.
    unfold Camera.CAMERA_RELAY_DELAY, Camera.CAMERA_SHUTTER_DELAY. lia.
  - apply Camera_snap_loop_pulses.
Qed.

Lemma Camera_snap_blocks_witness :
  0 <= 5 < 2 ^ 8 /\
  Arduino.blocked_ms (Camera.snap 5 {| Camera.powerStatus := true |}) = 300.
Proof.
  assert (H : 0 <= 5 < 2 ^ 8) by (split; [discriminate | reflexivity]).
  split; [exact H |].
  exact (proj1 (Camera_snap_blocks 5 {| Camera.powerStatus := true |} H)).
Defined.

(** ** Which sensors are there *)

(** X22. After [init], each of the three presence tests tells whether
    its own sensor started, whatever the other two did; [init] returns
    true, and [isInitialized] with it, just when all three started. With
    a pressure or water temperature sensor that did not start, its
    reader returns zero. *)
Theorem Sensors_init_presence {flt} (zero : flt) (bad : flt -> bool)
    (inertia pressure temperature : bool)
    (reading out : flt * flt) (celsius out' : flt) :
  let r := Sensors.init inertia pressure temperature in
  Sensors.isInertiaSensorPresent r.2 = inertia /\
  Sensors.isPressureSensorPresent r.2 = pressure /\
  Sensors.isTemperatureSensorPresent r.2 = temperature /\
  r.1 = inertia && pressure && temperature /\
  Sensors.isInitialized r.2 = r.1 /\
  Sensors.getWaterPressure zero r.2 reading out
  = (if pressure then reading else (zero, zero)) /\
  Sensors.getWaterTemperature zero bad r.2 celsius out'
  = (if temperature && negb (bad celsius) then celsius else zero).
Proof.
  destruct inertia, pressure, temperature; cbv zeta;
    repeat split; try reflexivity;
    unfold Sensors.getWaterTemperature; cbn;
    now destruct (bad celsius).
Qed.

(** ** Dates *)

Section ParseDateProofs.

Import Clock.

Lemma groups_inside (s : string) :
  groups true s = groups false (past_digits s).
Proof.
  induction s as [|c s IH]; [reflexivity |].
  cbn [groups past_digits]. destruct (Libc.isdigit c) eqn:E.
  - exact IH.
  - cbn [groups]. now rewrite E.
Qed.

Lemma groups_to_digits (s : string) :
  groups false s = groups false (to_digits s).
Proof.
  induction s as [|c s IH]; [reflexivity |].
  cbn [groups to_digits]. destruct (Libc.isdigit c) eqn:E; cbn [negb].
  - cbn [groups]. now rewrite E.
  - exact IH.
Qed.

Lemma to_digits_head (s : string) (c : ascii) (t : string) :
  to_digits s = String c t -> Libc.isdigit c = true.
Proof.
  induction s as [|x s IH]; [discriminate |].
  cbn [to_digits]. destruct (Libc.isdigit x) eqn:E; cbn [negb].
  - intros H. injection H as -> _. exact E.
  - exact IH.
Qed.

Lemma groups_none (s : string) : to_digits s = "" -> groups false s = O.
Proof. intros H. now rewrite groups_to_digits, H. Qed.

Lemma groups_step (s : string) (c : ascii) (t : string) :
  to_digits s = String c t ->
  groups false s = S (groups false (past_digits (String c t))).
Proof.
  intros H. pose proof (to_digits_head s c t H) as Hc.
  rewrite groups_to_digits, H. cbn [groups past_digits]. rewrite Hc.
  now rewrite groups_inside.
Qed.

(** X23. [parseDate] returns true just when the text has six groups of
    digits or more, whatever stands between them and whatever the
    numbers are. *)
Theorem Clock_parseDate_six_numbers (text : string) :
  (parseDate text).1 = true <-> (6 <= groups false text)%nat.
Proof.
  unfold parseDate.
  destruct (to_digits text) as [|c1 t1] eqn:E1.
  { rewrite (groups_none _ E1). cbn [fst]. split; [discriminate | lia]. }
  rewrite (groups_step _ _ _ E1).
  destruct (to_digits (past_digits (String c1 t1))) as [|c2 t2] eqn:E2.
  { rewrite (groups_none _ E2). cbn [fst]. split; [discriminate | lia]. }
  rewrite (groups_step _ _ _ E2).
  destruct (to_digits (past_digits (String c2 t2))) as [|c3 t3] eqn:E3.
  { rewrite (groups_none _ E3). cbn [fst]. split; [discriminate | lia]. }
  rewrite (groups_step _ _ _ E3).
  destruct (to_digits (past_digits (String c3 t3))) as [|c4 t4] eqn:E4.
  { rewrite (groups_none _ E4). cbn [fst]. split; [discriminate | lia]. }
  rewrite (groups_step _ _ _ E4).
  destruct (to_digits (past_digits (String c4 t4))) as [|c5 t5] eqn:E5.
  { rewrite (groups_none _ E5). cbn [fst]. split; [discriminate | lia]. }
  rewrite (groups_step _ _ _ E5).
  destruct (to_digits (past_digits (String c5 t5))) as [|c6 t6] eqn:E6.
  { rewrite (groups_none _ E6). cbn [fst]. split; [discriminate | lia]. }
  rewrite (groups_step _ _ _ E6).
  cbn [fst]. split; [lia | reflexivity].
Qed.

Lemma numeral_head (n : Z) (t : string) :
  numeral n t -> exists c t', t = String c t' /\ Libc.isdigit c = true.
Proof.
  intros (Hne & Hd & _). destruct t as [|c t']; [contradiction |].
  cbn [Libc.all_chars] in Hd. apply andb_prop in Hd as [Hc _]. eauto.
Qed.

Lemma to_digits_separator (sep more : string) :
  Libc.all_chars (fun c => negb (Libc.isdigit c)) sep = true ->
  (forall c t, more = String c t -> Libc.isdigit c = true) ->
  to_digits (sep +:+ more) = more.
Proof.
  intros Hs Hm. induction sep as [|c sep IH].
  - rewrite string_app_empty_l. destruct more as [|c t]; [reflexivity |].
    cbn [to_digits]. now rewrite (Hm c t eq_refl).
  - cbn [Libc.all_chars] in Hs. apply andb_prop in Hs as [Hc Hs].
    rewrite string_app_cons. cbn [to_digits]. rewrite Hc. now apply IH.
Qed.

Lemma past_digits_numeral (t rest : string) :
  Libc.all_chars Libc.isdigit t = true -> Libc.ends_number rest ->
  past_digits (t +:+ rest) = rest.
Proof.
  intros Ht Hr. induction t as [|c t IH].
  - rewrite string_app_empty_l. destruct rest as [|c r]; [reflexivity |].
    cbn [past_digits]. cbn in Hr. now rewrite Hr.
  - cbn [Libc.all_chars] in Ht. apply andb_prop in Ht as [Hc Ht].
    rewrite string_app_cons. cbn [past_digits]. rewrite Hc. now apply IH.
Qed.

Lemma separator_ends (sep more : string) :
  separator sep -> Libc.ends_number (sep +:+ more).
Proof.
  intros [Hne Hs]. destruct sep as [|c sep]; [contradiction |].
  rewrite string_app_cons. cbn [Libc.all_chars] in Hs.
  apply andb_prop in Hs as [Hc _]. cbn. now apply negb_true_iff in Hc.
Qed.

Lemma numeral_starts (n : Z) (t more : string) :
  numeral n t ->
  forall c x, t +:+ more = String c x -> Libc.isdigit c = true.
Proof.
  intros H c x E. destruct (numeral_head n t H) as (c' & t' & -> & Hc).
  rewrite string_app_cons in E. now injection E as <- _.
Qed.

(** From one number to the next. *)
Lemma next_number (n : Z) (t sep : string) (m : Z) (t' more : string) :
  numeral n t -> separator sep -> numeral m t' ->
  to_digits (past_digits (t +:+ sep +:+ t' +:+ more)) = t' +:+ more.
Proof.
  intros Ht Hs Ht'.
  rewrite past_digits_numeral;
    [| apply Ht | now apply separator_ends].
  apply to_digits_separator; [apply Hs |].
  now apply (numeral_starts m).
Qed.

Lemma isdigit_plain (c : ascii) :
  Libc.isdigit c = true ->
  Libc.isSpace c = false /\ Ascii.eqb c "-" = false /\
  Ascii.eqb c "+" = false.
Proof.
  unfold Libc.isdigit, Libc.isSpace. intros H.
  apply andb_prop in H as [H1 H2]. apply Z.leb_le in H1, H2.
  split; [| split].
  - destruct (Z.eqb_spec (Libc.code c) 32); [lia |].
    destruct (Z.leb_spec (Libc.code c) 13); [lia |].
    now rewrite andb_false_r.
  - apply Ascii.eqb_neq. intros ->. vm_compute in H1. now apply H1.
  - apply Ascii.eqb_neq. intros ->. vm_compute in H1. now apply H1.
Qed.

Lemma digits_value_app (t rest : string) :
  Libc.all_chars Libc.isdigit t = true -> Libc.ends_number rest ->
  forall a, Libc.digits_value (t +:+ rest) a = Libc.digits_value t a.
Proof.
  intros Ht Hr. induction t as [|c t IH]; intros a.
  - rewrite string_app_empty_l. now rewrite digits_value_end.
  - cbn [Libc.all_chars] in Ht. apply andb_prop in Ht as [Hc Ht].
    rewrite string_app_cons. cbn [Libc.digits_value]. rewrite Hc.
    now apply IH.
Qed.

Lemma atoi_numeral (n : Z) (t rest : string) :
  numeral n t -> 0 <= n <= Libc.INT_MAX -> Libc.ends_number rest ->
  Libc.atoi (t +:+ rest) = n.
Proof.
  intros Ht Hn Hr. destruct (numeral_head n t Ht) as (c & t' & -> & Hc).
  destruct Ht as (_ & Hd & Hv).
  destruct (isdigit_plain c Hc) as (Hsp & Hm & Hp).
  unfold Libc.atoi. rewrite string_app_cons. cbn [Libc.skip_spaces].
  rewrite Hsp, Hm, Hp. rewrite <- string_app_cons.
  rewrite digits_value_app, Hv by assumption.
  unfold Libc.INT_MAX, Libc.INT_MIN in *. lia.
Qed.

Lemma numeral_match {A : Type} (n : Z) (t more : string) (x y : A) :
  numeral n t ->
  match t +:+ more with EmptyString => x | String _ _ => y end = y.
Proof.
  intros H. destruct (numeral_head n t H) as (c & t' & -> & _).
  now rewrite string_app_cons.
Qed.

(** X24. [parseDate] reads six numbers, with anything but digits between
    them, before them and after them, and zeros in front of a number or
    not. When the first number is over 31 the date is year, month, day;
    when it is 31 or less the date is month, day, year. Hour, minute and
    second follow. *)
Theorem Clock_parseDate_reads_date
    (a b c h mi se : Z) (ta tb tc th tmi tse : string)
    (s0 s1 s2 s3 s4 s5 rest : string) :
  numeral a ta -> numeral b tb -> numeral c tc ->
  numeral h th -> numeral mi tmi -> numeral se tse ->
  0 <= a < 2 ^ 16 -> 0 <= b < 2 ^ 8 -> 0 <= c < 2 ^ 16 ->
  (31 < a -> c < 2 ^ 8) ->
  0 <= h < 2 ^ 8 -> 0 <= mi < 2 ^ 8 -> 0 <= se < 2 ^ 8 ->
  Libc.all_chars (fun x => negb (Libc.isdigit x)) s0 = true ->
  separator s1 -> separator s2 -> separator s3 -> separator s4 ->
  separator s5 -> Libc.ends_number rest ->
  parseDate (s0 +:+ ta +:+ s1 +:+ tb +:+ s2 +:+ tc +:+ s3 +:+ th +:+ s4
             +:+ tmi +:+ s5 +:+ tse +:+ rest)
  = (true,
     if 31 <? a
     then {| year := a; month := b; day := c;
             hour := h; minute := mi; second := se |}
     else {| year := c; month := a; day := b;
             hour := h; minute := mi; second := se |}).
Proof.
  intros Ha Hb Hc Hh Hmi Hse Ba Bb Bc Bc' Bh Bmi Bse H0 H1 H2 H3 H4 H5 Hr.
  assert (P16 : 2 ^ 16 = 65536) by reflexivity.
  assert (P8 : 2 ^ 8 = 256) by reflexivity.
  rewrite P16 in *. rewrite P8 in *.
  unfold parseDate.
  rewrite (to_digits_separator s0) by
    first [assumption | now apply (numeral_starts a)].
  rewrite (next_number a ta s1 b tb) by assumption.
  rewrite (next_number b tb s2 c tc) by assumption.
  rewrite (next_number c tc s3 h th) by assumption.
  rewrite (next_number h th s4 mi tmi) by assumption.
  rewrite (next_number mi tmi s5 se tse) by assumption.
  rewrite (numeral_match a ta), (numeral_match b tb), (numeral_match c tc),
    (numeral_match h th), (numeral_match mi tmi), (numeral_match se tse)
    by assumption.
  rewrite (atoi_numeral a ta), (atoi_numeral b tb), (atoi_numeral c tc),
    (atoi_numeral h th), (atoi_numeral mi tmi), (atoi_numeral se tse)
    by first [assumption | now apply separator_ends
             | unfold Libc.INT_MAX; lia].
  unfold uint16, uint8. rewrite P16, P8.
  rewrite (Z.mod_small a 65536), (Z.mod_small c 65536),
    (Z.mod_small b 65536), (Z.mod_small b 256), (Z.mod_small h 256),
    (Z.mod_small mi 256), (Z.mod_small se 256) by lia.
  destruct (Z.ltb_spec 31 a) as [Hy | Hm].
  - rewrite (Z.mod_small c 256) by lia. reflexivity.
  - rewrite (Z.mod_small a 256) by lia. reflexivity.
Qed.

End ParseDateProofs.

Lemma Clock_parseDate_reads_date_witness :
  Clock.parseDate "2021-01-02 12:30:05"
  = (true, {| Clock.year := 2021; Clock.month := 1; Clock.day := 2;
              Clock.hour := 12; Clock.minute := 30; Clock.second := 5 |}) /\
  Clock.parseDate "on 1/2/2021 at 12h30m05s"
  = (true, {| Clock.year := 2021; Clock.month := 1; Clock.day := 2;
              Clock.hour := 12; Clock.minute := 30; Clock.second := 5 |}).
Proof.
  assert (N : forall n t,
             t <> "" -> Libc.all_chars Libc.isdigit t = true ->
             Libc.digits_value t 0 = n -> Clock.numeral n t)
    by (intros n t H1 H2 H3; repeat split; assumption).
  assert (S : forall s,
             s <> "" ->
             Libc.all_chars (fun c => negb (Libc.isdigit c)) s = true ->
             Clock.separator s)
    by (intros s H1 H2; split; assumption).
  split.
  - exact (Clock_parseDate_reads_date 2021 1 2 12 30 5
             "2021" "01" "02" "12" "30" "05" "" "-" "-" " " ":" ":" ""
             (N 2021 "2021" ltac:(discriminate) eq_refl eq_refl)
             (N 1 "01" ltac:(discriminate) eq_refl eq_refl)
             (N 2 "02" ltac:(discriminate) eq_refl eq_refl)
             (N 12 "12" ltac:(discriminate) eq_refl eq_refl)
             (N 30 "30" ltac:(discriminate) eq_refl eq_refl)
             (N 5 "05" ltac:(discriminate) eq_refl eq_refl)
             ltac:(split; [discriminate | reflexivity])
             ltac:(split; [discriminate | reflexivity])
             ltac:(split; [discriminate | reflexivity])
             ltac:(intros _; reflexivity)
             ltac:(split; [discriminate | reflexivity])
             ltac:(split; [discriminate | reflexivity])
             ltac:(split; [discriminate | reflexivity])
             eq_refl
             (S "-" ltac:(discriminate) eq_refl)
             (S "-" ltac:(discriminate) eq_refl)
             (S " " ltac:(discriminate) eq_refl)
             (S ":" ltac:(discriminate) eq_refl)
             (S ":" ltac:(discriminate) eq_refl)
             I).
  - exact (Clock_parseDate_reads_date 1 2 2021 12 30 5
             "1" "2" "2021" "12" "30" "05" "on " "/" "/" " at " "h" "m" "s"
             (N 1 "1" ltac:(discriminate) eq_refl eq_refl)
             (N 2 "2" ltac:(discriminate) eq_refl eq_refl)
             (N 2021 "2021" ltac:(discriminate) eq_refl eq_refl)
             (N 12 "12" ltac:(discriminate) eq_refl eq_refl)
             (N 30 "30" ltac:(discriminate) eq_refl eq_refl)
             (N 5 "05" ltac:(discriminate) eq_refl eq_refl)
             ltac:(split; [discriminate | reflexivity])
             ltac:(split; [discriminate | reflexivity])
             ltac:(split; [discriminate | reflexivity])
             ltac:(intros H; discriminate H)
             ltac:(split; [discriminate | reflexivity])
             ltac:(split; [discriminate | reflexivity])
             ltac:(split; [discriminate | reflexivity])
             eq_refl
             (S "/" ltac:(discriminate) eq_refl)
             (S "/" ltac:(discriminate) eq_refl)
             (S " at " ltac:(discriminate) eq_refl)
             (S "h" ltac:(discriminate) eq_refl)
             (S "m" ltac:(discriminate) eq_refl)
             eq_refl).
Defined.

(** ** The battery monitors behind the multiplexer *)

Section BatteryProofs.

Import Battery.

Context {flt : Type}.
Variable zero : flt.

Lemma routed_app (a b : list Event) (sel : Z) :
  routed sel (a ++ b) = routed sel a && routed (selected_after sel a) b.
Proof.
  revert sel. induction a as [|e a IH]; intros sel; [reflexivity |].
  destruct e as [byte | device]; cbn [app routed selected_after].
  - apply IH.
  - rewrite IH. now rewrite andb_assoc.
Qed.

Lemma selected_after_app (a b : list Event) (sel : Z) :
  selected_after sel (a ++ b) = selected_after (selected_after sel a) b.
Proof.
  revert sel. induction a as [|e a IH]; intros sel; [reflexivity |].
  destruct e as [byte | device]; cbn [app selected_after]; apply IH.
Qed.

(** After [setMux] for one of the two batteries the multiplexer has the
    channel of that battery selected. *)
Lemma setMux_selects (device sel : Z) (s : state) :
  in_step sel s -> device = MUX_CONTROLLER_BATTERY \/ device = MUX_MAIN_BATTERY ->
  let r := setMux device s in
  routed sel r.2 = true /\
  selected_after sel r.2 = Z.shiftl 1 device /\
  currentMuxDevice r.1 = device /\
  mainInitialized r.1 = mainInitialized s /\
  controllerInitialized r.1 = controllerInitialized s.
Proof.
  intros Hs Hd. unfold setMux.
  assert (H7 : (7 <? device) = false)
    by (destruct Hd as [-> | ->]; reflexivity).
  rewrite H7.
  destruct (Z.eqb_spec device (currentMuxDevice s)) as [E | E]; cbn.
  - repeat split; try congruence.
    destruct Hs as [H255 | [_ Hsel]]; [| congruence].
    destruct Hd as [-> | ->]; rewrite <- E in H255; discriminate.
  - repeat split. destruct Hd as [-> | ->]; reflexivity.
Qed.

Lemma step_routed (c : call flt) (sel : Z) (s : state) :
  in_step sel s ->
  routed sel (step zero c s).2 = true /\
  in_step (selected_after sel (step zero c s).2) (step zero c s).1.
Proof.
  intros Hs. destruct c as [cb mb | r | r]; cbn [step].
  - unfold init.
    destruct (setMux_selects MUX_CONTROLLER_BATTERY sel s Hs
                ltac:(now left)) as (R1 & S1 & C1 & _).
    destruct (setMux MUX_CONTROLLER_BATTERY s) as [s1 tr1].
    cbn [fst snd] in R1, S1, C1.
    set (s2 := {| currentMuxDevice := currentMuxDevice s1;
                  mainInitialized := mainInitialized s1;
                  controllerInitialized :=
                    if cb then true else controllerInitialized s1 |}).
    assert (Hs2 : in_step (Z.shiftl 1 MUX_CONTROLLER_BATTERY) s2).
    { right. unfold s2. cbn [currentMuxDevice]. rewrite C1.
      split; [split; discriminate | reflexivity]. }
    destruct (setMux_selects MUX_MAIN_BATTERY _ s2 Hs2 ltac:(now right))
      as (R3 & S3 & C3 & _).
    destruct (setMux MUX_MAIN_BATTERY s2) as [s3 tr3].
    cbn [fst snd] in R3, S3, C3 |- *.
    set (tr2 := Monitor MUX_CONTROLLER_BATTERY
                :: (if cb
                    then [Monitor MUX_CONTROLLER_BATTERY;
                          Monitor MUX_CONTROLLER_BATTERY;
                          Monitor MUX_CONTROLLER_BATTERY]
                    else [])).
    set (tr4 := Monitor MUX_MAIN_BATTERY
                :: (if mb
                    then [Monitor MUX_MAIN_BATTERY; Monitor MUX_MAIN_BATTERY;
                          Monitor MUX_MAIN_BATTERY]
                    else [])).
    assert (R2 : forall x, routed x tr2
                           = (x =? Z.shiftl 1 MUX_CONTROLLER_BATTERY))
      by (intros x; unfold tr2; destruct cb; cbn [routed];
          destruct (x =? Z.shiftl 1 MUX_CONTROLLER_BATTERY); reflexivity).
    assert (S2 : forall x, selected_after x tr2 = x)
      by (intros x; unfold tr2; destruct cb; reflexivity).
    assert (R4 : forall x, routed x tr4 = (x =? Z.shiftl 1 MUX_MAIN_BATTERY))
      by (intros x; unfold tr4; destruct mb; cbn [routed];
          destruct (x =? Z.shiftl 1 MUX_MAIN_BATTERY); reflexivity).
    assert (S4 : forall x, selected_after x tr4 = x)
      by (intros x; unfold tr4; destruct mb; reflexivity).
    rewrite !routed_app, !selected_after_app, R1, S1, R2, S2, R3, S3, R4, S4.
    split; [reflexivity |].
    right. cbn [currentMuxDevice]. rewrite C3.
    split; [split; discriminate | reflexivity].
  - unfold getController.
    destruct (controllerInitialized s); cbn [negb]; [| now split].
    destruct (setMux_selects MUX_CONTROLLER_BATTERY sel s Hs
                ltac:(now left)) as (R1 & S1 & C1 & _).
    destruct (setMux MUX_CONTROLLER_BATTERY s) as [s1 tr1].
    cbn [fst snd] in *.
    rewrite routed_app, selected_after_app, R1, S1. cbn.
    split; [reflexivity |]. right. rewrite C1.
    split; [split; discriminate | reflexivity].
  - unfold getMain.
    destruct (mainInitialized s); cbn [negb]; [| now split].
    destruct (setMux_selects MUX_MAIN_BATTERY sel s Hs
                ltac:(now right)) as (R1 & S1 & C1 & _).
    destruct (setMux MUX_MAIN_BATTERY s) as [s1 tr1].
    cbn [fst snd] in *.
    rewrite routed_app, selected_after_app, R1, S1. cbn.
    split; [reflexivity |]. right. rewrite C1.
    split; [split; discriminate | reflexivity].
Qed.

(** X25. No battery monitor is ever addressed through the wrong channel
    of the multiplexer. From the fields as they are at boot, whatever
    the multiplexer holds then and in whatever order [init] and the
    readers are called, every call of the library of a monitor is made
    while the multiplexer has the channel of that battery selected, and
    no other. *)
Theorem Battery_monitors_routed (calls : list (call flt)) (selected : Z) :
  routed selected (run zero calls boot).2 = true.
Proof.
  assert (Hboot : in_step selected boot) by now left.
  generalize dependent boot. revert selected.
  induction calls as [|c calls IH]; intros sel s Hs; [reflexivity |].
  cbn [run]. destruct (step_routed c sel s Hs) as [R1 Hs1].
  destruct (step zero c s) as [s1 tr]. cbn [fst snd] in *.
  specialize (IH _ s1 Hs1).
  destruct (run zero calls s1) as [s2 tr']. cbn [fst snd] in *.
  now rewrite routed_app, R1, IH.
Qed.

End BatteryProofs.
